(** * Project storage monitor: usage aggregation and report rendering

    A shallow embedding of the pure core of
    [ScriptTools/project-storage-monitor/project_storage_monitor.py]
    (class [ArtifactoryStorageMonitor] and the project-selection part of
    [main]) together with the properties its specification states.

    Conventions of the embedding:
    - a Python [str] is the list of its Unicode code points ([list Z]);
      string literals of the source are written as UTF-8 text and decoded
      by [utf8_decode];
    - a Python [int] is a [Z]; a Python [float] is an IEEE-754 binary64
      value of the standard library's [spec_float], with the rounding of
      every operation computed by [SpecFloat];
    - exceptions are the left summand of [result]; [print] is a writer
      effect whose log is the list of the strings printed so far;
    - [s * n] raises [OverflowError] when the count is not an index of
      the platform; the memory of the machine is not modelled. *)

From Stdlib Require Import ZArith List Bool Lia String Ascii QArith.
From Stdlib Require Import SpecFloat DecimalPos.
Import ListNotations.

Local Open Scope Z_scope.

(** ** Python strings *)

Module PyStr.

Definition str := list Z.

(** Decoding of a UTF-8 byte sequence into code points. *)
Definition cont (b : Z) : Z := Z.land b 63.

Fixpoint utf8_decode (bs : list Z) : str :=
  match bs with
  | [] => []
  | b0 :: r0 =>
      if b0 <? 128 then b0 :: utf8_decode r0
      else if b0 <? 224 then
        match r0 with
        | b1 :: r1 =>
            (Z.shiftl (Z.land b0 31) 6 + cont b1) :: utf8_decode r1
        | _ => []
        end
      else if b0 <? 240 then
        match r0 with
        | b1 :: b2 :: r2 =>
            (Z.shiftl (Z.land b0 15) 12 + Z.shiftl (cont b1) 6 + cont b2)
              :: utf8_decode r2
        | _ => []
        end
      else
        match r0 with
        | b1 :: b2 :: b3 :: r3 =>
            (Z.shiftl (Z.land b0 7) 18 + Z.shiftl (cont b1) 12
             + Z.shiftl (cont b2) 6 + cont b3) :: utf8_decode r3
        | _ => []
        end
  end.

Definition bytes_of (s : string) : list Z :=
  map (fun a => Z.of_N (N_of_ascii a)) (list_ascii_of_string s).

(** [lit "..."] is the Python string literal with that text. *)
Definition lit (s : string) : str := utf8_decode (bytes_of s).

(** [n] copies of [s] in a row, none when [n <= 0]. *)
Definition repeated (s : str) (n : Z) : str :=
  List.concat (repeat s (Z.to_nat n)).

Definition nl : Z := 10.

Fixpoint eqb (a b : str) : bool :=
  match a, b with
  | [], [] => true
  | x :: a', y :: b' => (x =? y) && eqb a' b'
  | _, _ => false
  end.

End PyStr.

Import PyStr.

(** ** Exceptions and the two effects of the source *)

Module Eff.

Inductive exn :=
| KeyError
| ValueError
| ZeroDivisionError
| OverflowError
| SystemExit (code : Z).

(** A computation that may raise. *)
Definition result (A : Type) : Type := (exn + A)%type.

Definition ret {A} (a : A) : result A := inr a.
Definition raise {A} (e : exn) : result A := inl e.
Definition bind {A B} (c : result A) (k : A -> result B) : result B :=
  match c with
  | inl e => inl e
  | inr a => k a
  end.

(** A computation that prints and may raise: what was printed before
    the exception stays printed. *)
Definition IO (A : Type) : Type := (list str * result A)%type.

Definition io_ret {A} (a : A) : IO A := ([], inr a).
Definition io_bind {A B} (c : IO A) (k : A -> IO B) : IO B :=
  match c with
  | (out, inl e) => (out, inl e)
  | (out, inr a) => let '(out', r) := k a in (out ++ out', r)
  end.
Definition lift {A} (c : result A) : IO A := ([], c).
Definition print (s : str) : IO unit := ([s], inr tt).

(** [for x in xs: body x] *)
Fixpoint for_each {A} (xs : list A) (body : A -> IO unit) : IO unit :=
  match xs with
  | [] => io_ret tt
  | x :: rest => io_bind (body x) (fun _ => for_each rest body)
  end.

Definition printed {A} (c : IO A) : list str := fst c.
Definition outcome {A} (c : IO A) : result A := snd c.

End Eff.

Import Eff.

Declare Scope res_scope.
Declare Scope io_scope.
Delimit Scope res_scope with res.
Delimit Scope io_scope with io.

Notation "x <- c ;; k" := (Eff.bind c (fun x => k))
  (at level 61, c at next level, right associativity) : res_scope.
Notation "x <- c ;; k" := (Eff.io_bind c (fun x => k))
  (at level 61, c at next level, right associativity) : io_scope.
Notation "c ;; k" := (Eff.io_bind c (fun _ => k))
  (at level 61, right associativity) : io_scope.

(** ** Repetition of a string: [s * n] *)

Module Repetition.

(** [sys.maxsize], the largest index of the platform: [2 ^ 63 - 1] on the
    64-bit builds of CPython. *)
Definition maxsize : Z := 2 ^ 63 - 1.

(** [s * n] for a string [s] and an int [n].  The count is converted to
    an index first, which raises [OverflowError] outside the index
    range; a count below 1 gives the empty string; and the length of the
    result has to fit an index too.  Within these limits the string is
    built: the memory of the machine is not part of the model. *)
Definition times (s : str) (n : Z) : result str :=
  if (n <? - maxsize - 1) || (maxsize <? n) then raise OverflowError
  else if n <? 1 then ret []
  else if maxsize / n <? Z.of_nat (List.length s) then raise OverflowError
  else ret (repeated s n).

End Repetition.

Import Repetition.

(** ** Display width and padding ([get_display_width], [pad_string]) *)

Module Width.

(** ['\u4e00' <= char <= '\u9fff'] on one-character strings compares
    code points. *)
Definition is_cjk (char : Z) : bool := (0x4e00 <=? char) && (char <=? 0x9fff).

(** The body of the [for char in text] loop: one update of [width]. *)
Definition width_step (width : Z) (char : Z) : Z :=
  if is_cjk char then width + 2 else width + 1.

Definition get_display_width (text : str) : Z :=
  fold_left width_step text 0.

(** [pad_string(text, width, align)]; [align] is a Python string, and
    every value other than ['<'] and ['>'] takes the centring branch.
    The spaces are built by [' ' * padding], which can raise. *)
Definition pad_string (text : str) (width : Z) (align : str) : result str :=
  let current_width := get_display_width text in
  if current_width >=? width then ret text
  else
    let padding := width - current_width in
    if PyStr.eqb align (lit "<") then
      (spaces <- times (lit " ") padding ;; ret (text ++ spaces))%res
    else if PyStr.eqb align (lit ">") then
      (spaces <- times (lit " ") padding ;; ret (spaces ++ text))%res
    else
      let left_padding := padding / 2 in
      let right_padding := padding - left_padding in
      (left <- times (lit " ") left_padding ;;
       right <- times (lit " ") right_padding ;;
       ret (left ++ text ++ right))%res.

(** The width a single character contributes, as the specification
    words it. *)
Definition char_width (char : Z) : Z :=
  if (0x4e00 <=? char) && (char <=? 0x9fff) then 2 else 1.

Definition sum_Z (l : list Z) : Z := fold_right Z.add 0 l.

End Width.

Import Width.


(** ** Python numbers: [int] and [float] *)

Module PyNum.

Definition prec : Z := 53.
Definition emax : Z := 1024.

Definition float := spec_float.

Inductive pynum :=
| PyInt (z : Z)
| PyFloat (f : float).

(** [float(z)]: round to nearest, ties to even; [OverflowError] when
    the integer is beyond the range of a double. *)
Definition int_to_float (z : Z) : result float :=
  match binary_normalize prec emax z 0 false with
  | S754_infinity _ => raise OverflowError
  | f => ret f
  end.

Definition to_float (a : pynum) : result float :=
  match a with
  | PyInt z => int_to_float z
  | PyFloat f => ret f
  end.

Definition is_zero (f : float) : bool :=
  match f with
  | S754_zero _ => true
  | _ => false
  end.

(** [a / b] on two ints: the correctly rounded quotient. *)
Definition int_truediv (a b : Z) : result float :=
  if b =? 0 then raise ZeroDivisionError
  else if a =? 0 then ret (S754_zero (b <? 0))
  else
    let '(mz, ez, lz) :=
      SFdiv_core_binary prec emax (Z.abs a) 0 (Z.abs b) 0 in
    match binary_round_aux prec emax (xorb (a <? 0) (b <? 0)) mz ez lz with
    | S754_infinity _ => raise OverflowError
    | f => ret f
    end.

(** [a / b] *)
Definition truediv (a b : pynum) : result pynum :=
  match a, b with
  | PyInt x, PyInt y => (f <- int_truediv x y ;; ret (PyFloat f))%res
  | _, _ =>
      (x <- to_float a ;;
       y <- to_float b ;;
       if is_zero y then raise ZeroDivisionError
       else ret (PyFloat (SFdiv prec emax x y)))%res
  end.

(** [a * b] *)
Definition mul (a b : pynum) : result pynum :=
  match a, b with
  | PyInt x, PyInt y => ret (PyInt (x * y))
  | _, _ =>
      (x <- to_float a ;;
       y <- to_float b ;;
       ret (PyFloat (SFmul prec emax x y)))%res
  end.

(** Exact comparison of an integer with a float, as Python makes it
    ([None] for a NaN). *)
Definition Z_float_compare (n : Z) (f : float) : option comparison :=
  match f with
  | S754_nan => None
  | S754_infinity s => Some (if s then Gt else Lt)
  | S754_zero _ => Some (n ?= 0)
  | S754_finite s m e =>
      let sm := if s then Zneg m else Zpos m in
      Some (if 0 <=? e then n ?= sm * 2 ^ e else n * 2 ^ (- e) ?= sm)
  end.

(** Comparison of two numbers; floats against floats by [SFcompare]. *)
Definition compare (a b : pynum) : option comparison :=
  match a, b with
  | PyInt x, PyInt y => Some (x ?= y)
  | PyInt x, PyFloat g => Z_float_compare x g
  | PyFloat f, PyInt y => option_map CompOpp (Z_float_compare y f)
  | PyFloat f, PyFloat g => SFcompare f g
  end.

(** [a < b] *)
Definition lt (a b : pynum) : bool :=
  match compare a b with
  | Some Lt => true
  | _ => false
  end.

(** [a > b] *)
Definition gt (a b : pynum) : bool :=
  match compare a b with
  | Some Gt => true
  | _ => false
  end.

(** [a >= b] *)
Definition ge (a b : pynum) : bool :=
  match compare a b with
  | Some Gt | Some Eq => true
  | _ => false
  end.

(** [a <= b] *)
Definition le (a b : pynum) : bool :=
  match compare a b with
  | Some Lt | Some Eq => true
  | _ => false
  end.

(** [int(a)]: truncation toward zero. *)
Definition to_int (a : pynum) : result Z :=
  match a with
  | PyInt z => ret z
  | PyFloat S754_nan => raise ValueError
  | PyFloat (S754_infinity _) => raise OverflowError
  | PyFloat (S754_zero _) => ret 0
  | PyFloat (S754_finite s m e) =>
      let t := if 0 <=? e then Zpos m * 2 ^ e else Zpos m / 2 ^ (- e) in
      ret (if s then - t else t)
  end.

(** The float literals of the source. *)
Definition f1024 : float :=
  Eval vm_compute in binary_normalize prec emax 1024 0 false.

End PyNum.

Import PyNum.

(** ** Number formatting: [str(int)] and the [.Nf] format *)

Module PyFormat.

Fixpoint uint_str (u : Decimal.uint) : str :=
  match u with
  | Decimal.Nil => []
  | Decimal.D0 u => 48 :: uint_str u
  | Decimal.D1 u => 49 :: uint_str u
  | Decimal.D2 u => 50 :: uint_str u
  | Decimal.D3 u => 51 :: uint_str u
  | Decimal.D4 u => 52 :: uint_str u
  | Decimal.D5 u => 53 :: uint_str u
  | Decimal.D6 u => 54 :: uint_str u
  | Decimal.D7 u => 55 :: uint_str u
  | Decimal.D8 u => 56 :: uint_str u
  | Decimal.D9 u => 57 :: uint_str u
  end.

Definition minus_sign : Z := 45.
Definition point : Z := 46.
Definition zero_digit : Z := 48.

(** [str(z)] *)
Definition int_str (z : Z) : str :=
  match z with
  | Z0 => [zero_digit]
  | Zpos p => uint_str (Pos.to_uint p)
  | Zneg p => minus_sign :: uint_str (Pos.to_uint p)
  end.

(** [num / den] rounded to the nearest integer, ties to even
    ([0 <= num], [0 < den]). *)
Definition round_half_even (num den : Z) : Z :=
  let q := num / den in
  let r := num mod den in
  match 2 * r ?= den with
  | Lt => q
  | Gt => q + 1
  | Eq => if Z.even q then q else q + 1
  end.

(** The digits of [n / 10^d] with [d] decimals, for [0 <= n]. *)
Definition fixed_digits (d : nat) (n : Z) : str :=
  let p := 10 ^ Z.of_nat d in
  let frac := int_str (n mod p) in
  int_str (n / p)
    ++ match d with
       | O => []
       | _ => point :: repeat zero_digit (d - List.length frac) ++ frac
       end.

Definition sign_str (s : bool) : str := if s then [minus_sign] else [].

(** [f"{x:.df}"] for a float [x]: the exact binary value, correctly
    rounded to [d] decimals. *)
Definition float_format_f (d : nat) (x : float) : str :=
  match x with
  | S754_nan => lit "nan"
  | S754_infinity s => sign_str s ++ lit "inf"
  | S754_zero s => sign_str s ++ fixed_digits d 0
  | S754_finite s m e =>
      let p := 10 ^ Z.of_nat d in
      let n :=
        if 0 <=? e then Zpos m * 2 ^ e * p
        else round_half_even (Zpos m * p) (2 ^ (- e)) in
      sign_str s ++ fixed_digits d n
  end.

(** [f"{a:.df}"]: an int is converted to a float first. *)
Definition format_f (d : nat) (a : pynum) : result str :=
  (x <- to_float a ;; ret (float_format_f d x))%res.

End PyFormat.

Import PyFormat.

(** ** The records the core consumes *)

Module Data.

(** An entry of [repositoriesSummaryList].  The source reads four keys
    of the dict; a key read with [.get] may be absent ([None]). *)
Record Repo := {
  projectKey : option str;
  repoKey : option str;
  repoType : option str;
  usedSpaceInBytes : option Z
}.

(** The answer of the storage-info endpoint: the list may be absent. *)
Record StorageInfo := {
  repositoriesSummaryList : option (list Repo)
}.

(** A project, read with [project['...']]. *)
Record Project := {
  project_key : str;
  display_name : str;
  storage_quota_bytes : Z
}.

(** The dict [calculate_project_usage] returns. *)
Record Usage := {
  repositories : list Repo;
  total_used_bytes : Z;
  repo_count : Z
}.

(** [d.get(key, default)] *)
Definition get {A} (field : option A) (default : A) : A :=
  match field with
  | Some v => v
  | None => default
  end.

(** [d.get(key) == s] for a string [s]: [None] equals no string. *)
Definition get_eqb (field : option str) (s : str) : bool :=
  match field with
  | Some v => PyStr.eqb v s
  | None => false
  end.

End Data.

Import Data.

(** ** The monitor: aggregation, formatting and rendering *)

Module Monitor.

Definition TOTAL : str := lit "TOTAL".

(** The condition of the list comprehension in
    [calculate_project_usage]. *)
Definition in_project (project_key : str) (repo : Repo) : bool :=
  get_eqb (projectKey repo) project_key
  && negb (get_eqb (repoKey repo) TOTAL).

(** [sum(...)]: accumulation from the left, starting at 0. *)
Definition py_sum (l : list Z) : Z := fold_left Z.add l 0.

Definition calculate_project_usage
    (project_key : str) (storage_info : StorageInfo) : Usage :=
  let project_repos :=
    filter (in_project project_key)
           (get (repositoriesSummaryList storage_info) []) in
  let total_used_bytes :=
    py_sum (map (fun repo => get (usedSpaceInBytes repo) 0) project_repos) in
  {| repositories := project_repos;
     total_used_bytes := total_used_bytes;
     repo_count := Z.of_nat (List.length project_repos) |}.

Definition units : list str :=
  [lit "B"; lit "KB"; lit "MB"; lit "GB"; lit "TB"].

(** The [for unit in [...]] loop of [format_size], with the [return]
    after it. *)
Fixpoint format_size_loop (us : list str) (bytes_size : pynum)
  : result str :=
  match us with
  | [] =>
      (t <- format_f 2 bytes_size ;; ret (t ++ lit " PB"))%res
  | unit :: rest =>
      if PyNum.lt bytes_size (PyFloat f1024) then
        (t <- format_f 2 bytes_size ;; ret (t ++ lit " " ++ unit))%res
      else
        (b <- truediv bytes_size (PyFloat f1024) ;;
         format_size_loop rest b)%res
  end.

Definition format_size (bytes_size : Z) : result str :=
  if bytes_size =? 0 then ret (lit "0 B")
  else format_size_loop units (PyInt bytes_size).

Definition esc : Z := 27.
Definition red : str := esc :: lit "[1;31m".
Definition yellow : str := esc :: lit "[1;33m".
Definition green : str := esc :: lit "[1;32m".
Definition reset_code : str := esc :: lit "[0m".

Definition get_project_name_color (usage_percent : pynum) : str :=
  if PyNum.gt usage_percent (PyInt 90) then red
  else if PyNum.gt usage_percent (PyInt 80) then yellow
  else green.

(** ['=' * separator_length] and ['-' * separator_length]: the count is
    the constant 70, for which [times] returns these strings. *)
Definition separator_length : Z := 70.
Definition separator_line : str := repeated (lit "=") separator_length.
Definition dash_line : str := repeated (lit "-") separator_length.

Definition critical_warning : str :=
  lit "🔴 警告: 存储使用率超过90%! 请立即处理".
Definition attention_warning : str :=
  lit "🟡 注意: 存储使用率超过80%".

(** The bar of [print_project_usage]: [bar_length = 30]. *)
Definition bar_length : Z := 30.

Definition filled_length_of (usage_percent : pynum) : result Z :=
  (x <- mul (PyInt bar_length) usage_percent ;;
   y <- truediv x (PyInt 100) ;;
   to_int y)%res.

(** ['█' * filled_length + '░' * (bar_length - filled_length)] *)
Definition bar_of (filled_length : Z) : result str :=
  (filled <- times (lit "█") filled_length ;;
   rest <- times (lit "░") (bar_length - filled_length) ;;
   ret (filled ++ rest))%res.

(** The [if usage_percent > 90 ... elif usage_percent > 80 ...] of
    the warning lines. *)
Definition print_warning (usage_percent : pynum) : IO unit :=
  if PyNum.gt usage_percent (PyInt 90) then print critical_warning
  else if PyNum.gt usage_percent (PyInt 80) then print attention_warning
  else io_ret tt.

(** The [if storage_quota > 0: ... else: ...] of a row: the text of the
    percentage column, [percent_display]. *)
Definition row_percent_display (storage_quota repo_used : Z) : result str :=
  if storage_quota >? 0 then
    (q <- truediv (PyInt repo_used) (PyInt storage_quota) ;;
     repo_percent <- mul q (PyInt 100) ;;
     t <- format_f 2 repo_percent ;;
     ret (t ++ lit "%"))%res
  else ret (lit "N/A").

(** One turn of the [for repo in usage_info['repositories']] loop. *)
Definition print_repo_row (storage_quota : Z) (repo : Repo) : IO unit :=
  (let repo_used := get (usedSpaceInBytes repo) 0 in
   percent_display <- lift (row_percent_display storage_quota repo_used) ;;
   key <- lift (match repoKey repo with
                | Some k => ret k
                | None => raise KeyError
                end) ;;
   repo_name <- lift (pad_string key 25 (lit "<")) ;;
   repo_type <-
     lift (pad_string (get (repoType repo) (lit "N/A")) 12 (lit "<")) ;;
   size <- lift (format_size repo_used) ;;
   repo_size <- lift (pad_string size 18 (lit "<")) ;;
   repo_percent_display <- lift (pad_string percent_display 12 (lit "<")) ;;
   print (repo_name ++ lit " " ++ repo_type ++ lit " " ++ repo_size
          ++ lit " " ++ repo_percent_display))%io.

Definition print_repo_details (storage_quota : Z) (repos : list Repo)
  : IO unit :=
  (print (nl :: lit "仓库详情:") ;;
   header1 <- lift (pad_string (lit "仓库名称") 25 (lit "<")) ;;
   header2 <- lift (pad_string (lit "类型") 12 (lit "<")) ;;
   header3 <- lift (pad_string (lit "使用空间") 18 (lit "<")) ;;
   header4 <- lift (pad_string (lit "占比") 12 (lit "<")) ;;
   print (header1 ++ lit " " ++ header2 ++ lit " " ++ header3
          ++ lit " " ++ header4) ;;
   print dash_line ;;
   for_each repos (print_repo_row storage_quota))%io.

Definition is_nonempty {A} (l : list A) : bool :=
  match l with
  | [] => false
  | _ => true
  end.

(** The first [if storage_quota > 0: ... else: ...] of
    [print_project_usage]: the pair [(usage_percent, quota_display)]. *)
Definition percent_and_quota_display (storage_quota total_used : Z)
  : result (pynum * str) :=
  if storage_quota >? 0 then
    (q <- truediv (PyInt total_used) (PyInt storage_quota) ;;
     usage_percent <- mul q (PyInt 100) ;;
     quota_display <- format_size storage_quota ;;
     ret (usage_percent, quota_display))%res
  else ret (PyInt 0, lit "无限制").

Definition print_project_usage
    (project : Project) (storage_info : StorageInfo) (show_details : bool)
  : IO unit :=
  (let project_key := Data.project_key project in
   let project_name := display_name project in
   let storage_quota := storage_quota_bytes project in
   let usage_info := calculate_project_usage project_key storage_info in
   let total_used := total_used_bytes usage_info in
   let repo_count := Data.repo_count usage_info in
   pq <- lift (percent_and_quota_display storage_quota total_used) ;;
   let usage_percent := fst pq in
   let quota_display := snd pq in
   let color_code := get_project_name_color usage_percent in
   print (nl :: separator_line) ;;
   print (lit "项目名称: " ++ color_code ++ project_name ++ reset_code
          ++ lit " (" ++ project_key ++ lit ")") ;;
   print (lit "存储限制: " ++ quota_display) ;;
   used <- lift (format_size total_used) ;;
   print (lit "已用空间: " ++ used) ;;
   print (lit "仓库数量: " ++ int_str repo_count) ;;
   (if storage_quota >? 0 then
      (t2 <- lift (format_f 2 usage_percent) ;;
       print (lit "使用比例: " ++ t2 ++ lit "%") ;;
       filled_length <- lift (filled_length_of usage_percent) ;;
       bar <- lift (bar_of filled_length) ;;
       t1 <- lift (format_f 1 usage_percent) ;;
       print (lit "使用情况: [" ++ bar ++ lit "] " ++ t1 ++ lit "%") ;;
       print_warning usage_percent)
    else print (lit "使用比例: 无限制")) ;;
   if show_details && is_nonempty (repositories usage_info)
   then print_repo_details storage_quota (repositories usage_info)
   else io_ret tt)%io.

(** *** The report selection of [main] *)

(** The [for project in projects: if ...: target_project = project;
    break] loop. *)
Fixpoint find_target (project_name : str) (projects : list Project)
  : option Project :=
  match projects with
  | [] => None
  | project :: rest =>
      if PyStr.eqb (Data.project_key project) project_name
         || PyStr.eqb (display_name project) project_name
      then Some project
      else find_target project_name rest
  end.

(** [if args.project_name:] is true for a non-empty string. *)
Definition truthy (arg : option str) : bool :=
  match arg with
  | Some (_ :: _) => true
  | _ => false
  end.

Section Main.

(** Python's built-in [repr] of a list of strings, which formats the
    list of known keys inside an f-string. *)
Variable repr_list : list str -> str.

(** The branch of [main] taken when a project name is given. *)
Definition report_selected (project_name : str)
    (projects : list Project) (storage_info : StorageInfo) : IO unit :=
  match find_target project_name projects with
  | Some target_project =>
      print_project_usage target_project storage_info true
  | None =>
      (print (lit "错误: 未找到项目 '" ++ project_name ++ lit "'") ;;
       print (lit "可用项目: "
              ++ repr_list (map Data.project_key projects)) ;;
       lift (raise (SystemExit 1)))%io
  end.

(** The branch of [main] that lists every project and the summary. *)
Definition report_all (details : bool)
    (projects : list Project) (storage_info : StorageInfo) : IO unit :=
  (print (lit "项目列表:" ++ [nl]) ;;
   for_each projects
     (fun project => print_project_usage project storage_info details) ;;
   let total_quota :=
     py_sum (map storage_quota_bytes
               (filter (fun p => storage_quota_bytes p >? 0) projects)) in
   let unlimited_projects :=
     filter (fun p => storage_quota_bytes p <=? 0) projects in
   let limited_projects :=
     filter (fun p => storage_quota_bytes p >? 0) projects in
   print (nl :: separator_line) ;;
   print (lit "汇总信息:") ;;
   print (lit "总项目数: " ++ int_str (Z.of_nat (List.length projects))) ;;
   print (lit "有限制项目: "
          ++ int_str (Z.of_nat (List.length limited_projects))
          ++ lit "个") ;;
   print (lit "无限制项目: "
          ++ int_str (Z.of_nat (List.length unlimited_projects))
          ++ lit "个") ;;
   if total_quota >? 0 then
     (t <- lift (format_size total_quota) ;;
      print (lit "总存储限制: " ++ t))
   else io_ret tt)%io.

(** [if args.project_name: ... else: ...] *)
Definition main_report (project_name : option str) (details : bool)
    (projects : list Project) (storage_info : StorageInfo) : IO unit :=
  if truthy project_name
  then report_selected (get project_name []) projects storage_info
  else report_all details projects storage_info.

End Main.

End Monitor.

Import Monitor.

(** ** The vocabulary of the specification *)

Module Spec.

(** The three tiers of the threshold classification. *)
Inductive Tier := Normal | Warning | Danger.

(** [in_tier p t]: the percentage [p] lies in the range the
    specification gives for tier [t]. *)
Inductive in_tier (p : pynum) : Tier -> Prop :=
| tier_danger : PyNum.gt p (PyInt 90) = true -> in_tier p Danger
| tier_warning :
    PyNum.gt p (PyInt 80) = true -> PyNum.le p (PyInt 90) = true ->
    in_tier p Warning
| tier_normal : PyNum.le p (PyInt 80) = true -> in_tier p Normal.

Definition tier_color (t : Tier) : str :=
  match t with
  | Danger => red
  | Warning => yellow
  | Normal => green
  end.

Definition tier_warning_lines (t : Tier) : list str :=
  match t with
  | Danger => [critical_warning]
  | Warning => [attention_warning]
  | Normal => []
  end.

(** The exact value of a number as a fraction [(num, den)] with
    [0 < den]; none for an infinity or a NaN. *)
Definition exact_value (a : pynum) : option (Z * Z) :=
  match a with
  | PyInt z => Some (z, 1)
  | PyFloat (S754_zero _) => Some (0, 1)
  | PyFloat (S754_finite s m e) =>
      let sm := if s then Zneg m else Zpos m in
      Some (if 0 <=? e then (sm * 2 ^ e, 1) else (sm, 2 ^ (- e)))
  | PyFloat _ => None
  end.

(** The float nearest to [num / den]: the value of a decimal literal. *)
Definition float_of_ratio (num den : Z) : float :=
match int_truediv num den with
| inr f => f
| inl _ => S754_nan
end.

Definition f80 : float := Eval vm_compute in float_of_ratio 80 1.
Definition f90 : float := Eval vm_compute in float_of_ratio 90 1.
Definition f80_0001 : float := Eval vm_compute in float_of_ratio 800001 10000.
Definition f90_0001 : float := Eval vm_compute in float_of_ratio 900001 10000.

(** The units of the size format, smallest first, [PB] last. *)
Definition larger_units : list str :=
  [lit "KB"; lit "MB"; lit "GB"; lit "TB"; lit "PB"].

(** "Start at B; while the remaining value is >= 1024 and a larger unit
    remains, divide by 1024 and advance one unit." *)
Fixpoint choose_unit (value : pynum) (unit : str) (larger : list str)
  : result (pynum * str) :=
  match larger with
  | [] => ret (value, unit)
  | next :: larger' =>
      if PyNum.ge value (PyFloat f1024) then
        (v <- truediv value (PyFloat f1024) ;;
         choose_unit v next larger')%res
      else ret (value, unit)
  end.

(** A text with exactly two decimal places: an optional sign, at least
    one digit, the point and two digits. *)
Definition is_digit (c : Z) : bool := (48 <=? c) && (c <=? 57).

Definition two_decimals (t : str) : Prop :=
  exists (sign int_part : str) (d1 d2 : Z),
    t = sign ++ int_part ++ [point; d1; d2]
    /\ (sign = [] \/ sign = [minus_sign])
    /\ int_part <> []
    /\ forallb is_digit int_part = true
    /\ is_digit d1 = true /\ is_digit d2 = true.

(** A float within the range of a double: a zero, or finite with at
    most 53 digits and an exponent of at most 971. *)
Definition in_range (x : float) : Prop :=
match x with
| S754_zero _ => True
| S754_finite _ m e => Zpos (digits2_pos m) <= 53 /\ e <= 971
| _ => False
end.

(** A non-negative float below [2 ^ k]. *)
Definition below (k : Z) (x : float) : Prop :=
match x with
| S754_zero s => s = false
| S754_finite s m e =>
    s = false /\ Zpos (digits2_pos m) <= 53 /\ e <= 971
    /\ Zpos (digits2_pos m) + e <= k
| _ => False
end.

(** The float values of the int literals [100] and [30]. *)
Definition f100 : float := S754_finite false 7036874417766400 (-46).
Definition f30 : float := S754_finite false 8444249301319680 (-48).

(** The largest mantissa at exponent [e] whose value is at most
    [t * 2 ^ k]. *)
Definition cap (t k e : Z) : Z := Z.shiftl t (k - e).

(** The exponent [e] is the canonical one for the mantissa [m]. *)
Definition canon (m : positive) (e : Z) : Prop :=
e = Z.max (Zpos (digits2_pos m) + e - 53) (-1074).

(** A non-negative canonical float of value at most [t * 2 ^ k]. *)
Definition at_most (t k : Z) (x : float) : Prop :=
match x with
| S754_zero s => s = false
| S754_finite s m e =>
    s = false /\ canon m e /\ e <= 971 /\ Zpos m <= cap t k e
| _ => False
end.

(** Whether a shifted mantissa has lost a non-zero bit. *)
Definition sticky (x : shr_record) : bool := shr_r x || shr_s x.

(** A number that converts to a float in range. *)
Definition representable (v : pynum) : Prop :=
exists x, to_float v = inr x /\ in_range x.

(** The line that carries the usage bar, and the two warning lines. *)
Definition bar_line (l : str) : Prop :=
  exists bar t : str,
    l = lit "使用情况: [" ++ bar ++ lit "] " ++ t ++ lit "%".

Definition warning_line (l : str) : Prop :=
  l = critical_warning \/ l = attention_warning.

(** A run that divides by no zero and prints neither the bar nor a
    warning. *)
Definition quiet (c : IO unit) : Prop :=
outcome c <> inl ZeroDivisionError
/\ forall l, In l (printed c) -> ~ bar_line l /\ ~ warning_line l.

(** A project matches a selector by its key or by its display name,
    both compared exactly. *)
Definition matches (selector : str) (p : Project) : Prop :=
  Data.project_key p = selector \/ display_name p = selector.

End Spec.

Import Spec.

(** ** The client: construction and the three requests *)

Module Client.

(** What the source reads of a [requests.Response]. *)
Record Response := {
  status_code : Z;
  text : str
}.

(** A [requests.exceptions.RequestException]: its [str()] and its
    [response] attribute, which may be [None]. *)
Record RequestException := {
  message : str;
  response : option Response
}.

(** What a call into the library may raise: one of its own exceptions,
    which [except requests.exceptions.RequestException] catches, or any
    other exception, which that clause lets through. *)
Inductive raised :=
| Request (e : RequestException)
| Foreign (e : exn).

(** [s.rstrip(c)] for a one-character [c]: every trailing [c] is
    removed. *)
Fixpoint rstrip (c : Z) (s : str) : str :=
  match s with
  | [] => []
  | x :: rest =>
      match rstrip c rest with
      | [] => if x =? c then [] else [x]
      | kept => x :: kept
      end
  end.

Definition slash : Z := 47.

(** The two attributes [__init__] sets; [headers] is a dict with two
    keys, kept in insertion order. *)
Record ArtifactoryStorageMonitor := {
  base_url : str;
  headers : list (str * str)
}.

Definition init (base_url token : str) : ArtifactoryStorageMonitor :=
  {| base_url := rstrip slash base_url;
     headers := [(lit "Authorization", lit "Bearer " ++ token);
                 (lit "Content-Type", lit "application/json")] |}.

(** [isinstance(e, Exception)]: [SystemExit] derives from
    [BaseException] only. *)
Definition is_Exception (e : exn) : bool :=
  match e with
  | SystemExit _ => false
  | _ => true
  end.

Section Requests.

(** The library: [requests.get(url, headers=..., timeout=...)],
    [response.raise_for_status()] ([None] when it returns) and
    [response.json()], whose value is of a type [J] the client only
    passes on; [empty_list] is the Python value [[]]. *)
Variable J : Type.
Variable requests_get : str -> list (str * str) -> Z -> raised + Response.
Variable raise_for_status : Response -> option raised.
Variable json : Response -> raised + J.
Variable empty_list : J.

Definition test_url (self : ArtifactoryStorageMonitor) : str :=
  base_url self ++ lit "/artifactory/api/system/version".

Definition test_authentication (self : ArtifactoryStorageMonitor)
  : result bool :=
  match requests_get (test_url self) (headers self) 10 with
  | inr response => ret (status_code response =? 200)
  | inl (Request _) => ret false
  | inl (Foreign e) => if is_Exception e then ret false else raise e
  end.

(** [response.raise_for_status(); return response.json()] inside a
    [try] whose [except] clause is [handler]. *)
Definition checked_json (response : Response)
    (handler : RequestException -> IO J) : IO J :=
  match raise_for_status response with
  | Some (Request e) => handler e
  | Some (Foreign e) => lift (raise e)
  | None =>
      match json response with
      | inr j => io_ret j
      | inl (Request e) => handler e
      | inl (Foreign e) => lift (raise e)
      end
  end.

Definition projects_url (self : ArtifactoryStorageMonitor) : str :=
  base_url self ++ lit "/access/api/v1/projects".

(** The [except] clause of [get_projects]. *)
Definition projects_handler (e : RequestException) : IO J :=
  (print (lit "获取项目列表失败: " ++ message e) ;;
   match response e with
   | Some r =>
       print (lit "HTTP状态码: " ++ int_str (status_code r)) ;;
       print (lit "响应内容: " ++ text r)
   | None => io_ret tt
   end ;;
   lift (raise (SystemExit 1)))%io.

Definition get_projects (self : ArtifactoryStorageMonitor) : IO J :=
  match requests_get (projects_url self) (headers self) 30 with
  | inl (Request e) => projects_handler e
  | inl (Foreign e) => lift (raise e)
  | inr response =>
      if status_code response =? 401 then
        (print (lit "认证失败: 令牌无效或已过期") ;;
         print (lit "请检查您的认证信息并重新运行脚本") ;;
         lift (raise (SystemExit 1)))%io
      else if status_code response =? 403 then
        (print (lit "权限不足: 当前用户没有访问项目的权限") ;;
         lift (raise (SystemExit 1)))%io
      else if status_code response =? 404 then
        (print (lit "API端点不存在: 请检查Artifactory版本是否支持项目功能") ;;
         lift (raise (SystemExit 1)))%io
      else checked_json response projects_handler
  end.

Definition repositories_url (self : ArtifactoryStorageMonitor)
    (project_key : str) : str :=
  base_url self ++ lit "/artifactory/api/repositories?type=local&project="
    ++ project_key.

Definition get_repositories (self : ArtifactoryStorageMonitor)
    (project_key : str) : IO J :=
  let handler e :=
    (print (lit "获取项目 " ++ project_key ++ lit " 的仓库列表失败: "
            ++ message e) ;;
     io_ret empty_list)%io in
  match requests_get (repositories_url self project_key) (headers self) 30
  with
  | inl (Request e) => handler e
  | inl (Foreign e) => lift (raise e)
  | inr response => checked_json response handler
  end.

Definition storage_info_url (self : ArtifactoryStorageMonitor) : str :=
  base_url self ++ lit "/artifactory/api/storageinfo".

Definition get_storage_info (self : ArtifactoryStorageMonitor) : IO J :=
  let handler e :=
    (print (lit "获取存储信息失败: " ++ message e) ;;
     lift (raise (SystemExit 1)))%io in
  match requests_get (storage_info_url self) (headers self) 30 with
  | inl (Request e) => handler e
  | inl (Foreign e) => lift (raise e)
  | inr response => checked_json response handler
  end.

(** What the library raised during the request of [url], if anything:
    in [requests.get], in [raise_for_status] or in [json]. *)
Definition library_raised (url : str) (self : ArtifactoryStorageMonitor)
    (x : raised) : Prop :=
  requests_get url (headers self) 30 = inl x
  \/ exists r,
       requests_get url (headers self) 30 = inr r
       /\ (raise_for_status r = Some x
           \/ (raise_for_status r = None /\ json r = inl x)).

(** The three calls of the request of [url] returned, the last one
    [j]. *)
Definition library_returned (url : str) (self : ArtifactoryStorageMonitor)
    (j : J) : Prop :=
  exists r,
    requests_get url (headers self) 30 = inr r
    /\ raise_for_status r = None /\ json r = inr j.

End Requests.

End Client.

(** ** The program: [main] after the command line is parsed *)

Module Program.

(** What a run writes to standard output, and how it ends. *)
Definition Out (A : Type) : Type := (str * result A)%type.

Definition out_ret {A} (a : A) : Out A := ([], inr a).
Definition out_bind {A B} (c : Out A) (k : A -> Out B) : Out B :=
  match c with
  | (text, inl e) => (text, inl e)
  | (text, inr a) => let '(text', r) := k a in (text ++ text', r)
  end.
Definition out_lift {A} (c : result A) : Out A := ([], c).

(** [print(s, end=e)] *)
Definition say (s e : str) : Out unit := (s ++ e, inr tt).

(** The text of printed lines: [print(s)] ends its line. *)
Definition lines_text (lines : list str) : str :=
  List.concat (map (fun l => l ++ [nl]) lines).

(** A computation whose prints all end their line. *)
Definition of_io {A} (c : IO A) : Out A := (lines_text (printed c), outcome c).

Definition written {A} (c : Out A) : str := fst c.
Definition ending {A} (c : Out A) : result A := snd c.

End Program.

Import Program.

Declare Scope out_scope.
Delimit Scope out_scope with out.

Notation "x <- c ;; k" := (Program.out_bind c (fun x => k))
  (at level 61, c at next level, right associativity) : out_scope.
Notation "c ;; k" := (Program.out_bind c (fun _ => k))
  (at level 61, right associativity) : out_scope.

Module Entry.

Import Client.

(** The attributes of [args] that [main] reads. *)
Record Args := {
  url : str;
  token : str;
  project_name : option str;
  details : bool
}.

Section Main.

(** The library, with one [json] per endpoint: the projects are a list
    of project dicts, the storage information a dict. *)
Variable requests_get : str -> list (str * str) -> Z -> raised + Response.
Variable raise_for_status : Response -> option raised.
Variable json_projects : Response -> raised + list Project.
Variable json_storage : Response -> raised + StorageInfo.
Variable repr_list : list str -> str.

Definition main (args : Args) : Out unit :=
  (let monitor := init (url args) (token args) in
   say (lit "连接至: " ++ url args) [nl] ;;
   say (lit "测试认证连接...") (lit " ") ;;
   authenticated <- out_lift (test_authentication requests_get monitor) ;;
   (if negb authenticated then
      say (lit "失败!") [nl] ;;
      say (lit "认证失败: 无法连接到Artifactory或认证信息无效") [nl] ;;
      say (lit "请检查:") [nl] ;;
      say (lit "  1. Artifactory地址是否正确") [nl] ;;
      say (lit "  2. Token是否有效") [nl] ;;
      say (lit "  3. 网络连接是否正常") [nl] ;;
      out_lift (raise (SystemExit 1))
    else out_ret tt) ;;
   say (lit "成功!") [nl] ;;
   say (lit "获取项目信息...") (lit " ") ;;
   projects <- of_io (get_projects (list Project) requests_get
                        raise_for_status json_projects monitor) ;;
   say (lit "找到 " ++ int_str (Z.of_nat (List.length projects))
        ++ lit " 个项目") [nl] ;;
   say (lit "获取存储信息...") (lit " ") ;;
   storage_info <- of_io (get_storage_info StorageInfo requests_get
                            raise_for_status json_storage monitor) ;;
   say (lit "完成") [nl] ;;
   say (nl :: lit "Artifactory 项目存储使用率监控 - " ++ url args) [nl] ;;
   say separator_line [nl] ;;
   of_io (main_report repr_list (project_name args) (details args)
            projects storage_info))%out.

End Main.

End Entry.

(** ** Further vocabulary of the properties *)

Module Facts.

(** A positive canonical float of value at least [t * 2 ^ k], or the
    positive infinity. *)
Definition at_least (t k : Z) (x : float) : Prop :=
match x with
| S754_finite s m e =>
    s = false /\ canon m e /\ e <= 971 /\ t <= Z.shiftl (Zpos m) (e - k)
| S754_infinity s => s = false
| _ => False
end.

(** The six units of [format_size], and the one a size of [b] bytes is
    shown in: one step per factor of 1024, up to [PB]. *)
Definition unit_names : list str := units ++ [lit "PB"].

Definition unit_index (b : Z) : Z := Z.min 5 (Z.log2 b / 10).

(** The size text in integer arithmetic: [b / 1024 ^ k] rounded to two
    decimals, ties to even, and the unit. *)
Definition size_text (b : Z) : str :=
  let k := unit_index b in
  fixed_digits 2 (round_half_even (100 * b) (2 ^ (10 * k)))
  ++ lit " " ++ nth (Z.to_nat k) unit_names [].

(** The loop of [format_size] on a float of mantissa [m] and exponent
    [e], where a division by 1024.0 lowers the exponent by 10. *)
Fixpoint normal_size_text (us : list str) (m : positive) (e : Z) : str :=
  match us with
  | [] => float_format_f 2 (S754_finite false m e) ++ lit " PB"
  | unit :: rest =>
      if e <? -42
      then float_format_f 2 (S754_finite false m e) ++ lit " " ++ unit
      else normal_size_text rest m (e - 10)
  end.

(** A text padded on its right with spaces up to a display width: what
    [pad_string] returns for the default alignment. *)
Definition padded (text : str) (width : Z) : str :=
  text ++ repeat 32 (Z.to_nat (width - get_display_width text)).

(** The cells of the usage bar for a filled count. *)
Definition bar_cells (filled_length : Z) : str :=
  repeat 9608 (Z.to_nat filled_length)
  ++ repeat 9617 (Z.to_nat (bar_length - filled_length)).

(** A record the table can show: it has a [repoKey], and its size is
    within the range the percentage is computed for. *)
Definition showable (repo : Repo) : Prop :=
  repoKey repo <> None /\ 0 <= get (usedSpaceInBytes repo) 0 < 2 ^ 1000.

(** The first line of the repository table. *)
Definition table_title : str := nl :: lit "仓库详情:".

(** The five summary lines [main] prints after the project blocks, and
    the sum of the positive quotas. *)
Definition summary_lines (projects : list Project) : list str :=
  let limited := filter (fun p => storage_quota_bytes p >? 0) projects in
  let unlimited := filter (fun p => storage_quota_bytes p <=? 0) projects in
  [nl :: separator_line;
   lit "汇总信息:";
   lit "总项目数: " ++ int_str (Z.of_nat (List.length projects));
   lit "有限制项目: " ++ int_str (Z.of_nat (List.length limited)) ++ lit "个";
   lit "无限制项目: " ++ int_str (Z.of_nat (List.length unlimited))
     ++ lit "个"].

Definition total_quota (projects : list Project) : Z :=
  py_sum (map storage_quota_bytes
            (filter (fun p => storage_quota_bytes p >? 0) projects)).

End Facts.

Import Facts.

(** A line is not the title of the table when its first or its second
    character differs. *)
Ltac not_title H :=
  first
    [ apply (f_equal (hd 0)) in H; vm_compute in H; discriminate H
    | apply (f_equal (fun l => nth 1 l 0)) in H; vm_compute in H;
      discriminate H ].

Ltac no_title_in H :=
  cbn [In app] in H;
  repeat match type of H with
         | _ \/ _ => let H1 := fresh "H" in destruct H as [H1|H];
                     [not_title H1|]
         end;
  try (exact H); try (not_title H).

(** * Properties *)

(** ** Strings *)

Section StrFacts.

Lemma str_eqb_eq (a b : str) : PyStr.eqb a b = true <-> a = b.
Proof.
  revert b; induction a as [|x a IH]; intros [|y b]; simpl;
    try (split; congruence).
  rewrite andb_true_iff, Z.eqb_eq, IH. split.
  - intros [-> ->]; reflexivity.
  - intros E; injection E; auto.
Qed.

Lemma str_eqb_refl (a : str) : PyStr.eqb a a = true.
Proof. apply str_eqb_eq; reflexivity. Qed.

Lemma str_eqb_neq (a b : str) : PyStr.eqb a b = false <-> a <> b.
Proof.
  rewrite <- str_eqb_eq. destruct (PyStr.eqb a b); split; congruence.
Qed.

Lemma repeated_one_char (c : Z) (n : Z) :
  repeated [c] n = repeat c (Z.to_nat n).
Proof.
  unfold repeated. induction (Z.to_nat n) as [|k IH]; simpl.
  - reflexivity.
  - now rewrite IH.
Qed.

Lemma maxsize_eq : maxsize = 9223372036854775807.
Proof. reflexivity. Qed.

(** Within the index range [times] builds the copies of a character. *)
Lemma times_one_char (c : Z) (n : Z) :
  - maxsize - 1 <= n <= maxsize ->
  times [c] n = inr (repeat c (Z.to_nat n)).
Proof.
  intros Hn. unfold times.
  replace ((n <? - maxsize - 1) || (maxsize <? n)) with false
    by (symmetry; apply orb_false_iff; split; apply Z.ltb_ge; lia).
  destruct (Z.ltb_spec n 1) as [H1|H1].
  - replace (Z.to_nat n) with 0%nat by lia. reflexivity.
  - cbn [List.length]. change (Z.of_nat 1) with 1.
    assert (1 <= maxsize / n).
    { apply Z.div_le_lower_bound; lia. }
    replace (maxsize / n <? 1) with false
      by (symmetry; apply Z.ltb_ge; lia).
    unfold ret. now rewrite repeated_one_char.
Qed.

(** Beyond the index range it raises. *)
Lemma times_overflow (s : str) (n : Z) :
  maxsize < n -> times s n = inl OverflowError.
Proof.
  intros Hn. unfold times.
  replace (maxsize <? n) with true by (symmetry; apply Z.ltb_lt; exact Hn).
  now rewrite orb_true_r.
Qed.

(** The two rules of the report: the count 70 is an index. *)
Lemma rules_built :
  times (lit "=") separator_length = inr separator_line
  /\ times (lit "-") separator_length = inr dash_line.
Proof. split; vm_compute; reflexivity. Qed.

Lemma get_eqb_spec (field : option str) (s : str) :
  get_eqb field s = true <-> field = Some s.
Proof.
  destruct field as [v|]; simpl.
  - rewrite str_eqb_eq. split; congruence.
  - split; discriminate.
Qed.

End StrFacts.

(** ** Display width and padding *)

Section WidthFacts.

Lemma fold_width_shift (text : str) (acc : Z) :
  fold_left width_step text acc = acc + get_display_width text.
Proof.
  unfold get_display_width. revert acc.
  induction text as [|c text IH]; intros acc; simpl.
  - lia.
  - rewrite IH, (IH (width_step 0 c)).
    unfold width_step; destruct (is_cjk c); lia.
Qed.

Lemma width_cons (c : Z) (text : str) :
  get_display_width (c :: text) = char_width c + get_display_width text.
Proof.
  unfold get_display_width at 1; simpl. rewrite fold_width_shift.
  unfold width_step, char_width, is_cjk.
  destruct ((19968 <=? c) && (c <=? 40959)); lia.
Qed.

Lemma width_app (a b : str) :
  get_display_width (a ++ b) = get_display_width a + get_display_width b.
Proof.
  induction a as [|c a IH]; simpl.
  - reflexivity.
  - rewrite !width_cons, IH; lia.
Qed.

Lemma width_spaces (n : nat) :
  get_display_width (repeat 32 n) = Z.of_nat n.
Proof.
  induction n as [|k IH].
  - reflexivity.
  - cbn [repeat]. rewrite width_cons, IH.
    change (char_width 32) with 1. lia.
Qed.

Lemma width_nonneg (text : str) : 0 <= get_display_width text.
Proof.
  induction text as [|c text IH].
  - reflexivity.
  - rewrite width_cons. unfold char_width.
    destruct ((19968 <=? c) && (c <=? 40959)); lia.
Qed.

Lemma width_is_sum (text : str) :
  get_display_width text = sum_Z (map char_width text).
Proof.
  induction text as [|c text IH].
  - reflexivity.
  - rewrite width_cons, IH. reflexivity.
Qed.

End WidthFacts.

(** C6. The display width of a string is the sum, over its characters,
    of 2 for a character whose code point lies in U+4E00..U+9FFF and of 1
    for any other character.  Hence a string made only of such CJK
    characters is twice as wide as it is long, and a pure-ASCII string
    (every code point below 128) is as wide as it is long. *)
Theorem display_width_rule (text : str) :
  get_display_width text
  = sum_Z (map (fun c => if (0x4e00 <=? c) && (c <=? 0x9fff) then 2 else 1)
               text)
  /\ (Forall (fun c => 0x4e00 <= c <= 0x9fff) text ->
      get_display_width text = 2 * Z.of_nat (List.length text))
  /\ (Forall (fun c => 0 <= c < 128) text ->
      get_display_width text = Z.of_nat (List.length text)).
Proof.
  split; [exact (width_is_sum text)|].
  split; intros H; induction H as [|c l Hc _ IH].
  - reflexivity.
  - rewrite width_cons, IH. unfold char_width.
    replace ((19968 <=? c) && (c <=? 40959)) with true.
    + cbn [List.length]. lia.
    + symmetry. apply andb_true_iff. split; apply Z.leb_le; lia.
  - reflexivity.
  - rewrite width_cons, IH. unfold char_width.
    replace ((19968 <=? c) && (c <=? 40959)) with false.
    + cbn [List.length]. lia.
    + symmetry. apply andb_false_iff. left. apply Z.leb_gt. lia.
Qed.

Lemma display_width_rule_witness :
  get_display_width (lit "仓库") = 2 * Z.of_nat (List.length (lit "仓库"))
  /\ get_display_width (lit "repo") = Z.of_nat (List.length (lit "repo")).
Proof.
  split.
  - apply (display_width_rule (lit "仓库")).
    vm_compute. repeat constructor; discriminate.
  - apply (display_width_rule (lit "repo")).
    vm_compute. repeat constructor; discriminate.
Defined.

(** The three alignments of [pad_string] while the padding fits an
    index. *)
Lemma pad_string_cases (text : str) (width : Z) (align : str) :
  let w := get_display_width text in
  let padding := width - w in
  padding <= maxsize ->
  pad_string text width align
  = inr (if w >=? width then text
         else if PyStr.eqb align (lit "<")
              then text ++ repeat 32 (Z.to_nat padding)
         else if PyStr.eqb align (lit ">")
              then repeat 32 (Z.to_nat padding) ++ text
         else repeat 32 (Z.to_nat (padding / 2)) ++ text
              ++ repeat 32 (Z.to_nat (padding - padding / 2))).
Proof.
  intros w padding Hp. unfold pad_string. fold w. fold padding.
  destruct (w >=? width) eqn:E; [reflexivity|].
  rewrite Z.geb_leb in E. apply Z.leb_gt in E.
  assert (H2 : 0 <= padding / 2 <= padding).
  { split; [apply Z.div_pos; lia|].
    apply Z.div_le_upper_bound; lia. }
  pose proof maxsize_eq as M.
  change (lit " ") with [32].
  destruct (PyStr.eqb align (lit "<")); [|destruct (PyStr.eqb align (lit ">"))];
    rewrite ?times_one_char by lia; reflexivity.
Qed.

(** The default alignment with a target that is an index. *)
Lemma pad_string_left (text : str) (width : Z) :
  width <= maxsize -> pad_string text width (lit "<") = inr (padded text width).
Proof.
  intros Hw. pose proof (width_nonneg text) as H0.
  rewrite pad_string_cases by lia. rewrite str_eqb_refl. unfold padded.
  destruct (get_display_width text >=? width) eqn:E; [|reflexivity].
  rewrite Z.geb_leb in E. apply Z.leb_le in E.
  replace (Z.to_nat (width - get_display_width text)) with 0%nat by lia.
  now rewrite app_nil_r.
Qed.

Lemma width_padded (text : str) (width : Z) :
  get_display_width (padded text width)
  = Z.max width (get_display_width text).
Proof.
  unfold padded. rewrite width_app, width_spaces. lia.
Qed.

(** C7, as the code has it.  [pad_string] never truncates: a text whose
    display width already reaches the target is returned unchanged.
    Otherwise [width - get_display_width text] spaces are added, as long
    as that many fit an index ([sys.maxsize]): after the text for ['<'],
    before it for ['>'], and for any other alignment (['^'])
    [padding // 2] before and the remainder after.  The display width of
    the result is the larger of the target and the width of the text. *)
Theorem pad_string_spec (text : str) (width : Z) (align : str) :
  let w := get_display_width text in
  let padding := width - w in
  padding <= maxsize ->
  (width <= w -> pad_string text width align = inr text)
  /\ (w < width -> align = lit "<" ->
      pad_string text width align
      = inr (text ++ repeat 32 (Z.to_nat padding)))
  /\ (w < width -> align = lit ">" ->
      pad_string text width align
      = inr (repeat 32 (Z.to_nat padding) ++ text))
  /\ (w < width -> align <> lit "<" -> align <> lit ">" ->
      pad_string text width align
      = inr (repeat 32 (Z.to_nat (padding / 2)) ++ text
             ++ repeat 32 (Z.to_nat (padding - padding / 2))))
  /\ (exists padded,
         pad_string text width (lit "<") = inr padded
         /\ get_display_width padded = Z.max width w)
  /\ (exists padded,
         pad_string text width align = inr padded
         /\ get_display_width padded = Z.max width w).
Proof.
  intros w padding Hp.
  assert (Hge : width <= w -> (w >=? width) = true).
  { intros H. rewrite Z.geb_leb. apply Z.leb_le. exact H. }
  assert (Hlt : w < width -> (w >=? width) = false).
  { intros H. rewrite Z.geb_leb. apply Z.leb_gt. exact H. }
  assert (Hw : forall a, exists padded,
               pad_string text width a = inr padded
               /\ get_display_width padded = Z.max width w).
  { intros a. rewrite (pad_string_cases text width a Hp).
    fold w. fold padding. eexists. split; [reflexivity|].
    destruct (Z_lt_le_dec w width) as [H|H].
    - rewrite (Hlt H).
      assert (0 <= padding / 2 <= padding).
      { split; [apply Z.div_pos; lia|].
        apply Z.div_le_upper_bound; lia. }
      fold w.
      destruct (PyStr.eqb a (lit "<")); [|destruct (PyStr.eqb a (lit ">"))];
        rewrite ?width_app, ?width_spaces; fold w; lia.
    - rewrite (Hge H). fold w. lia. }
  split; [|split; [|split; [|split; [|split; [apply Hw|apply Hw]]]]];
    rewrite (pad_string_cases text width align Hp); fold w; fold padding.
  - intros H. now rewrite (Hge H).
  - intros H ->. now rewrite (Hlt H), str_eqb_refl.
  - intros H ->. rewrite (Hlt H).
    change (PyStr.eqb (lit ">") (lit "<")) with false.
    now rewrite str_eqb_refl.
  - intros H Hl Hr. rewrite (Hlt H).
    apply str_eqb_neq in Hl, Hr. now rewrite Hl, Hr.
Qed.

Lemma pad_string_spec_witness :
  pad_string (lit "类型") 12 (lit "<") = inr (lit "类型" ++ repeat 32 8%nat)
  /\ pad_string (lit "repository-key") 12 (lit "^")
     = inr (lit "repository-key").
Proof.
  split.
  - apply (proj1 (proj2 (pad_string_spec (lit "类型") 12 (lit "<")
                           ltac:(vm_compute; discriminate)))).
    + vm_compute. reflexivity.
    + reflexivity.
  - apply (proj1 (pad_string_spec (lit "repository-key") 12 (lit "^")
                    ltac:(vm_compute; discriminate))).
    vm_compute. discriminate.
Defined.

(** A target width of [2 ^ 64] is not reached: the spaces to add do not
    fit an index, and [pad_string] raises instead of returning. *)
Lemma pad_string_overflows :
  pad_string (lit "ab") (2 ^ 64) (lit "<") = inl OverflowError
  /\ ~ (exists padded : str,
          pad_string (lit "ab") (2 ^ 64) (lit "<") = inr padded).
Proof.
  assert (E : pad_string (lit "ab") (2 ^ 64) (lit "<") = inl OverflowError)
    by (vm_compute; reflexivity).
  split; [exact E|]. intros [t H]. rewrite E in H. discriminate.
Qed.

(** ** The usage aggregator *)

Section AggregatorFacts.

Lemma in_project_spec (project_key : str) (repo : Repo) :
  in_project project_key repo = true
  <-> projectKey repo = Some project_key /\ repoKey repo <> Some TOTAL.
Proof.
  unfold in_project. rewrite andb_true_iff, negb_true_iff.
  rewrite get_eqb_spec. rewrite <- (get_eqb_spec (repoKey repo) TOTAL).
  destruct (get_eqb (repoKey repo) TOTAL); intuition congruence.
Qed.

Lemma fold_add_shift (l : list Z) (acc : Z) :
  fold_left Z.add l acc = acc + py_sum l.
Proof.
  unfold py_sum. revert acc. induction l as [|x l IH]; intros acc; simpl.
  - lia.
  - rewrite IH, (IH x). lia.
Qed.

Lemma py_sum_cons (x : Z) (l : list Z) : py_sum (x :: l) = x + py_sum l.
Proof. unfold py_sum at 1. simpl. apply fold_add_shift. Qed.

End AggregatorFacts.

(** C1. [calculate_project_usage] keeps a record of the storage summary
    if and only if its [projectKey] is the project key and its [repoKey]
    is not ["TOTAL"]: the kept records are the matching ones, in their
    order.  A record whose [repoKey] is ["TOTAL"] is never kept, whatever
    its [projectKey]. *)
Theorem usage_filters_by_project_and_sentinel
    (project_key : str) (storage_info : StorageInfo) :
  let records := get (repositoriesSummaryList storage_info) [] in
  let kept := repositories (calculate_project_usage project_key storage_info) in
  (forall repo,
      In repo kept
      <-> In repo records
          /\ projectKey repo = Some project_key
          /\ repoKey repo <> Some (lit "TOTAL"))
  /\ (forall repo, repoKey repo = Some (lit "TOTAL") -> ~ In repo kept)
  /\ kept
     = filter (fun repo => in_project project_key repo) records.
Proof.
  cbv zeta. unfold calculate_project_usage; cbn [repositories].
  split; [|split].
  - intros repo. rewrite filter_In, in_project_spec. reflexivity.
  - intros repo HT Hin. apply filter_In in Hin. destruct Hin as [_ Hin].
    apply in_project_spec in Hin. destruct Hin as [_ Hin]. now apply Hin.
  - reflexivity.
Qed.

Lemma usage_filters_witness :
  ~ In {| projectKey := Some (lit "proj1"); repoKey := Some (lit "TOTAL");
          repoType := None; usedSpaceInBytes := Some 900 |}
       (repositories
          (calculate_project_usage (lit "proj1")
             {| repositoriesSummaryList :=
                  Some [ {| projectKey := Some (lit "proj1");
                            repoKey := Some (lit "r1");
                            repoType := None;
                            usedSpaceInBytes := Some 900 |};
                         {| projectKey := Some (lit "proj1");
                            repoKey := Some (lit "TOTAL");
                            repoType := None;
                            usedSpaceInBytes := Some 900 |} ] |})).
Proof.
  apply (usage_filters_by_project_and_sentinel (lit "proj1")).
  reflexivity.
Defined.

(** C9. [calculate_project_usage] cannot fail: it is a total function.
    Whenever no record matches the project (in particular when the
    record list is empty or absent) the summary has no repository, 0
    used bytes and a count of 0; and in every summary the total is the
    sum of the used space of the kept records, a record without a
    used-space value counting for 0. *)
Theorem usage_of_no_match_is_zero
    (project_key : str) (storage_info : StorageInfo) :
  let records := get (repositoriesSummaryList storage_info) [] in
  let usage := calculate_project_usage project_key storage_info in
  ((forall repo, In repo records -> in_project project_key repo = false) ->
   usage = {| repositories := []; total_used_bytes := 0; repo_count := 0 |})
  /\ (records = [] ->
      usage = {| repositories := []; total_used_bytes := 0; repo_count := 0 |})
  /\ total_used_bytes usage
     = sum_Z (map (fun repo => match usedSpaceInBytes repo with
                               | Some used => used
                               | None => 0
                               end)
                  (repositories usage))
  /\ repo_count usage = Z.of_nat (List.length (repositories usage)).
Proof.
  cbv zeta.
  assert (Hnone : forall l,
             (forall repo, In repo l -> in_project project_key repo = false) ->
             filter (in_project project_key) l = []).
  { induction l as [|r l IH]; intros H; simpl.
    - reflexivity.
    - rewrite (H r (or_introl eq_refl)). apply IH.
      intros repo Hr. apply H. now right. }
  split; [|split; [|split]].
  - intros H. unfold calculate_project_usage. now rewrite (Hnone _ H).
  - intros H. unfold calculate_project_usage. now rewrite H.
  - unfold calculate_project_usage; cbn [total_used_bytes repositories].
    induction (filter (in_project project_key)
                 (get (repositoriesSummaryList storage_info) []))
      as [|r l IH].
    + reflexivity.
    + cbn [map]. rewrite py_sum_cons, IH. unfold get at 1.
      reflexivity.
  - reflexivity.
Qed.

Lemma usage_of_no_match_witness :
  calculate_project_usage (lit "p2") {| repositoriesSummaryList := Some [] |}
  = {| repositories := []; total_used_bytes := 0; repo_count := 0 |}
  /\ calculate_project_usage (lit "p2") {| repositoriesSummaryList := None |}
     = {| repositories := []; total_used_bytes := 0; repo_count := 0 |}.
Proof.
  split.
  - apply (usage_of_no_match_is_zero (lit "p2")
             {| repositoriesSummaryList := Some [] |}).
    reflexivity.
  - apply (usage_of_no_match_is_zero (lit "p2")
             {| repositoriesSummaryList := None |}).
    reflexivity.
Defined.


(** ** Threshold classification *)

Section CompareFacts.

(** Python's comparison of a number with an int is the comparison of the
    exact values. *)
Lemma compare_exact (p : pynum) (n num den : Z) :
  exact_value p = Some (num, den) ->
  0 < den /\ PyNum.compare p (PyInt n) = Some (num ?= n * den).
Proof.
  destruct p as [z|[s|s| |s m e]];
    cbn [exact_value PyNum.compare Z_float_compare option_map];
    try discriminate.
  - intros E; injection E as <- <-. split; [lia|]. now rewrite Z.mul_1_r.
  - intros E; injection E as <- <-. split; [lia|].
    rewrite Z.mul_1_r. now rewrite (Z.compare_antisym n 0).
  - destruct (0 <=? e) eqn:He; intros E; injection E as <- <-.
    + split; [lia|]. rewrite Z.mul_1_r.
      now rewrite (Z.compare_antisym n).
    + apply Z.leb_gt in He. split.
      * apply Z.pow_pos_nonneg; lia.
      * now rewrite (Z.compare_antisym (n * 2 ^ (- e))).
Qed.

Lemma gt_exact (p : pynum) (n num den : Z) :
  exact_value p = Some (num, den) ->
  (PyNum.gt p (PyInt n) = true <-> n * den < num).
Proof.
  intros E. destruct (compare_exact p n num den E) as [_ C].
  unfold PyNum.gt. rewrite C.
  destruct (Z.compare_spec num (n * den)); split; try discriminate; lia.
Qed.

Lemma le_exact (p : pynum) (n num den : Z) :
  exact_value p = Some (num, den) ->
  (PyNum.le p (PyInt n) = true <-> num <= n * den).
Proof.
  intros E. destruct (compare_exact p n num den E) as [_ C].
  unfold PyNum.le. rewrite C.
  destruct (Z.compare_spec num (n * den)); split; try discriminate; lia.
Qed.

Lemma le_gt_false (p : pynum) (n : Z) :
  PyNum.le p (PyInt n) = true -> PyNum.gt p (PyInt n) = false.
Proof.
  unfold PyNum.le, PyNum.gt.
  destruct (PyNum.compare p (PyInt n)) as [[| |]|]; congruence.
Qed.

(** A number that is at most [a] is not above a larger bound [b]. *)
Lemma le_then_not_gt (p : pynum) (a b : Z) :
  a <= b -> PyNum.le p (PyInt a) = true -> PyNum.gt p (PyInt b) = false.
Proof.
  intros Hab Hle.
  destruct (exact_value p) as [[num den]|] eqn:E.
  - destruct (compare_exact p a num den E) as [Hden Ca].
    destruct (compare_exact p b num den E) as [_ Cb].
    apply (le_exact p a num den E) in Hle.
    unfold PyNum.gt. rewrite Cb.
    destruct (Z.compare_spec num (b * den)); try reflexivity. nia.
  - destruct p as [z|[s|s| |s m e]]; try discriminate.
    revert Hle. unfold PyNum.le, PyNum.gt. simpl. now destruct s.
Qed.

End CompareFacts.

(** C3. The thresholds are compared strictly.  A percentage above 90 is
    in the danger tier: red name and the critical warning line.  A
    percentage above 80 and at most 90 is in the warning tier: yellow
    name and the attention line.  A percentage of at most 80 is in the
    normal tier: green name and no warning line.  The colour selector and
    the warning printer thus always agree on the tier.  The comparisons
    are those of the exact values; 80.0 is normal, 80.0001 warning, 90.0
    warning and 90.0001 danger. *)
Theorem threshold_tiers :
  (forall (p : pynum) (t : Tier),
      in_tier p t ->
      get_project_name_color p = tier_color t
      /\ print_warning p = (tier_warning_lines t, inr tt))
  /\ (forall (p : pynum) (num den : Z),
         exact_value p = Some (num, den) ->
         (in_tier p Danger <-> 90 * den < num)
         /\ (in_tier p Warning <-> 80 * den < num <= 90 * den)
         /\ (in_tier p Normal <-> num <= 80 * den))
  /\ in_tier (PyFloat f80) Normal
  /\ in_tier (PyFloat f80_0001) Warning
  /\ in_tier (PyFloat f90) Warning
  /\ in_tier (PyFloat f90_0001) Danger.
Proof.
  split; [|split].
  - intros p t H. unfold get_project_name_color, print_warning.
    destruct H as [H90|H80 H90|H80].
    + rewrite H90. split; reflexivity.
    + rewrite (le_gt_false _ _ H90), H80. split; reflexivity.
    + rewrite (le_then_not_gt p 80 90 ltac:(lia) H80).
      rewrite (le_gt_false _ _ H80). split; reflexivity.
  - intros p num den E.
    pose proof (gt_exact p 90 num den E) as G90.
    pose proof (gt_exact p 80 num den E) as G80.
    pose proof (le_exact p 90 num den E) as L90.
    pose proof (le_exact p 80 num den E) as L80.
    split; [|split]; split.
    + intros H; inversion H; now apply G90.
    + intros H; constructor; now apply G90.
    + intros H; inversion H; split; [now apply G80|now apply L90].
    + intros [H1 H2]; constructor; [now apply G80|now apply L90].
    + intros H; inversion H; now apply L80.
    + intros H; constructor; now apply L80.
  - repeat split; constructor; vm_compute; reflexivity.
Qed.

Lemma threshold_tiers_witness :
  get_project_name_color (PyFloat f90) = yellow
  /\ print_warning (PyFloat f90) = ([attention_warning], inr tt).
Proof.
  apply (proj1 threshold_tiers (PyFloat f90) Warning).
  apply tier_warning; vm_compute; reflexivity.
Defined.

(** ** Project selection *)

Section SelectionFacts.

Lemma match_test (name : str) (p : Project) :
  PyStr.eqb (Data.project_key p) name || PyStr.eqb (display_name p) name = true
  <-> matches name p.
Proof.
  unfold matches. rewrite orb_true_iff, !str_eqb_eq. reflexivity.
Qed.

(** The loop stops at the first project that matches. *)
Lemma find_target_first (name : str) (projects : list Project) :
  match find_target name projects with
  | Some p =>
      exists before after,
        projects = before ++ p :: after
        /\ matches name p
        /\ Forall (fun q => ~ matches name q) before
  | None => Forall (fun q => ~ matches name q) projects
  end.
Proof.
  induction projects as [|q rest IH]; simpl.
  - constructor.
  - destruct (PyStr.eqb (Data.project_key q) name
              || PyStr.eqb (display_name q) name) eqn:E.
    + exists [], rest. repeat split.
      * now apply match_test.
      * constructor.
    + assert (Hq : ~ matches name q).
      { intros H. apply match_test in H. congruence. }
      destruct (find_target name rest) as [p|].
      * destruct IH as (before & after & -> & Hp & Hb).
        exists (q :: before), after. repeat split; auto.
      * now constructor.
Qed.

End SelectionFacts.

(** C8, as the code has it.  A supplied selector that is not the empty
    string is compared exactly (code point by code point, hence
    case-sensitively) with the key and with the display name of each
    project, in list order, and the first project that matches is the
    one rendered.  When no project matches, the report is the not-found
    error: one line with the requested name, one line with the list of
    all known project keys, and exit status 1.  The empty string counts
    as no selector: the report is the one of all projects. *)
Theorem selector_resolution
    (repr_list : list str -> str) (name : str) (details : bool)
    (projects : list Project) (storage_info : StorageInfo) :
  name <> [] ->
  let report :=
    main_report repr_list (Some name) details projects storage_info in
  ((exists before p after,
       projects = before ++ p :: after
       /\ matches name p
       /\ Forall (fun q => ~ matches name q) before
       /\ report = print_project_usage p storage_info true)
   \/ (Forall (fun q => ~ matches name q) projects
       /\ report
          = ([lit "错误: 未找到项目 '" ++ name ++ lit "'";
              lit "可用项目: " ++ repr_list (map Data.project_key projects)],
             inl (SystemExit 1))))
  /\ main_report repr_list (Some []) details projects storage_info
     = report_all details projects storage_info
  /\ find_target (lit "Proj1")
       [ {| project_key := lit "proj1"; display_name := lit "Project One";
            storage_quota_bytes := 1000 |} ]
     = None.
Proof.
  intros Hne report.
  assert (E : report
              = report_selected repr_list name projects storage_info).
  { subst report. unfold main_report, truthy.
    destruct name as [|c name]; [congruence|reflexivity]. }
  split; [|split; reflexivity].
  rewrite E. unfold report_selected.
  pose proof (find_target_first name projects) as H.
  destruct (find_target name projects) as [p|].
  - left. destruct H as (before & after & Ep & Hp & Hb).
    exists before, p, after. auto.
  - right. split; [exact H|reflexivity].
Qed.

Lemma selector_resolution_witness :
  let projects :=
    [ {| project_key := lit "proj1"; display_name := lit "Project One";
         storage_quota_bytes := 1000 |} ] in
  let storage_info := {| repositoriesSummaryList := None |} in
  let report :=
    main_report (fun _ => []) (Some (lit "Proj1")) false projects
      storage_info in
  (exists before p after,
      projects = before ++ p :: after
      /\ matches (lit "Proj1") p
      /\ Forall (fun q => ~ matches (lit "Proj1") q) before
      /\ report = print_project_usage p storage_info true)
  \/ (Forall (fun q => ~ matches (lit "Proj1") q) projects
      /\ report
         = ([lit "错误: 未找到项目 '" ++ lit "Proj1" ++ lit "'";
             lit "可用项目: " ++ [] ],
            inl (SystemExit 1))).
Proof.
  intros projects storage_info report.
  apply (proj1 (selector_resolution (fun _ => []) (lit "Proj1") false
                  projects storage_info
                  ltac:(vm_compute; discriminate))).
Defined.

(** An empty selector is supplied, no project has the empty string as
    its key or name, and yet nothing is reported as not found: the
    report is the list of all projects and it returns normally. *)
Lemma empty_selector_lists_all :
  let projects :=
    [ {| project_key := lit "proj1"; display_name := lit "Project One";
         storage_quota_bytes := 0 |} ] in
  let storage_info := {| repositoriesSummaryList := None |} in
  let report :=
    main_report (fun _ => []) (Some []) false projects storage_info in
  Forall (fun q => ~ matches [] q) projects
  /\ report = report_all false projects storage_info
  /\ outcome report = inr tt
  /\ ~ In (lit "错误: 未找到项目 ''") (printed report).
Proof.
  intros projects storage_info report.
  split; [|split; [reflexivity|split; [vm_compute; reflexivity|]]].
  - constructor; [|constructor].
    intros [H|H]; vm_compute in H; discriminate H.
  - intros Hin. vm_compute in Hin.
    repeat (destruct Hin as [Hin|Hin]; [discriminate Hin|]).
    exact Hin.
Qed.

(** ** Floats: rounding never leaves the range unnoticed *)

Section FloatFacts.

Lemma fexp_eq (k : Z) : fexp prec emax k = Z.max (k - 53) (-1074).
Proof. reflexivity. Qed.

Lemma digits2_size (p : positive) : digits2_pos p = Pos.size p.
Proof. induction p; simpl; congruence. Qed.

Lemma Zdigits2_log2 (p : positive) :
  Zdigits2 (Zpos p) = Z.log2 (Zpos p) + 1.
Proof.
  unfold Zdigits2. rewrite digits2_size.
  destruct p; simpl; rewrite ?Pos2Z.inj_succ; lia.
Qed.

Lemma Zdigits2_nonneg (m : Z) : 0 <= Zdigits2 m.
Proof. destruct m; simpl; lia. Qed.

Lemma Zdigits2_gt (m : Z) : 0 <= m -> m < 2 ^ Zdigits2 m.
Proof.
  intros H. destruct m as [|p|p]; [reflexivity| |lia].
  rewrite Zdigits2_log2.
  apply (Z.log2_spec (Zpos p)). lia.
Qed.

Lemma Zdigits2_le (m k : Z) : 0 <= k -> 0 <= m < 2 ^ k -> Zdigits2 m <= k.
Proof.
  intros Hk [H0 H]. destruct m as [|p|p]; [simpl; lia| |lia].
  rewrite Zdigits2_log2.
  apply Z.log2_lt_pow2 in H; lia.
Qed.

Lemma Zdigits2_ge (m k : Z) : 0 <= k -> 2 ^ k <= m -> k < Zdigits2 m.
Proof.
  intros Hk H.
  assert (0 < m) by (pose proof (Z.pow_pos_nonneg 2 k); lia).
  destruct m as [|p|p]; try lia.
  rewrite Zdigits2_log2.
  apply Z.log2_le_pow2 in H; lia.
Qed.

Lemma shr_1_digits (x : shr_record) :
  0 <= shr_m x ->
  0 <= shr_m (shr_1 x)
  /\ Zdigits2 (shr_m (shr_1 x)) = Z.max 0 (Zdigits2 (shr_m x) - 1).
Proof.
  destruct x as [m r s]. cbn [shr_m].
  destruct m as [|[p|p|]|p]; cbn [shr_1 shr_m Zdigits2 digits2_pos];
    intros H; rewrite ?Pos2Z.inj_succ; lia.
Qed.

Lemma shr_iter_digits (p : positive) (x : shr_record) :
  0 <= shr_m x ->
  0 <= shr_m (iter_pos shr_1 p x)
  /\ Zdigits2 (shr_m (iter_pos shr_1 p x))
     = Z.max 0 (Zdigits2 (shr_m x) - Zpos p).
Proof.
  revert x. induction p as [p IH|p IH|]; intros x Hx; simpl iter_pos.
  - destruct (shr_1_digits x Hx) as [H1 E1].
    destruct (IH _ H1) as [H2 E2].
    destruct (IH _ H2) as [H3 E3].
    split; [exact H3|]. rewrite E3, E2, E1. lia.
  - destruct (IH _ Hx) as [H2 E2].
    destruct (IH _ H2) as [H3 E3].
    split; [exact H3|]. rewrite E3, E2. lia.
  - apply shr_1_digits. exact Hx.
Qed.

Lemma shr_record_of_loc_m (m : Z) (l : location) :
  shr_m (shr_record_of_loc m l) = m.
Proof. destruct l as [|[| |]]; reflexivity. Qed.

(** One [shr_fexp]: the mantissa stays non-negative, and the position of
    its leading digit does not rise. *)
Lemma shr_fexp_bounds (m e : Z) (l : location) :
  0 <= m ->
  let '(mrs, e') := shr_fexp prec emax m e l in
  0 <= shr_m mrs
  /\ Zdigits2 (shr_m mrs) <= 53
  /\ e' = Z.max e (Z.max (Zdigits2 m + e - 53) (-1074))
  /\ Zdigits2 (shr_m mrs) + e' <= Z.max (Zdigits2 m + e) e'.
Proof.
  intros Hm. unfold shr_fexp, shr. rewrite fexp_eq.
  pose proof (Zdigits2_nonneg m) as HD.
  destruct (Z.max (Zdigits2 m + e - 53) (-1074) - e) as [|n|n] eqn:En.
  - rewrite shr_record_of_loc_m. lia.
  - destruct (shr_iter_digits n (shr_record_of_loc m l)) as [H E].
    { now rewrite shr_record_of_loc_m. }
    rewrite shr_record_of_loc_m in E. rewrite E. lia.
  - rewrite shr_record_of_loc_m. lia.
Qed.

Lemma round_nearest_even_bounds (m : Z) (l : location) :
  0 <= m ->
  0 <= round_nearest_even m l
  /\ Zdigits2 (round_nearest_even m l) <= Zdigits2 m + 1.
Proof.
  intros Hm.
  assert (H1 : 0 <= m + 1 /\ Zdigits2 (m + 1) <= Zdigits2 m + 1).
  { split; [lia|]. apply Zdigits2_le.
    - pose proof (Zdigits2_nonneg m). lia.
    - pose proof (Zdigits2_gt m Hm).
      rewrite Z.pow_add_r by (try apply Zdigits2_nonneg; lia).
      change (2 ^ 1) with 2. lia. }
  unfold round_nearest_even.
  destruct l as [|[| |]]; try (split; [assumption|lia]).
  - destruct (Z.even m); [split; [assumption|lia]|exact H1].
  - exact H1.
Qed.

(** The result of a rounding is never a NaN; when finite, its mantissa
    has at most 53 digits; and it only overflows when the value to round
    reaches beyond the largest exponent. *)
Lemma binary_round_aux_bounds (s : bool) (m e : Z) (l : location) :
  0 <= m ->
  match binary_round_aux prec emax s m e l with
  | S754_nan => False
  | S754_infinity _ => 971 < Z.max e (Z.max (Zdigits2 m + e - 52) (-1074))
  | S754_finite _ m' e' => Zpos (digits2_pos m') <= 53 /\ e' <= 971
  | S754_zero _ => True
  end.
Proof.
  intros Hm. unfold binary_round_aux.
  pose proof (shr_fexp_bounds m e l Hm) as H1.
  destruct (shr_fexp prec emax m e l) as [mrs1 e1].
  destruct H1 as (H1 & D1 & E1 & S1).
  destruct (round_nearest_even_bounds (shr_m mrs1) (loc_of_shr_record mrs1) H1)
    as [H2 D2].
  set (m2 := round_nearest_even (shr_m mrs1) (loc_of_shr_record mrs1)) in *.
  pose proof (shr_fexp_bounds m2 e1 loc_Exact H2) as H3.
  destruct (shr_fexp prec emax m2 e1 loc_Exact) as [mrs3 e3].
  destruct H3 as (H3 & D3 & E3 & S3).
  pose proof (Zdigits2_nonneg m).
  destruct (shr_m mrs3) as [|m3|m3] eqn:Em3; [exact I| |lia].
  change (emax - prec) with 971.
  destruct (e3 <=? 971) eqn:Le.
  - apply Z.leb_le in Le. simpl in D3. lia.
  - apply Z.leb_gt in Le. lia.
Qed.


Lemma digits2_iter_xO (m : positive) (d : positive) :
  Zpos (digits2_pos (Pos.iter xO m d)) = Zpos (digits2_pos m) + Zpos d.
Proof.
  induction d as [|d IH] using Pos.peano_ind.
  - simpl. lia.
  - rewrite Pos.iter_succ. cbn [digits2_pos].
    rewrite Pos2Z.inj_succ, IH. lia.
Qed.

Lemma binary_normalize_bounds (z : Z) :
  match binary_normalize prec emax z 0 false with
  | S754_nan => False
  | S754_infinity _ => 1023 < Zdigits2 z
  | S754_finite _ m' e' => Zpos (digits2_pos m') <= 53 /\ e' <= 971
  | S754_zero _ => True
  end.
Proof.
  assert (R : forall s m,
             match binary_round prec emax s m 0 with
             | S754_nan => False
             | S754_infinity _ => 1023 < Zpos (digits2_pos m)
             | S754_finite _ m' e' => Zpos (digits2_pos m') <= 53 /\ e' <= 971
             | S754_zero _ => True
             end).
  { intros s m. unfold binary_round, shl_align. rewrite fexp_eq.
    destruct (Z.max (Z.pos (digits2_pos m) + 0 - 53) (-1074) - 0)
      as [|d|d] eqn:Ed.
    - pose proof (binary_round_aux_bounds s (Zpos m) 0 loc_Exact) as H.
      destruct (binary_round_aux prec emax s (Zpos m) 0 loc_Exact);
        try (apply H; lia).
      specialize (H ltac:(lia)). cbn [Zdigits2] in H. lia.
    - pose proof (binary_round_aux_bounds s (Zpos m) 0 loc_Exact) as H.
      destruct (binary_round_aux prec emax s (Zpos m) 0 loc_Exact);
        try (apply H; lia).
      specialize (H ltac:(lia)). cbn [Zdigits2] in H. lia.
    - pose proof (binary_round_aux_bounds s (Zpos (Pos.iter xO m d))
                    (Z.max (Z.pos (digits2_pos m) + 0 - 53) (-1074))
                    loc_Exact) as H.
      destruct (binary_round_aux prec emax s (Zpos (Pos.iter xO m d)) _
                  loc_Exact); try (apply H; lia).
      specialize (H ltac:(lia)). cbn [Zdigits2] in H.
      rewrite digits2_iter_xO in H. lia. }
  destruct z as [|m|m]; cbn [binary_normalize Zdigits2].
  - exact I.
  - apply R.
  - apply R.
Qed.


Lemma int_to_float_in_range (z : Z) (x : float) :
  int_to_float z = inr x -> in_range x.
Proof.
  unfold int_to_float. pose proof (binary_normalize_bounds z) as H.
  destruct (binary_normalize prec emax z 0 false);
    unfold ret, raise; intros E; inversion E; subst; exact H.
Qed.

Lemma int_to_float_defined (z : Z) :
  - 2 ^ 1023 < z < 2 ^ 1023 -> exists x, int_to_float z = inr x.
Proof.
  intros Hz. unfold int_to_float.
  pose proof (binary_normalize_bounds z) as H.
  destruct (binary_normalize prec emax z 0 false) eqn:E;
    try (eexists; reflexivity).
  exfalso.
  assert (Zdigits2 z <= 1023); [|lia].
  destruct z as [|p|p]; [simpl; lia| |].
  - apply Zdigits2_le; lia.
  - change (Zdigits2 (Zneg p)) with (Zdigits2 (Zpos p)).
    apply Zdigits2_le; lia.
Qed.

(** Dividing a float in range by 1024.0 yields a float in range. *)
Lemma div_f1024_in_range (x : float) :
  in_range x -> in_range (SFdiv prec emax x f1024).
Proof.
  destruct x as [s|s| |s m e]; cbn [in_range]; try tauto.
  intros [Hd He]. unfold f1024. cbn [SFdiv].
  unfold SFdiv_core_binary. rewrite fexp_eq.
  cbn [Zdigits2].
  change (Zpos (digits2_pos 4503599627370496)) with 53.
  set (d1 := Zpos (digits2_pos m)) in *.
  set (e' := Z.min (Z.max (d1 + e - (53 + -42) - 53) (-1074)) (e - -42)).
  set (m' := match e - -42 - e' with
             | 0 => Zpos m
             | Zpos _ => Z.shiftl (Zpos m) (e - -42 - e')
             | Zneg _ => 0
             end).
  assert (Hs : 0 <= e - -42 - e') by lia.
  assert (Hm' : m' = Zpos m * 2 ^ (e - -42 - e')).
  { subst m'. destruct (e - -42 - e') as [|k|k] eqn:Ek.
    - simpl. lia.
    - now rewrite Z.shiftl_mul_pow2 by lia.
    - lia. }
  pose proof (Z_div_mod m' 4503599627370496 eq_refl) as Hdiv.
  destruct (Z.div_eucl m' 4503599627370496) as [q r].
  destruct Hdiv as [Hq Hr].
  assert (Hq0 : 0 <= q) by nia.
  assert (HDq : Zdigits2 q + e' <= Z.max e' (d1 + e - 10)).
  { pose proof (Zdigits2_gt (Zpos m) ltac:(lia)) as Hlt.
    cbn [Zdigits2] in Hlt. fold d1 in Hlt.
    destruct (Z_lt_le_dec (d1 + (e - -42 - e')) 52) as [Hsmall|Hbig].
    - assert (q = 0).
      { assert (m' < 2 ^ 52); [|change (2 ^ 52) with 4503599627370496 in *; nia].
        rewrite Hm'.
        apply Z.lt_le_trans with (2 ^ d1 * 2 ^ (e - -42 - e')).
        - apply Z.mul_lt_mono_pos_r; [apply Z.pow_pos_nonneg; lia|exact Hlt].
        - rewrite <- Z.pow_add_r by (subst d1; lia).
          apply Z.pow_le_mono_r; lia. }
      subst q. simpl. lia.
    - assert (Zdigits2 q <= d1 + (e - -42 - e') - 52); [|lia].
      apply Zdigits2_le; [lia|]. split; [exact Hq0|].
      assert (m' < 2 ^ (d1 + (e - -42 - e') - 52) * 4503599627370496);
        [|nia].
      rewrite Hm'. change 4503599627370496 with (2 ^ 52).
      rewrite <- Z.pow_add_r by lia.
      replace (d1 + (e - -42 - e') - 52 + 52) with (d1 + (e - -42 - e'))
        by lia.
      rewrite Z.pow_add_r by (subst d1; lia).
      apply Z.mul_lt_mono_pos_r; [apply Z.pow_pos_nonneg; lia|exact Hlt]. }
  pose proof (binary_round_aux_bounds (xorb s false) q e'
                (new_location 4503599627370496 r) Hq0) as H.
  destruct (binary_round_aux prec emax (xorb s false) q e' _);
    cbn [in_range]; try exact H; try exact I.
  subst e'. lia.
Qed.

End FloatFacts.

(** ** Floats: non-negative magnitudes *)

Section MagnitudeFacts.

Lemma binary_round_aux_below (m e : Z) (l : location) (k : Z) :
  0 <= m -> e <= 971 -> Zdigits2 m + e <= k -> -1074 <= k <= 1022 ->
  below (k + 1) (binary_round_aux prec emax false m e l).
Proof.
  intros Hm He Hk Hr. unfold binary_round_aux.
  pose proof (shr_fexp_bounds m e l Hm) as H1.
  destruct (shr_fexp prec emax m e l) as [mrs1 e1].
  destruct H1 as (H1 & D1 & E1 & S1).
  destruct (round_nearest_even_bounds (shr_m mrs1) (loc_of_shr_record mrs1) H1)
    as [H2 D2].
  set (m2 := round_nearest_even (shr_m mrs1) (loc_of_shr_record mrs1)) in *.
  pose proof (shr_fexp_bounds m2 e1 loc_Exact H2) as H3.
  destruct (shr_fexp prec emax m2 e1 loc_Exact) as [mrs3 e3].
  destruct H3 as (H3 & D3 & E3 & S3).
  pose proof (Zdigits2_nonneg m).
  pose proof (Zdigits2_nonneg m2).
  pose proof (Zdigits2_nonneg (shr_m mrs1)).
  destruct (shr_m mrs3) as [|m3|m3] eqn:Em3; [reflexivity| |lia].
  change (emax - prec) with 971.
  destruct (e3 <=? 971) eqn:Le.
  - apply Z.leb_le in Le. cbn [below]. cbn [Zdigits2] in D3, S3.
    clearbody m2. split; [reflexivity|lia].
  - apply Z.leb_gt in Le. cbn [below]. lia.
Qed.

Lemma Zdigits2_mul (a b : Z) :
  0 <= a -> 0 <= b -> Zdigits2 (a * b) <= Zdigits2 a + Zdigits2 b.
Proof.
  intros Ha Hb.
  pose proof (Zdigits2_nonneg a). pose proof (Zdigits2_nonneg b).
  apply Zdigits2_le; [lia|]. split; [nia|].
  rewrite Z.pow_add_r by lia.
  pose proof (Zdigits2_gt a Ha). pose proof (Zdigits2_gt b Hb). nia.
Qed.

Lemma SFmul_below (x y : float) (kx ky : Z) :
  below kx x -> below ky y -> -1074 <= kx + ky <= 1022 ->
  match x, y with
  | S754_finite _ _ ex, S754_finite _ _ ey => ex + ey <= 971
  | _, _ => True
  end ->
  below (kx + ky + 1) (SFmul prec emax x y).
Proof.
  destruct x as [sx|sx| |sx mx ex]; cbn [below]; try tauto;
    destruct y as [sy|sy| |sy my ey]; cbn [below]; try tauto.
  - intros -> -> _ _. reflexivity.
  - intros -> [-> _] _ _. reflexivity.
  - intros [-> _] -> _ _. reflexivity.
  - intros (-> & Dx & Ex & Kx) (-> & Dy & Ey & Ky) Hr Hy.
    cbn [SFmul xorb].
    apply binary_round_aux_below; [apply Pos2Z.is_nonneg|lia| |lia].
    pose proof (Zdigits2_mul (Zpos mx) (Zpos my) ltac:(lia) ltac:(lia)) as H.
    rewrite <- Pos2Z.inj_mul in H. cbn [Zdigits2] in H.
    cbn [Zdigits2]. lia.
Qed.

(** The quotient of the integer division in [SFdiv_core_binary]. *)
Lemma div_core_digits (m1 e1 m2 e2 : Z) :
  0 < m1 -> 0 < m2 ->
  let '(q, e', l) := SFdiv_core_binary prec emax m1 e1 m2 e2 in
  0 <= q
  /\ e' <= e1 - e2
  /\ Zdigits2 q + e'
     <= Z.max e' (Zdigits2 m1 + e1 - (Zdigits2 m2 + e2) + 1).
Proof.
  intros H1 H2. unfold SFdiv_core_binary.
  set (d1 := Zdigits2 m1). set (d2 := Zdigits2 m2).
  set (e' := Z.min (fexp prec emax (d1 + e1 - (d2 + e2))) (e1 - e2)).
  set (m' := match e1 - e2 - e' with
             | 0 => m1
             | Zpos _ => Z.shiftl m1 (e1 - e2 - e')
             | Zneg _ => 0
             end).
  assert (Hs : 0 <= e1 - e2 - e') by lia.
  assert (Hm' : m' = m1 * 2 ^ (e1 - e2 - e')).
  { subst m'. destruct (e1 - e2 - e') as [|k|k] eqn:Ek.
    - simpl. lia.
    - now rewrite Z.shiftl_mul_pow2 by lia.
    - lia. }
  pose proof (Z_div_mod m' m2 ltac:(lia)) as Hdiv.
  destruct (Z.div_eucl m' m2) as [q r]. destruct Hdiv as [Hq Hr].
  pose proof (Z.pow_pos_nonneg 2 (e1 - e2 - e') ltac:(lia) Hs) as Hp.
  assert (Hq0 : 0 <= q) by nia.
  split; [exact Hq0|]. split; [lia|].
  pose proof (Zdigits2_gt m1 ltac:(lia)) as Hlt1. fold d1 in Hlt1.
  assert (Hge2 : 2 ^ (d2 - 1) <= m2).
  { destruct m2 as [|p|p]; try lia. subst d2.
    rewrite Zdigits2_log2. replace (Z.log2 (Zpos p) + 1 - 1) with (Z.log2 (Zpos p)) by lia.
    apply Z.log2_spec. lia. }
  assert (Hd1 : 0 < d1).
  { subst d1. destruct m1; simpl; lia. }
  assert (Hd2 : 0 < d2).
  { subst d2. destruct m2; simpl; lia. }
  set (s := e1 - e2 - e') in *.
  destruct (Z_lt_le_dec (d1 + s - d2 + 1) 0) as [Hsmall|Hbig].
  - assert (q = 0).
    { assert (m' < m2); [|nia].
      rewrite Hm'.
      apply Z.lt_le_trans with (2 ^ d1 * 2 ^ s); [nia|].
      rewrite <- Z.pow_add_r by lia.
      apply Z.le_trans with (2 ^ (d2 - 1)); [|exact Hge2].
      apply Z.pow_le_mono_r; lia. }
    subst q. simpl. lia.
  - assert (Zdigits2 q <= d1 + s - d2 + 1); [|lia].
    apply Zdigits2_le; [lia|]. split; [exact Hq0|].
    assert (m' < 2 ^ (d1 + s - d2 + 1) * 2 ^ (d2 - 1)).
    { rewrite Hm'. rewrite <- Z.pow_add_r by lia.
      replace (d1 + s - d2 + 1 + (d2 - 1)) with (d1 + s) by lia.
      rewrite Z.pow_add_r by lia. nia. }
    pose proof (Z.pow_pos_nonneg 2 (d1 + s - d2 + 1) ltac:(lia) Hbig).
    nia.
Qed.

Lemma int_truediv_below (a b : Z) (k : Z) :
  0 <= a < 2 ^ k -> 0 < b -> 0 <= k <= 1021 ->
  exists q, int_truediv a b = inr q /\ below (k + 2) q.
Proof.
  intros [Ha Hak] Hb Hk. unfold int_truediv.
  replace (b =? 0) with false by (symmetry; apply Z.eqb_neq; lia).
  destruct (a =? 0) eqn:Ea.
  - eexists. split; [reflexivity|]. cbn [below].
    apply Z.ltb_ge. lia.
  - apply Z.eqb_neq in Ea.
    replace (a <? 0) with false by (symmetry; apply Z.ltb_ge; lia).
    replace (b <? 0) with false by (symmetry; apply Z.ltb_ge; lia).
    rewrite !Z.abs_eq by lia. cbn [xorb].
    pose proof (div_core_digits a 0 b 0 ltac:(lia) Hb) as H.
    destruct (SFdiv_core_binary prec emax a 0 b 0) as [[q e'] l].
    destruct H as (Hq & He & Hd).
    assert (Da : Zdigits2 a <= k) by (apply Zdigits2_le; lia).
    assert (Db : 0 < Zdigits2 b) by (destruct b; simpl; lia).
    pose proof (binary_round_aux_below q e' l (k + 1) Hq ltac:(lia)
                  ltac:(lia) ltac:(lia)) as B.
    replace (k + 1 + 1) with (k + 2) in B by lia.
    destruct (binary_round_aux prec emax false q e' l);
      cbn [below] in B; try tauto; eexists; (split; [reflexivity|exact B]).
Qed.

Lemma SFdiv_below (x : float) (kx : Z) (my : positive) (ey : Z) :
  below kx x ->
  let ky := Zpos (digits2_pos my) + ey in
  -1074 <= kx - ky + 1 <= 1022 ->
  below (kx - ky + 2) (SFdiv prec emax x (S754_finite false my ey)).
Proof.
  intros Hx ky Hr.
  destruct x as [sx|sx| |sx mx ex]; cbn [below] in Hx; try tauto.
  - subst sx. reflexivity.
  - destruct Hx as (-> & Dx & Ex & Kx). cbn [SFdiv xorb].
    pose proof (div_core_digits (Zpos mx) ex (Zpos my) ey ltac:(lia)
                  ltac:(lia)) as H.
    assert (Hf : snd (fst (SFdiv_core_binary prec emax (Zpos mx) ex
                             (Zpos my) ey))
                 <= Z.max (Zpos (digits2_pos mx) + ex - ky - 53) (-1074)).
    { unfold SFdiv_core_binary. cbn [Zdigits2]. rewrite fexp_eq.
      destruct (Z.div_eucl _ _). cbn [fst snd]. subst ky. lia. }
    destruct (SFdiv_core_binary prec emax (Zpos mx) ex (Zpos my) ey)
      as [[q e'] l].
    cbn [fst snd] in Hf.
    destruct H as (Hq & He & Hd). cbn [Zdigits2] in Hd. fold ky in Hd.
    replace (kx - ky + 2) with (kx - ky + 1 + 1) by lia.
    apply binary_round_aux_below; [exact Hq|lia|lia|lia].
Qed.

End MagnitudeFacts.

(** ** Floats: rounding does not step over a float *)

Section MonotoneFacts.

Lemma shr_1_value (x : shr_record) :
  0 <= shr_m x ->
  0 <= shr_m (shr_1 x)
  /\ shr_m x = 2 * shr_m (shr_1 x) + (if shr_r (shr_1 x) then 1 else 0)
  /\ shr_s (shr_1 x) = sticky x.
Proof.
  destruct x as [m r s]. unfold sticky. cbn [shr_m shr_r shr_s].
  destruct m as [|[p|p|]|p]; cbn [shr_1 shr_m shr_r shr_s]; intros H;
    try lia; repeat split; try lia; reflexivity.
Qed.

Lemma pow2_xI (p : positive) : 2 ^ Zpos p~1 = 2 * (2 ^ Zpos p * 2 ^ Zpos p).
Proof.
  replace (Zpos p~1) with (Zpos p + Zpos p + 1) by lia.
  rewrite !Z.pow_add_r by lia. change (2 ^ 1) with 2. ring.
Qed.

Lemma pow2_xO (p : positive) : 2 ^ Zpos p~0 = 2 ^ Zpos p * 2 ^ Zpos p.
Proof.
  replace (Zpos p~0) with (Zpos p + Zpos p) by lia.
  now rewrite Z.pow_add_r by lia.
Qed.

Lemma shr_iter_value (p : positive) (x : shr_record) :
  0 <= shr_m x ->
  exists rho,
    0 <= shr_m (iter_pos shr_1 p x)
    /\ shr_m x = shr_m (iter_pos shr_1 p x) * 2 ^ Zpos p + rho
    /\ 0 <= rho < 2 ^ Zpos p
    /\ (sticky (iter_pos shr_1 p x) = false
        <-> rho = 0 /\ sticky x = false).
Proof.
  revert x. induction p as [p IH|p IH|]; intros x Hx; simpl iter_pos.
  - destruct (shr_1_value x Hx) as (H1 & E1 & S1).
    destruct (IH _ H1) as (r2 & H2 & E2 & R2 & X2).
    destruct (IH _ H2) as (r3 & H3 & E3 & R3 & X3).
    set (x1 := shr_1 x) in *. set (x2 := iter_pos shr_1 p x1) in *.
    set (x3 := iter_pos shr_1 p x2) in *.
    rewrite pow2_xI.
    pose proof (Z.pow_pos_nonneg 2 (Zpos p) ltac:(lia) ltac:(lia)) as Hpow.
    set (P := 2 ^ Zpos p) in *.
    exists (2 * (r3 * P + r2) + (if shr_r x1 then 1 else 0)).
    split; [exact H3|]. split; [rewrite E1, E2, E3; ring|].
    split.
    { destruct (shr_r x1); nia. }
    rewrite X3, X2. unfold sticky at 1. rewrite S1.
    destruct (shr_r x1); cbn [orb].
    + split; [intros (_ & _ & H); discriminate|intros [H _]; nia].
    + split.
      * intros (-> & -> & H). split; [lia|exact H].
      * intros [H Hs]. assert (r3 = 0) by nia. assert (r2 = 0) by nia. auto.
  - destruct (IH _ Hx) as (r2 & H2 & E2 & R2 & X2).
    destruct (IH _ H2) as (r3 & H3 & E3 & R3 & X3).
    set (x2 := iter_pos shr_1 p x) in *.
    set (x3 := iter_pos shr_1 p x2) in *.
    rewrite pow2_xO.
    pose proof (Z.pow_pos_nonneg 2 (Zpos p) ltac:(lia) ltac:(lia)) as Hpow.
    set (P := 2 ^ Zpos p) in *.
    exists (r3 * P + r2).
    split; [exact H3|]. split; [rewrite E2, E3; ring|].
    split; [nia|].
    rewrite X3, X2. split.
    + intros (-> & -> & H). split; [lia|exact H].
    + intros [H Hs]. assert (r3 = 0) by nia. assert (r2 = 0) by nia. auto.
  - destruct (shr_1_value x Hx) as (H1 & E1 & S1).
    change (2 ^ 1) with 2.
    exists (if shr_r (shr_1 x) then 1 else 0).
    split; [exact H1|]. split; [lia|]. split; [destruct (shr_r _); lia|].
    unfold sticky at 1. rewrite S1.
    destruct (shr_r (shr_1 x)); cbn [orb].
    + split; [discriminate|intros [H _]; lia].
    + split; [intros H; auto|intros [_ H]; exact H].
Qed.

Lemma cap_shift (t k e n : Z) :
  0 <= n -> cap t k (e + n) = cap t k e / 2 ^ n.
Proof.
  intros Hn. unfold cap. rewrite <- Z.shiftr_div_pow2 by exact Hn.
  destruct (Z_le_gt_dec 0 (k - e)) as [H|H].
  - rewrite Z.shiftr_shiftl_l by exact H. f_equal. lia.
  - replace (k - e) with (- (e - k)) by lia. rewrite Z.shiftl_opp_r.
    rewrite Z.shiftr_shiftr by exact Hn.
    rewrite <- Z.shiftl_opp_r. f_equal. lia.
Qed.

Lemma cap_grid (t k e : Z) : e <= k -> cap t k e = t * 2 ^ (k - e).
Proof. intros H. unfold cap. apply Z.shiftl_mul_pow2. lia. Qed.

Lemma cap_coarse (t k e : Z) :
  0 <= t < 2 ^ 53 -> k < e -> cap t k e < 2 ^ 52.
Proof.
  intros Ht H. unfold cap. rewrite Z.shiftl_div_pow2 by lia.
  apply Z.div_lt_upper_bound; [apply Z.pow_pos_nonneg; lia|].
  assert (2 ^ 1 <= 2 ^ (- (k - e))) by (apply Z.pow_le_mono_r; lia).
  change (2 ^ 1) with 2 in *. change (2 ^ 53) with (2 * 2 ^ 52) in Ht.
  nia.
Qed.

Lemma Zdigits2_mono (a b : Z) : 0 <= a <= b -> Zdigits2 a <= Zdigits2 b.
Proof.
  intros [Ha Hab]. destruct a as [|p|p]; [apply Zdigits2_nonneg| |lia].
  destruct b as [|q|q]; try lia.
  rewrite !Zdigits2_log2.
  pose proof (Z.log2_le_mono (Zpos p) (Zpos q) Hab). lia.
Qed.

Lemma Zdigits2_53 (m : Z) : 0 <= m -> Zdigits2 m = 53 -> 2 ^ 52 <= m.
Proof.
  intros Hm H. destruct m as [|p|p]; [discriminate| |lia].
  rewrite Zdigits2_log2 in H.
  replace 52 with (Z.log2 (Zpos p)) by lia.
  apply Z.log2_spec. lia.
Qed.

Lemma sticky_of_loc (m : Z) (l : location) :
  sticky (shr_record_of_loc m l) = false <-> l = loc_Exact.
Proof. destruct l as [|[| |]]; unfold sticky; simpl; split; congruence. Qed.

Lemma loc_of_sticky (x : shr_record) :
  loc_of_shr_record x = loc_Exact <-> sticky x = false.
Proof.
  destruct x as [m [|] [|]]; unfold sticky; simpl; split; congruence.
Qed.

(** One [shr_fexp] on a mantissa that is fine enough: the exponent
    becomes the canonical one, the mantissa is the floor of the scaled
    value, and the location tells whether anything was lost. *)
Lemma shr_fexp_value (m e : Z) (l : location) :
  0 <= m ->
  let f := Z.max (Zdigits2 m + e - 53) (-1074) in
  e <= f ->
  let '(mrs, e1) := shr_fexp prec emax m e l in
  e1 = f
  /\ 0 <= shr_m mrs
  /\ Zdigits2 (shr_m mrs) = Z.max 0 (Zdigits2 m - (f - e))
  /\ exists rho,
      m = shr_m mrs * 2 ^ (f - e) + rho
      /\ 0 <= rho < 2 ^ (f - e)
      /\ (loc_of_shr_record mrs = loc_Exact <-> rho = 0 /\ l = loc_Exact).
Proof.
  intros Hm f Hf. unfold shr_fexp, shr. rewrite fexp_eq. fold f.
  pose proof (Zdigits2_nonneg m) as HD.
  destruct (f - e) as [|n|n] eqn:En; [| |lia].
  - rewrite shr_record_of_loc_m.
    split; [lia|]. split; [exact Hm|]. split; [lia|].
    exists 0. split; [simpl; lia|]. split; [simpl; lia|].
    rewrite loc_of_sticky, sticky_of_loc. tauto.
  - assert (H0 : 0 <= shr_m (shr_record_of_loc m l))
      by now rewrite shr_record_of_loc_m.
    destruct (shr_iter_digits n _ H0) as [_ ED].
    destruct (shr_iter_value n _ H0) as (rho & H1 & E1 & R1 & X1).
    rewrite shr_record_of_loc_m in ED, E1.
    split; [lia|]. split; [exact H1|]. split; [exact ED|].
    exists rho. split; [exact E1|]. split; [exact R1|].
    rewrite loc_of_sticky, X1, sticky_of_loc. tauto.
Qed.

Lemma round_nearest_even_cases (m : Z) (l : location) :
  round_nearest_even m l = m
  \/ (round_nearest_even m l = m + 1 /\ l <> loc_Exact).
Proof.
  unfold round_nearest_even.
  destruct l as [|[| |]]; auto.
  - destruct (Z.even m); [auto|right; split; [reflexivity|discriminate]].
  - right; split; [reflexivity|discriminate].
Qed.

(** Rounding to nearest does not step over a float: a value that is at
    most [t * 2 ^ k], a float, is rounded to a canonical float that is at
    most [t * 2 ^ k]. *)
Lemma binary_round_aux_mono (m e : Z) (l : location) (t k : Z) :
  0 <= m ->
  e <= Z.max (Zdigits2 m + e - 53) (-1074) ->
  0 < t < 2 ^ 53 -> -1074 <= k <= 971 ->
  m <= cap t k e ->
  (l <> loc_Exact -> e <= k -> m < cap t k e) ->
  at_most t k (binary_round_aux prec emax false m e l).
Proof.
  intros Hm Hpre Ht Hk Hle Hlt. unfold binary_round_aux.
  pose proof (shr_fexp_value m e l Hm Hpre) as H1.
  destruct (shr_fexp prec emax m e l) as [mrs1 e1].
  destruct H1 as (E1 & H1 & D1 & rho & V1 & R1 & X1).
  set (f := Z.max (Zdigits2 m + e - 53) (-1074)) in *.
  set (m1 := shr_m mrs1) in *.
  assert (Hp1 : 0 < 2 ^ (f - e)) by (apply Z.pow_pos_nonneg; lia).
  (* the truncated mantissa stays under the cap *)
  assert (C1 : m1 <= cap t k e1).
  { replace e1 with (e + (f - e)) by lia. rewrite cap_shift by lia.
    apply Z.div_le_lower_bound; [exact Hp1|]. nia. }
  (* a mantissa under a cap coarser than its exponent is not normal *)
  assert (N1 : k < e1 -> Zdigits2 m1 < 53).
  { intros Hke.
    destruct (Z_lt_le_dec (Zdigits2 m1) 53) as [|Hd]; [assumption|].
    exfalso.
    assert (Zdigits2 m1 = 53) by lia.
    pose proof (Zdigits2_53 m1 H1 H).
    pose proof (cap_coarse t k e1 ltac:(lia) Hke). lia. }
  set (m2 := round_nearest_even m1 (loc_of_shr_record mrs1)).
  assert (H2 : 0 <= m1 <= m2).
  { subst m2.
    destruct (round_nearest_even_cases m1 (loc_of_shr_record mrs1))
      as [->|[-> _]]; lia. }
  assert (C2 : m2 <= cap t k e1).
  { subst m2.
    destruct (round_nearest_even_cases m1 (loc_of_shr_record mrs1))
      as [->|[-> Hloc]]; [exact C1|].
    destruct (Z_le_gt_dec e1 k) as [Hek|Hek].
    - rewrite cap_grid by exact Hek.
      rewrite cap_grid in Hle, Hlt by lia.
      assert (Hs : 2 ^ (k - e) = 2 ^ (k - e1) * 2 ^ (f - e)).
      { rewrite <- Z.pow_add_r by lia. f_equal. lia. }
      assert (m1 * 2 ^ (f - e) < t * 2 ^ (k - e1) * 2 ^ (f - e)); [|nia].
      destruct (Z.eq_dec rho 0) as [Hr|Hr].
      + assert (Hl : l <> loc_Exact).
        { intros Hl. apply Hloc. apply X1. auto. }
        specialize (Hlt Hl ltac:(lia)). nia.
      + nia.
    - exfalso. specialize (N1 ltac:(lia)).
      (* above every subnormal the truncated mantissa is normal *)
      lia. }
  pose proof (Zdigits2_mono m1 m2 H2) as D12.
  pose proof (shr_fexp_value m2 e1 loc_Exact ltac:(lia)) as H3.
  cbv zeta in H3.
  assert (Hpre3 : e1 <= Z.max (Zdigits2 m2 + e1 - 53) (-1074)) by lia.
  specialize (H3 Hpre3).
  destruct (shr_fexp prec emax m2 e1 loc_Exact) as [mrs3 e3].
  destruct H3 as (E3 & H3 & D3 & rho3 & V3 & R3 & _).
  set (f3 := Z.max (Zdigits2 m2 + e1 - 53) (-1074)) in *.
  assert (Hp3 : 0 < 2 ^ (f3 - e1)) by (apply Z.pow_pos_nonneg; lia).
  assert (C3 : shr_m mrs3 <= cap t k e3).
  { replace e3 with (e1 + (f3 - e1)) by lia. rewrite cap_shift by lia.
    apply Z.div_le_lower_bound; [exact Hp3|]. nia. }
  destruct (shr_m mrs3) as [|m3|m3] eqn:Em3; [reflexivity| |lia].
  cbn [Zdigits2] in D3.
  assert (Hcanon : canon m3 e3).
  { unfold canon. lia. }
  assert (He3 : e3 <= 971).
  { destruct (Z_le_gt_dec e3 971) as [|Hbig]; [assumption|]. exfalso.
    assert (Zpos (digits2_pos m3) = 53) by (unfold canon in Hcanon; lia).
    pose proof (Zdigits2_53 (Zpos m3) ltac:(lia) H).
    pose proof (cap_coarse t k e3 ltac:(lia) ltac:(lia)). lia. }
  change (emax - prec) with 971.
  replace (e3 <=? 971) with true by (symmetry; apply Z.leb_le; exact He3).
  cbn [at_most]. auto.
Qed.

Lemma Zdigits2_mul_ge (a b : Z) :
  0 < a -> 0 < b -> Zdigits2 a + Zdigits2 b - 1 <= Zdigits2 (a * b).
Proof.
  intros Ha Hb.
  assert (La : 2 ^ (Zdigits2 a - 1) <= a).
  { destruct a as [|p|p]; try lia. rewrite Zdigits2_log2.
    replace (Z.log2 (Zpos p) + 1 - 1) with (Z.log2 (Zpos p)) by lia.
    apply Z.log2_spec. lia. }
  assert (Lb : 2 ^ (Zdigits2 b - 1) <= b).
  { destruct b as [|p|p]; try lia. rewrite Zdigits2_log2.
    replace (Z.log2 (Zpos p) + 1 - 1) with (Z.log2 (Zpos p)) by lia.
    apply Z.log2_spec. lia. }
  assert (Da : 0 < Zdigits2 a) by (destruct a; simpl; lia).
  assert (Db : 0 < Zdigits2 b) by (destruct b; simpl; lia).
  assert (2 ^ (Zdigits2 a + Zdigits2 b - 2) <= a * b).
  { replace (Zdigits2 a + Zdigits2 b - 2)
      with ((Zdigits2 a - 1) + (Zdigits2 b - 1)) by lia.
    rewrite Z.pow_add_r by lia.
    pose proof (Z.pow_pos_nonneg 2 (Zdigits2 a - 1) ltac:(lia) ltac:(lia)).
    pose proof (Z.pow_pos_nonneg 2 (Zdigits2 b - 1) ltac:(lia) ltac:(lia)).
    nia. }
  pose proof (Zdigits2_ge (a * b) (Zdigits2 a + Zdigits2 b - 2) ltac:(lia) H).
  lia.
Qed.

Lemma new_location_exact (n r : Z) :
  new_location n r = loc_Exact <-> r = 0.
Proof.
  unfold new_location, new_location_even, new_location_odd.
  destruct (Z.even n); destruct (Z.eqb_spec r 0); split;
    try congruence; try discriminate; auto.
Qed.

(** The integer division at the heart of a float division: quotient,
    remainder, and a quotient long enough for the rounding. *)
Lemma div_core_value (m1 e1 m2 e2 : Z) :
  0 < m1 -> 0 < m2 ->
  let '(q, e', l) := SFdiv_core_binary prec emax m1 e1 m2 e2 in
  exists r,
    0 <= e1 - e2 - e'
    /\ m1 * 2 ^ (e1 - e2 - e') = q * m2 + r
    /\ 0 <= r < m2
    /\ (l = loc_Exact <-> r = 0)
    /\ 0 <= q
    /\ e' <= Z.max (Zdigits2 q + e' - 53) (-1074).
Proof.
  intros H1 H2. unfold SFdiv_core_binary. rewrite fexp_eq.
  set (d1 := Zdigits2 m1). set (d2 := Zdigits2 m2).
  set (e' := Z.min (Z.max (d1 + e1 - (d2 + e2) - 53) (-1074)) (e1 - e2)).
  set (m' := match e1 - e2 - e' with
             | 0 => m1
             | Zpos _ => Z.shiftl m1 (e1 - e2 - e')
             | Zneg _ => 0
             end).
  assert (Hs : 0 <= e1 - e2 - e') by lia.
  assert (Hm' : m' = m1 * 2 ^ (e1 - e2 - e')).
  { subst m'. destruct (e1 - e2 - e') as [|k|k] eqn:Ek.
    - simpl. lia.
    - now rewrite Z.shiftl_mul_pow2 by lia.
    - lia. }
  pose proof (Z_div_mod m' m2 ltac:(lia)) as Hdiv.
  destruct (Z.div_eucl m' m2) as [q r]. destruct Hdiv as [Hq Hr].
  set (s := e1 - e2 - e') in *.
  pose proof (Z.pow_pos_nonneg 2 s ltac:(lia) Hs) as Hp.
  assert (Hq0 : 0 <= q) by nia.
  exists r. split; [exact Hs|]. split; [lia|]. split; [exact Hr|].
  split; [apply new_location_exact|]. split; [exact Hq0|].
  destruct (Z_le_gt_dec e' (-1074)) as [|Hnorm]; [lia|].
  (* a normal quotient has at least 53 digits *)
  assert (Hd1 : 0 < d1) by (subst d1; destruct m1; simpl; lia).
  assert (Hd2 : 0 < d2) by (subst d2; destruct m2; simpl; lia).
  assert (Hj : 52 <= d1 - 1 + s - d2) by lia.
  assert (Hlow : 2 ^ (d1 - 1) <= m1).
  { destruct m1 as [|p|p]; try lia. subst d1. rewrite Zdigits2_log2.
    replace (Z.log2 (Zpos p) + 1 - 1) with (Z.log2 (Zpos p)) by lia.
    apply Z.log2_spec. lia. }
  pose proof (Zdigits2_gt m2 ltac:(lia)) as Hup. fold d2 in Hup.
  assert (Hq2 : 2 ^ (d1 - 1 + s - d2) <= q).
  { destruct (Z_le_gt_dec (2 ^ (d1 - 1 + s - d2)) q) as [|Hlt];
      [assumption|exfalso].
    assert (2 ^ (d1 - 1 + s - d2) * 2 ^ d2 <= m').
    { rewrite <- Z.pow_add_r by lia.
      replace (d1 - 1 + s - d2 + d2) with ((d1 - 1) + s) by lia.
      rewrite Z.pow_add_r by lia. rewrite Hm'.
      pose proof (Z.pow_pos_nonneg 2 (d1 - 1) ltac:(lia) ltac:(lia)). nia. }
    pose proof (Z.pow_pos_nonneg 2 (d1 - 1 + s - d2) ltac:(lia) ltac:(lia)).
    nia. }
  pose proof (Zdigits2_ge q (d1 - 1 + s - d2) ltac:(lia) Hq2). lia.
Qed.

(** [a / b] for [0 <= a <= b] is at most 1. *)
Lemma int_truediv_at_most_1 (a b : Z) :
  0 <= a <= b -> 0 < b ->
  exists q, int_truediv a b = inr q /\ at_most 1 0 q.
Proof.
  intros [Ha Hab] Hb. unfold int_truediv.
  replace (b =? 0) with false by (symmetry; apply Z.eqb_neq; lia).
  destruct (a =? 0) eqn:Ea.
  - eexists. split; [reflexivity|]. cbn [at_most]. apply Z.ltb_ge. lia.
  - apply Z.eqb_neq in Ea.
    replace (a <? 0) with false by (symmetry; apply Z.ltb_ge; lia).
    replace (b <? 0) with false by (symmetry; apply Z.ltb_ge; lia).
    rewrite !Z.abs_eq by lia. cbn [xorb].
    pose proof (div_core_value a 0 b 0 ltac:(lia) Hb) as H.
    destruct (SFdiv_core_binary prec emax a 0 b 0) as [[q e'] l].
    destruct H as (r & Hs & Hv & Hr & Hl & Hq & Hpre).
    assert (Hp : 0 < 2 ^ (0 - 0 - e')) by (apply Z.pow_pos_nonneg; lia).
    assert (A : at_most 1 0 (binary_round_aux prec emax false q e' l)).
    { apply binary_round_aux_mono; try assumption; try lia.
      - rewrite cap_grid by lia. replace (0 - e') with (0 - 0 - e') by lia.
        nia.
      - intros Hne _. rewrite cap_grid by lia.
        replace (0 - e') with (0 - 0 - e') by lia.
        assert (r <> 0) by (intros Hr0; apply Hne; apply Hl; exact Hr0).
        nia. }
    destruct (binary_round_aux prec emax false q e' l);
      cbn [at_most] in A; try tauto; eexists; (split; [reflexivity|exact A]).
Qed.

(** Times 100.0: from at most 1 to at most 100. *)
Lemma mul_100_at_most (q : float) :
  at_most 1 0 q -> at_most 7036874417766400 (-46) (SFmul prec emax q f100).
Proof.
  destruct q as [s|s| |s m e]; cbn [at_most]; try tauto;
    try (intros ->; reflexivity).
  - intros (-> & Hc & He & Hm). unfold f100. cbn [SFmul xorb].
    assert (He0 : e <= 0).
    { destruct (Z_le_gt_dec e 0) as [|Hpos]; [assumption|exfalso].
      unfold cap in Hm. rewrite Z.shiftl_div_pow2 in Hm by lia.
      rewrite Z.div_small in Hm; [lia|].
      split; [lia|]. apply Z.pow_gt_1; lia. }
    rewrite cap_grid in Hm by lia.
    pose proof (Zdigits2_mul_ge (Zpos m) 7036874417766400 ltac:(lia)
                  ltac:(lia)) as Hd.
    change (Zdigits2 7036874417766400) with 53 in Hd.
    rewrite <- Pos2Z.inj_mul in Hd.
    assert (0 < Zdigits2 (Zpos m)) by (simpl; lia).
    apply binary_round_aux_mono; try lia.
    + rewrite cap_grid by lia. rewrite Pos2Z.inj_mul.
      replace (-46 - (e + -46)) with (0 - e) by lia. nia.
    + intros Hne. congruence.
Qed.

(** 30 times: from at most 100 to at most 3000. *)
Lemma mul_30_at_most (p : float) :
  at_most 7036874417766400 (-46) p ->
  at_most 375 3 (SFmul prec emax f30 p).
Proof.
  destruct p as [s|s| |s m e]; cbn [at_most]; try tauto;
    try (intros ->; reflexivity).
  - intros (-> & Hc & He & Hm). unfold f30. cbn [SFmul xorb].
    assert (He0 : e <= -46).
    { destruct (Z_le_gt_dec e (-46)) as [|Hpos]; [assumption|exfalso].
      pose proof (cap_coarse 7036874417766400 (-46) e ltac:(lia) ltac:(lia)).
      unfold canon in Hc.
      assert (Zdigits2 (Zpos m) = 53) by (simpl; lia).
      pose proof (Zdigits2_53 (Zpos m) ltac:(lia) H0). lia. }
    rewrite cap_grid in Hm by lia.
    pose proof (Zdigits2_mul_ge 8444249301319680 (Zpos m) ltac:(lia)
                  ltac:(lia)) as Hd.
    change (Zdigits2 8444249301319680) with 53 in Hd.
    rewrite <- Pos2Z.inj_mul in Hd.
    assert (0 < Zdigits2 (Zpos m)) by (simpl; lia).
    apply binary_round_aux_mono; try lia.
    + rewrite cap_grid by lia. rewrite Pos2Z.inj_mul.
      replace (3 - (-48 + e)) with (97 + (-46 - e)) by lia.
      rewrite Z.pow_add_r by lia.
      change (375 * (2 ^ 97 * 2 ^ (-46 - e)))
        with (375 * (158456325028528675187087900672 * 2 ^ (-46 - e))).
      pose proof (Z.pow_pos_nonneg 2 (-46 - e) ltac:(lia) ltac:(lia)).
      nia.
    + intros Hne. congruence.
Qed.

(** Divided by 100.0: from at most 3000 to at most 30. *)
Lemma div_100_at_most (x : float) :
  at_most 375 3 x -> at_most 15 1 (SFdiv prec emax x f100).
Proof.
  destruct x as [s|s| |s m e]; cbn [at_most]; try tauto;
    try (intros ->; reflexivity).
  intros (-> & Hc & He & Hm). unfold f100. cbn [SFdiv xorb].
  assert (He3 : e <= 3).
  { destruct (Z_le_gt_dec e 3) as [|Hpos]; [assumption|exfalso].
    pose proof (cap_coarse 375 3 e ltac:(lia) ltac:(lia)).
    unfold canon in Hc.
    assert (Zdigits2 (Zpos m) = 53) by (simpl; lia).
    pose proof (Zdigits2_53 (Zpos m) ltac:(lia) H0). lia. }
  rewrite cap_grid in Hm by lia.
  pose proof (div_core_value (Zpos m) e 7036874417766400 (-46)
                ltac:(lia) ltac:(lia)) as H.
  destruct (SFdiv_core_binary prec emax (Zpos m) e 7036874417766400 (-46))
    as [[q e'] l].
  destruct H as (r & Hs & Hv & Hr & Hl & Hq & Hpre).
  set (s := e - -46 - e') in *.
  pose proof (Z.pow_pos_nonneg 2 s ltac:(lia) Hs) as Hps.
  pose proof (Z.pow_pos_nonneg 2 (3 - e) ltac:(lia) ltac:(lia)) as Hpe.
  (* q * 25 * 2^48 + r = m * 2^s <= 375 * 2^(3 - e) * 2^s *)
  assert (Hb : q * 7036874417766400 + r <= 375 * 2 ^ (3 - e + s)).
  { rewrite Z.pow_add_r by lia. nia. }
  change 7036874417766400 with (25 * 2 ^ 48) in Hb.
  assert (Hj : 3 - e + s = 48 + (1 - e')) by (subst s; lia).
  apply binary_round_aux_mono; try assumption; try lia.
  - destruct (Z_le_gt_dec e' 1) as [Hle|Hgt].
    + rewrite cap_grid by lia.
      rewrite Hj, Z.pow_add_r in Hb by lia.
      pose proof (Z.pow_pos_nonneg 2 (1 - e') ltac:(lia) ltac:(lia)).
      pose proof (Z.pow_pos_nonneg 2 48 ltac:(lia) ltac:(lia)).
      nia.
    + unfold cap. rewrite Z.shiftl_div_pow2 by lia.
      apply Z.div_le_lower_bound; [apply Z.pow_pos_nonneg; lia|].
      assert (E48 : 2 ^ 48 = 2 ^ (3 - e + s) * 2 ^ (- (1 - e'))).
      { rewrite <- Z.pow_add_r by lia. f_equal. lia. }
      pose proof (Z.pow_pos_nonneg 2 (3 - e + s) ltac:(lia) ltac:(lia)).
      pose proof (Z.pow_pos_nonneg 2 (- (1 - e')) ltac:(lia) ltac:(lia)).
      rewrite E48 in Hb. nia.
  - intros Hne Hle. rewrite cap_grid by lia.
    assert (r <> 0) by (intros Hr0; apply Hne; apply Hl; exact Hr0).
    rewrite Hj, Z.pow_add_r in Hb by lia.
    pose proof (Z.pow_pos_nonneg 2 (1 - e') ltac:(lia) ltac:(lia)).
    pose proof (Z.pow_pos_nonneg 2 48 ltac:(lia) ltac:(lia)).
    nia.
Qed.

(** Truncating a float that is at most 30. *)
Lemma to_int_at_most_30 (y : float) :
  at_most 15 1 y -> exists n, to_int (PyFloat y) = inr n /\ 0 <= n <= 30.
Proof.
  destruct y as [s|s| |s m e]; cbn [at_most]; try tauto.
  - intros _. exists 0. split; [reflexivity|lia].
  - intros (-> & Hc & He & Hm). cbn [to_int ret].
    eexists. split; [reflexivity|].
    destruct (0 <=? e) eqn:H0.
    + apply Z.leb_le in H0.
      destruct (Z_le_gt_dec e 1) as [Hle|Hgt].
      * rewrite cap_grid in Hm by lia.
        assert (e = 0 \/ e = 1) as [-> | ->] by lia; simpl in *; lia.
      * exfalso.
        pose proof (cap_coarse 15 1 e ltac:(lia) ltac:(lia)).
        unfold canon in Hc.
        assert (Zdigits2 (Zpos m) = 53) by (simpl; lia).
        pose proof (Zdigits2_53 (Zpos m) ltac:(lia) H1). lia.
    + apply Z.leb_gt in H0. rewrite cap_grid in Hm by lia.
      pose proof (Z.pow_pos_nonneg 2 (- e) ltac:(lia) ltac:(lia)) as Hp.
      split; [apply Z.div_pos; lia|].
      apply Z.div_le_upper_bound; [lia|].
      replace (1 - e) with (1 + - e) in Hm by lia.
      rewrite Z.pow_add_r in Hm by lia. change (2 ^ 1) with 2 in Hm. nia.
Qed.

(** A project within its quota fills at most the 30 cells. *)
Lemma filled_length_within_quota (storage_quota total_used : Z) :
  0 < storage_quota -> 0 <= total_used <= storage_quota ->
  exists q,
    int_truediv total_used storage_quota = inr q
    /\ exists n,
        filled_length_of (PyFloat (SFmul prec emax q f100)) = inr n
        /\ 0 <= n <= 30.
Proof.
  intros Hq Ht.
  destruct (int_truediv_at_most_1 total_used storage_quota Ht Hq)
    as (q & Eq & Aq).
  exists q. split; [exact Eq|].
  pose proof (mul_100_at_most q Aq) as Ap.
  pose proof (mul_30_at_most _ Ap) as Ax.
  pose proof (div_100_at_most _ Ax) as Ay.
  destruct (to_int_at_most_30 _ Ay) as (n & En & Hn).
  exists n. split; [|exact Hn].
  unfold filled_length_of, bar_length, mul. cbn [to_float].
  change (int_to_float 30) with (@inr exn float f30).
  cbn [bind ret]. unfold truediv. cbn [to_float].
  change (int_to_float 100) with (@inr exn float f100).
  cbn [bind ret]. exact En.
Qed.

End MonotoneFacts.

(** ** Size formatting *)

Section SizeFacts.

Lemma last_app_cons {A} (a : list A) (x : A) (b : list A) (d : A) :
  last (a ++ x :: b) d = last (x :: b) d.
Proof.
  induction a as [|y a IH].
  - reflexivity.
  - cbn [app]. rewrite <- IH. cbn [last].
    destruct (a ++ x :: b) eqn:E; [|reflexivity].
    destruct a; discriminate.
Qed.

(** What [format_size] can raise. *)

Lemma last_app_nonempty {A} (a b : list A) (d : A) :
  b <> [] -> last (a ++ b) d = last b d.
Proof.
  destruct b as [|x b]; [congruence|]. intros _. apply last_app_cons.
Qed.

Lemma int_to_float_error (z : Z) (e : exn) :
  int_to_float z = inl e -> e = OverflowError.
Proof.
  unfold int_to_float, ret, raise.
  destruct (binary_normalize prec emax z 0 false);
    intros H; now inversion H.
Qed.

Lemma to_float_error (a : pynum) (e : exn) :
  to_float a = inl e -> e = OverflowError.
Proof.
  destruct a as [z|f]; cbn [to_float ret].
  - apply int_to_float_error.
  - discriminate.
Qed.

Lemma format_f_error (d : nat) (a : pynum) (e : exn) :
  format_f d a = inl e -> e = OverflowError.
Proof.
  unfold format_f. destruct (to_float a) as [e'|x] eqn:E; cbn [bind ret].
  - intros H; injection H as <-. now apply (to_float_error a).
  - discriminate.
Qed.

(** Division by the literal [1024.0] only fails when the dividend is an
    int too large for a float. *)
Lemma truediv_f1024 (a : pynum) :
  truediv a (PyFloat f1024)
  = (x <- to_float a ;; ret (PyFloat (SFdiv prec emax x f1024)))%res.
Proof.
  destruct a as [z|f]; unfold truediv; cbn [to_float];
    (destruct (int_to_float z) || idtac); reflexivity.
Qed.

Lemma truediv_f1024_error (a : pynum) (e : exn) :
  truediv a (PyFloat f1024) = inl e -> e = OverflowError.
Proof.
  rewrite truediv_f1024.
  destruct (to_float a) as [e'|x] eqn:E; cbn [bind ret].
  - intros H; injection H as <-. now apply (to_float_error a).
  - discriminate.
Qed.

Lemma format_size_loop_error (us : list str) (v : pynum) (e : exn) :
  format_size_loop us v = inl e -> e = OverflowError.
Proof.
  revert v. induction us as [|u us IH]; intros v; cbn [format_size_loop].
  - destruct (format_f 2 v) as [e'|t] eqn:E; cbn [bind ret].
    + intros H; injection H as <-. now apply (format_f_error 2 v).
    + discriminate.
  - destruct (PyNum.lt v (PyFloat f1024)).
    + destruct (format_f 2 v) as [e'|t] eqn:E; cbn [bind ret].
      * intros H; injection H as <-. now apply (format_f_error 2 v).
      * discriminate.
    + destruct (truediv v (PyFloat f1024)) as [e'|b] eqn:E; cbn [bind].
      * intros H; injection H as <-. now apply (truediv_f1024_error v).
      * apply IH.
Qed.

Lemma format_size_error (b : Z) (e : exn) :
  format_size b = inl e -> e = OverflowError.
Proof.
  unfold format_size. destruct (b =? 0).
  - discriminate.
  - apply format_size_loop_error.
Qed.

Lemma uint_str_digits (u : Decimal.uint) :
  forallb is_digit (uint_str u) = true.
Proof. induction u; simpl; auto. Qed.

Lemma uint_str_nonempty (u : Decimal.uint) :
  u <> Decimal.Nil -> uint_str u <> [].
Proof. destruct u; simpl; congruence. Qed.

Lemma int_str_digits (z : Z) :
  0 <= z -> int_str z <> [] /\ forallb is_digit (int_str z) = true.
Proof.
  destruct z as [|p|p]; intros H; [| |lia].
  - split; [discriminate|reflexivity].
  - cbn [int_str]. split.
    + apply uint_str_nonempty. apply DecimalPos.Unsigned.to_uint_nonnil.
    + apply uint_str_digits.
Qed.

Lemma two_digit_fraction (r : Z) :
  0 <= r < 100 ->
  exists d1 d2,
    repeat zero_digit (2 - List.length (int_str r)) ++ int_str r = [d1; d2]
    /\ is_digit d1 = true /\ is_digit d2 = true.
Proof.
  intros Hr.
  set (ok := fun k : nat =>
               match repeat zero_digit (2 - List.length (int_str (Z.of_nat k)))
                     ++ int_str (Z.of_nat k) with
               | [d1; d2] => is_digit d1 && is_digit d2
               | _ => false
               end).
  assert (A : forallb ok (seq 0 100) = true) by (vm_compute; reflexivity).
  rewrite forallb_forall in A.
  specialize (A (Z.to_nat r)). unfold ok in A.
  rewrite Z2Nat.id in A by lia.
  destruct (repeat zero_digit (2 - List.length (int_str r)) ++ int_str r)
    as [|d1 [|d2 [|d3 l]]];
    try (assert (false = true) by (apply A; apply in_seq; lia); discriminate).
  exists d1, d2. split; [reflexivity|].
  apply andb_true_iff. apply A. apply in_seq. lia.
Qed.

Lemma round_half_even_nonneg (num den : Z) :
  0 <= num -> 0 < den -> 0 <= round_half_even num den.
Proof.
  intros Hn Hd. unfold round_half_even.
  assert (0 <= num / den) by (apply Z.div_pos; lia).
  destruct (2 * (num mod den) ?= den); [destruct (Z.even _)| |]; lia.
Qed.

(** A float in range is printed with exactly two decimals. *)
Lemma format_in_range_two_decimals (x : float) :
  in_range x -> two_decimals (float_format_f 2 x).
Proof.
  assert (S : forall s n, 0 <= n -> two_decimals (sign_str s ++ fixed_digits 2 n)).
  { intros s n Hn. unfold fixed_digits. change (10 ^ Z.of_nat 2) with 100.
    destruct (two_digit_fraction (n mod 100)) as (d1 & d2 & E & H1 & H2).
    { apply Z.mod_pos_bound. lia. }
    cbv zeta. rewrite E.
    destruct (int_str_digits (n / 100)) as [Hne Hd].
    { apply Z.div_pos; lia. }
    exists (sign_str s), (int_str (n / 100)), d1, d2.
    repeat split; auto. destruct s; auto. }
  destruct x as [s|s| |s m e]; cbn [in_range float_format_f]; try tauto.
  - intros _. apply S. lia.
  - intros _. apply S. change (10 ^ Z.of_nat 2) with 100.
    destruct (0 <=? e) eqn:He.
    + apply Z.leb_le in He.
      pose proof (Z.pow_nonneg 2 e ltac:(lia)). nia.
    + apply Z.leb_gt in He. apply round_half_even_nonneg; [lia|].
      apply Z.pow_pos_nonneg; lia.
Qed.

Lemma representable_format (v : pynum) :
  representable v ->
  exists t, format_f 2 v = inr t /\ two_decimals t.
Proof.
  intros (x & E & R). unfold format_f. rewrite E. cbn [bind ret].
  eexists. split; [reflexivity|]. now apply format_in_range_two_decimals.
Qed.

Lemma representable_int (z : Z) (x : float) :
  int_to_float z = inr x -> representable (PyInt z).
Proof.
  intros E. exists x. split; [exact E|].
  now apply (int_to_float_in_range z).
Qed.

Lemma representable_div (v : pynum) :
  representable v ->
  exists v', truediv v (PyFloat f1024) = inr v' /\ representable v'.
Proof.
  intros (x & E & R). rewrite truediv_f1024, E. cbn [bind ret].
  eexists. split; [reflexivity|].
  eexists. split; [reflexivity|]. now apply div_f1024_in_range.
Qed.

(** On representable numbers [not (v < 1024.0)] is [v >= 1024.0]. *)
Lemma representable_lt_ge (v : pynum) :
  representable v ->
  PyNum.lt v (PyFloat f1024) = negb (PyNum.ge v (PyFloat f1024)).
Proof.
  intros (x & E & R). unfold PyNum.lt, PyNum.ge.
  destruct v as [z|f].
  - cbn [PyNum.compare]. unfold f1024. cbn [Z_float_compare].
    change (0 <=? -42) with false. cbv iota.
    destruct (z * 2 ^ (- (-42)) ?= 4503599627370496); reflexivity.
  - cbn [to_float ret] in E. injection E as ->.
    cbn [PyNum.compare]. unfold f1024.
    destruct x as [s|s| |s m e]; cbn [in_range] in R;
      try tauto; try reflexivity.
    cbn [SFcompare].
    destruct s; [reflexivity|].
    destruct (e ?= -42); try reflexivity.
    destruct (Pos.compare_cont Eq m 4503599627370496); reflexivity.
Qed.

(** The loop of [format_size] chooses the unit the way the specification
    words it, and prints the scaled value with two decimals. *)
Lemma format_size_loop_refines (rest : list str) :
  forall (unit : str) (v : pynum),
    representable v ->
    exists v' unit' t,
      choose_unit v unit (rest ++ [lit "PB"]) = inr (v', unit')
      /\ In unit' (unit :: rest ++ [lit "PB"])
      /\ format_f 2 v' = inr t
      /\ two_decimals t
      /\ format_size_loop (unit :: rest) v = inr (t ++ lit " " ++ unit').
Proof.
  induction rest as [|next rest IH]; intros unit v Hv.
  - cbn [app choose_unit format_size_loop].
    rewrite (representable_lt_ge v Hv).
    destruct (PyNum.ge v (PyFloat f1024)); cbn [negb].
    + destruct (representable_div v Hv) as (v' & Ed & Hv').
      rewrite Ed. cbn [bind ret].
      destruct (representable_format v' Hv') as (t & Et & Ht).
      exists v', (lit "PB"), t. rewrite Et. cbn [bind ret].
      repeat split; auto. right; left; reflexivity.
    + destruct (representable_format v Hv) as (t & Et & Ht).
      exists v, unit, t. rewrite Et. cbn [bind ret].
      repeat split; auto. left; reflexivity.
  - cbn [app choose_unit].
    change (format_size_loop (unit :: next :: rest) v)
      with (if PyNum.lt v (PyFloat f1024)
            then (t <- format_f 2 v ;; ret (t ++ lit " " ++ unit))%res
            else (b <- truediv v (PyFloat f1024) ;;
                  format_size_loop (next :: rest) b)%res).
    rewrite (representable_lt_ge v Hv).
    destruct (PyNum.ge v (PyFloat f1024)); cbn [negb].
    + destruct (representable_div v Hv) as (v' & Ed & Hv').
      rewrite Ed. cbn [bind].
      destruct (IH next v' Hv') as (v2 & u2 & t & E1 & E2 & E3 & E4 & E5).
      exists v2, u2, t. repeat split; auto. right; exact E2.
    + destruct (representable_format v Hv) as (t & Et & Ht).
      exists v, unit, t. rewrite Et. cbn [bind ret].
      repeat split; auto. left; reflexivity.
Qed.

(** [format_size] returns on every int within the range of a float. *)
Lemma format_size_defined (b : Z) :
  - 2 ^ 1023 < b < 2 ^ 1023 -> exists t, format_size b = inr t.
Proof.
  intros Hb. unfold format_size. destruct (b =? 0).
  - eexists. reflexivity.
  - destruct (int_to_float_defined b Hb) as [x E].
    destruct (format_size_loop_refines
                [lit "KB"; lit "MB"; lit "GB"; lit "TB"] (lit "B") (PyInt b)
                (representable_int b x E))
      as (v & u & t & _ & _ & _ & _ & H).
    eexists. exact H.
Qed.

(** [format_size] returns exactly on the ints that convert to a float. *)
Lemma format_size_of_float (b : Z) (x : float) :
  int_to_float b = inr x -> exists t, format_size b = inr t.
Proof.
  intros E. unfold format_size. destruct (b =? 0).
  - eexists. reflexivity.
  - destruct (format_size_loop_refines
                [lit "KB"; lit "MB"; lit "GB"; lit "TB"] (lit "B") (PyInt b)
                (representable_int b x E))
      as (v & u & t & _ & _ & _ & _ & H).
    eexists. exact H.
Qed.

Lemma format_size_without_float (b : Z) (e : exn) :
  int_to_float b = inl e -> format_size b = inl e.
Proof.
  intros E. unfold format_size.
  destruct (Z.eqb_spec b 0) as [->|Hb]; [discriminate E|].
  unfold units.
  change (format_size_loop (lit "B" :: ?r) ?v)
    with (if PyNum.lt v (PyFloat f1024)
          then (t <- format_f 2 v ;; ret (t ++ lit " " ++ lit "B"))%res
          else (b <- truediv v (PyFloat f1024) ;;
                format_size_loop r b)%res).
  destruct (PyNum.lt (PyInt b) (PyFloat f1024)).
  - unfold format_f. cbn [to_float]. now rewrite E.
  - unfold truediv. cbn [to_float]. now rewrite E.
Qed.

End SizeFacts.

(** C4, as the code has it.  [format_size 0] is ["0 B"].  Every other
    byte count that converts to a float (every count below 2^1023 does)
    is printed with exactly two decimals and the unit reached from [B] by
    dividing by 1024 while the value is at least 1024 and one of [KB],
    [MB], [GB], [TB], [PB] is still ahead; nothing is divided once [PB]
    is reached.  So 1023 gives ["1023.00 B"], 1024 gives ["1.00 KB"] and
    1024 * 1024 gives ["1.00 MB"]. *)
Theorem format_size_spec :
  format_size 0 = inr (lit "0 B")
  /\ (forall (b : Z) (x : float),
         0 < b -> int_to_float b = inr x ->
         exists (v : pynum) (unit t : str),
           choose_unit (PyInt b) (lit "B") larger_units = inr (v, unit)
           /\ In unit (lit "B" :: larger_units)
           /\ format_f 2 v = inr t
           /\ two_decimals t
           /\ format_size b = inr (t ++ lit " " ++ unit))
  /\ (forall b : Z, 0 < b < 2 ^ 1023 -> exists x, int_to_float b = inr x)
  /\ format_size 1023 = inr (lit "1023.00 B")
  /\ format_size 1024 = inr (lit "1.00 KB")
  /\ format_size (1024 * 1024) = inr (lit "1.00 MB").
Proof.
  split; [reflexivity|].
  split; [|split; [|repeat split; vm_compute; reflexivity]].
  - intros b x Hb Hx. unfold format_size.
    replace (b =? 0) with false by (symmetry; apply Z.eqb_neq; lia).
    exact (format_size_loop_refines
             [lit "KB"; lit "MB"; lit "GB"; lit "TB"] (lit "B") (PyInt b)
             (representable_int b x Hx)).
  - intros b Hb. apply int_to_float_defined. lia.
Qed.

Lemma format_size_spec_witness :
  exists (v : pynum) (unit t : str),
    choose_unit (PyInt 1536) (lit "B") larger_units = inr (v, unit)
    /\ In unit (lit "B" :: larger_units)
    /\ format_f 2 v = inr t
    /\ two_decimals t
    /\ format_size 1536 = inr (t ++ lit " " ++ unit).
Proof.
  apply (proj1 (proj2 format_size_spec) 1536
           (S754_finite false 6755399441055744 (-42))).
  - reflexivity.
  - vm_compute. reflexivity.
Defined.

(** A byte count of 2^1024 is not formatted: the division by [1024.0]
    cannot convert it to a float. *)
Lemma format_size_overflows :
  format_size (2 ^ 1024) = inl OverflowError
  /\ ~ (exists t : str, format_size (2 ^ 1024) = inr t).
Proof.
  assert (E : format_size (2 ^ 1024) = inl OverflowError)
    by (vm_compute; reflexivity).
  split; [exact E|]. intros [t H]. rewrite E in H. discriminate.
Qed.

(** ** Rendering a project *)

Section RenderFacts.

Lemma bar_line_ends (l : str) :
  bar_line l -> hd 0 l = 20351 /\ last l 0 = 37.
Proof.
  intros (bar & t & ->). split.
  - reflexivity.
  - change (lit "%") with [37].
    rewrite !app_assoc. now rewrite last_app_cons.
Qed.

Lemma warning_line_ends (l : str) :
  warning_line l ->
  (hd 0 l = 128308 \/ hd 0 l = 128993)
  /\ (last l 0 = 29702 \/ last l 0 = 37).
Proof.
  intros [->| ->]; vm_compute; auto.
Qed.

(** A line is neither the bar line nor a warning line as soon as its
    first or its last character tells it apart. *)
Lemma plain_by_head (l : str) :
  hd 0 l <> 20351 -> hd 0 l <> 128308 -> hd 0 l <> 128993 ->
  ~ bar_line l /\ ~ warning_line l.
Proof.
  intros H1 H2 H3. split; intros H.
  - apply bar_line_ends in H. tauto.
  - apply warning_line_ends in H. tauto.
Qed.

Lemma plain_by_last (l : str) :
  last l 0 <> 37 -> last l 0 <> 29702 ->
  ~ bar_line l /\ ~ warning_line l.
Proof.
  intros H1 H2. split; intros H.
  - apply bar_line_ends in H. tauto.
  - apply warning_line_ends in H. tauto.
Qed.

Lemma lift_bind {A B} (a : A) (k : A -> IO B) :
  io_bind (lift (inr a)) k = k a.
Proof. unfold lift, io_bind. now destruct (k a). Qed.

(** The column widths of the table are indices: the four paddings of a
    row, and those of the header, are built. *)
Lemma print_repo_row_run (storage_quota : Z) (repo : Repo) :
  print_repo_row storage_quota repo
  = (let repo_used := get (usedSpaceInBytes repo) 0 in
     percent_display <- lift (row_percent_display storage_quota repo_used) ;;
     key <- lift (match repoKey repo with
                  | Some k => ret k
                  | None => raise KeyError
                  end) ;;
     size <- lift (format_size repo_used) ;;
     print (padded key 25 ++ lit " "
            ++ padded (get (repoType repo) (lit "N/A")) 12 ++ lit " "
            ++ padded size 18 ++ lit " " ++ padded percent_display 12))%io.
Proof.
  unfold print_repo_row. cbv zeta.
  match goal with
  | |- io_bind (lift ?c) _ = _ => destruct c as [e|percent_display]
  end; [reflexivity|].
  cbn [lift io_bind].
  destruct (repoKey repo) as [key|]; cbn [ret raise]; [|reflexivity].
  rewrite !pad_string_left by (rewrite maxsize_eq; lia).
  cbn [app].
  destruct (format_size _) as [e|size]; [reflexivity|].
  rewrite !pad_string_left by (rewrite maxsize_eq; lia).
  reflexivity.
Qed.

Lemma print_repo_details_run (storage_quota : Z) (repos : list Repo) :
  print_repo_details storage_quota repos
  = (print (nl :: lit "仓库详情:") ;;
     print (padded (lit "仓库名称") 25 ++ lit " " ++ padded (lit "类型") 12
            ++ lit " " ++ padded (lit "使用空间") 18 ++ lit " "
            ++ padded (lit "占比") 12) ;;
     print dash_line ;;
     for_each repos (print_repo_row storage_quota))%io.
Proof.
  unfold print_repo_details.
  rewrite !pad_string_left by (rewrite maxsize_eq; lia).
  now rewrite !lift_bind.
Qed.

(** With no positive quota the percentage is the integer 0 and the quota
    is displayed as the unlimited literal: nothing is divided. *)
Lemma percent_unlimited (storage_quota total_used : Z) :
  storage_quota <= 0 ->
  percent_and_quota_display storage_quota total_used
  = inr (PyInt 0, lit "无限制").
Proof.
  intros H. unfold percent_and_quota_display.
  replace (storage_quota >? 0) with false; [reflexivity|].
  symmetry. rewrite Z.gtb_ltb. apply Z.ltb_ge. exact H.
Qed.

(** The run of [print_project_usage] on a project without a positive
    quota. *)
Lemma print_unlimited
    (project : Project) (storage_info : StorageInfo) (show_details : bool) :
  storage_quota_bytes project <= 0 ->
  let usage := calculate_project_usage (Data.project_key project) storage_info in
  let head :=
    [nl :: separator_line;
     lit "项目名称: " ++ green ++ display_name project ++ reset_code
       ++ lit " (" ++ Data.project_key project ++ lit ")";
     lit "存储限制: 无限制"] in
  print_project_usage project storage_info show_details
  = match format_size (total_used_bytes usage) with
    | inl e => (head, inl e)
    | inr used =>
        let details :=
          if show_details && is_nonempty (repositories usage)
          then print_repo_details (storage_quota_bytes project)
                 (repositories usage)
          else io_ret tt in
        (head
         ++ [lit "已用空间: " ++ used;
             lit "仓库数量: " ++ int_str (repo_count usage);
             lit "使用比例: 无限制"]
         ++ printed details,
         outcome details)
    end.
Proof.
  intros H. cbv zeta. unfold print_project_usage.
  rewrite (percent_unlimited _ _ H).
  replace (storage_quota_bytes project >? 0) with false
    by (symmetry; rewrite Z.gtb_ltb; apply Z.ltb_ge; exact H).
  cbn [lift io_bind print fst snd app].
  change (get_project_name_color (PyInt 0)) with green.
  destruct (format_size _) as [e|used]; [reflexivity|].
  cbn [lift io_bind print fst snd app].
  match goal with
  | |- context [if ?c then ?a else ?b] => destruct (if c then a else b) as [out r]
  end.
  reflexivity.
Qed.

(** *** The repository table when the quota is not positive *)

Lemma print_repo_row_unlimited (storage_quota : Z) (repo : Repo) :
  storage_quota <= 0 ->
  print_repo_row storage_quota repo
  = match repoKey repo with
    | None => ([], inl KeyError)
    | Some key =>
        match format_size (get (usedSpaceInBytes repo) 0) with
        | inl e => ([], inl e)
        | inr size =>
            ([padded key 25 ++ lit " "
              ++ padded (get (repoType repo) (lit "N/A")) 12
              ++ lit " " ++ padded size 18 ++ lit " "
              ++ padded (lit "N/A") 12],
             inr tt)
        end
    end.
Proof.
  intros H. rewrite print_repo_row_run. cbv zeta.
  unfold row_percent_display.
  replace (storage_quota >? 0) with false
    by (symmetry; rewrite Z.gtb_ltb; apply Z.ltb_ge; exact H).
  cbn [lift io_bind ret].
  destruct (repoKey repo) as [key|]; cbn [lift io_bind ret raise];
    [|reflexivity].
  destruct (format_size _) as [e|size]; reflexivity.
Qed.

Lemma quiet_bind (c : IO unit) (k : unit -> IO unit) :
  quiet c -> (forall u, quiet (k u)) -> quiet (io_bind c k).
Proof.
  intros [Ho Hp] Hk. destruct c as [out [e|[]]]; cbn [io_bind].
  - split; assumption.
  - destruct (Hk tt) as [Ho' Hp']. destruct (k tt) as [out' r].
    split; [exact Ho'|].
    intros l Hl. apply in_app_or in Hl. destruct Hl; auto.
Qed.

Lemma quiet_row (storage_quota : Z) (repo : Repo) :
  storage_quota <= 0 -> quiet (print_repo_row storage_quota repo).
Proof.
  intros H. rewrite (print_repo_row_unlimited _ _ H).
  destruct (repoKey repo) as [key|].
  - destruct (format_size _) as [e|size] eqn:E.
    + split; [|intros l []]. cbn [outcome snd]. intros Hz.
      injection Hz as ->. apply format_size_error in E. discriminate.
    + split; [discriminate|]. intros l [<-|[]].
      apply plain_by_last;
        rewrite !app_assoc; rewrite last_app_nonempty by discriminate;
        vm_compute; discriminate.
  - split; [discriminate|intros l []].
Qed.

Lemma quiet_rows (storage_quota : Z) (repos : list Repo) :
  storage_quota <= 0 ->
  quiet (for_each repos (print_repo_row storage_quota)).
Proof.
  intros H. induction repos as [|r repos IH]; cbn [for_each].
  - split; [discriminate|intros l []].
  - apply quiet_bind; [now apply quiet_row|intros _; exact IH].
Qed.

Lemma quiet_details (storage_quota : Z) (repos : list Repo) :
  storage_quota <= 0 -> quiet (print_repo_details storage_quota repos).
Proof.
  intros H. rewrite print_repo_details_run.
  assert (P : forall s, (~ bar_line s /\ ~ warning_line s) ->
                        quiet (print s)).
  { intros s Hs. split; [discriminate|]. now intros l [<-|[]]. }
  repeat (apply quiet_bind; [|intros _]).
  - apply P. apply plain_by_head; vm_compute; discriminate.
  - apply P. apply plain_by_last; vm_compute; discriminate.
  - apply P. apply plain_by_last; vm_compute; discriminate.
  - now apply quiet_rows.
Qed.

End RenderFacts.

(** C10. For a project whose quota is not positive the percentage handed
    to the colour selector is the constant 0, so the name line, the
    second line printed, always carries the green (normal tier) colour,
    whatever the storage records say the project uses. *)
Theorem unlimited_quota_name_is_green
    (project : Project) (storage_info : StorageInfo) (show_details : bool) :
  storage_quota_bytes project <= 0 ->
  let usage := calculate_project_usage (Data.project_key project) storage_info in
  (exists quota_display,
      percent_and_quota_display (storage_quota_bytes project)
        (total_used_bytes usage)
      = inr (PyInt 0, quota_display))
  /\ get_project_name_color (PyInt 0) = tier_color Normal
  /\ nth 1 (printed (print_project_usage project storage_info show_details)) []
     = lit "项目名称: " ++ green ++ display_name project ++ reset_code
       ++ lit " (" ++ Data.project_key project ++ lit ")".
Proof.
  intros H usage. split; [|split].
  - eexists. apply percent_unlimited. exact H.
  - reflexivity.
  - rewrite (print_unlimited project storage_info show_details H).
    cbv zeta. destruct (format_size _); reflexivity.
Qed.

Lemma unlimited_quota_name_witness :
  nth 1 (printed
           (print_project_usage
              {| project_key := lit "p2"; display_name := lit "Second";
                 storage_quota_bytes := 0 |}
              {| repositoriesSummaryList :=
                   Some [ {| projectKey := Some (lit "p2");
                             repoKey := Some (lit "big");
                             repoType := None;
                             usedSpaceInBytes := Some 123456789 |} ] |}
              false)) []
  = lit "项目名称: " ++ green ++ lit "Second" ++ reset_code
    ++ lit " (" ++ lit "p2" ++ lit ")".
Proof.
  apply (unlimited_quota_name_is_green
           {| project_key := lit "p2"; display_name := lit "Second";
              storage_quota_bytes := 0 |}).
  vm_compute. discriminate.
Defined.

(** C2, as the code has it.  Rendering a project whose quota is not
    positive divides nothing by the quota: the percentage is the constant
    0 (with a quota of 0 the division would raise [ZeroDivisionError],
    and the run never does), the quota line shows the unlimited literal,
    and no printed line is the usage bar or a threshold warning.  When
    the bytes used convert to a float (every total below 2^1023 in
    absolute value does), the block is the separator, the
    name, the quota, the used space, the repository count and the usage
    line with the unlimited literal, followed only by the repository
    table when it is asked for.  When they do not, the used-space line
    raises [OverflowError] after the first three lines. *)
Theorem unlimited_quota_rendering
    (project : Project) (storage_info : StorageInfo) (show_details : bool) :
  storage_quota_bytes project <= 0 ->
  let usage := calculate_project_usage (Data.project_key project) storage_info in
  let run := print_project_usage project storage_info show_details in
  let head :=
    [nl :: separator_line;
     lit "项目名称: " ++ green ++ display_name project ++ reset_code
       ++ lit " (" ++ Data.project_key project ++ lit ")";
     lit "存储限制: 无限制"] in
  percent_and_quota_display (storage_quota_bytes project)
    (total_used_bytes usage)
  = inr (PyInt 0, lit "无限制")
  /\ (storage_quota_bytes project = 0 ->
      truediv (PyInt (total_used_bytes usage))
        (PyInt (storage_quota_bytes project))
      = inl ZeroDivisionError)
  /\ outcome run <> inl ZeroDivisionError
  /\ (forall l, In l (printed run) -> ~ bar_line l /\ ~ warning_line l)
  /\ firstn 3 (printed run) = head
  /\ (forall x : float,
         int_to_float (total_used_bytes usage) = inr x ->
         exists used,
           format_size (total_used_bytes usage) = inr used
           /\ firstn 6 (printed run)
              = head
                ++ [lit "已用空间: " ++ used;
                    lit "仓库数量: " ++ int_str (repo_count usage);
                    lit "使用比例: 无限制"]
           /\ (show_details = false ->
               List.length (printed run) = 6%nat /\ outcome run = inr tt))
  /\ (forall e : exn,
         int_to_float (total_used_bytes usage) = inl e ->
         printed run = head /\ outcome run = inl OverflowError)
  /\ (- 2 ^ 1023 < total_used_bytes usage < 2 ^ 1023 ->
      exists x, int_to_float (total_used_bytes usage) = inr x).
Proof.
  intros H usage run head.
  split; [now apply percent_unlimited|].
  split; [intros ->; reflexivity|].
  assert (D : - 2 ^ 1023 < total_used_bytes usage < 2 ^ 1023 ->
              exists x, int_to_float (total_used_bytes usage) = inr x)
    by apply int_to_float_defined.
  subst run. rewrite (print_unlimited project storage_info show_details H).
  cbv zeta. fold usage. fold head.
  destruct (format_size (total_used_bytes usage)) as [e|used] eqn:E.
  - split; [|split; [|split; [|split; [|split; [|exact D]]]]].
    + cbn [outcome snd]. intros Hz. injection Hz as ->.
      apply format_size_error in E. discriminate.
    + cbn [printed fst].
      intros l [<-|[<-|[<-|[]]]].
      * apply plain_by_head; vm_compute; discriminate.
      * apply plain_by_head; vm_compute; discriminate.
      * apply plain_by_last; vm_compute; discriminate.
    + reflexivity.
    + intros x Hx. destruct (format_size_of_float _ _ Hx) as [used Hu].
      rewrite E in Hu. discriminate.
    + intros e' _. apply format_size_error in E. subst e.
      split; reflexivity.
  - set (details := if show_details && is_nonempty (repositories usage)
                    then print_repo_details (storage_quota_bytes project)
                           (repositories usage)
                    else io_ret tt).
    assert (Q : quiet details).
    { subst details.
      destruct (show_details && is_nonempty (repositories usage)).
      - now apply quiet_details.
      - split; [discriminate|intros l []]. }
    destruct Q as [Qo Qp].
    split; [exact Qo|].
    split; [|split; [reflexivity|split; [|split; [|exact D]]]].
    + cbn [printed fst app].
      intros l [<-|[<-|[<-|[<-|[<-|[<-|Hl]]]]]].
      * apply plain_by_head; vm_compute; discriminate.
      * apply plain_by_head; vm_compute; discriminate.
      * apply plain_by_last; vm_compute; discriminate.
      * apply plain_by_head; vm_compute; discriminate.
      * apply plain_by_head; vm_compute; discriminate.
      * apply plain_by_last; vm_compute; discriminate.
      * now apply Qp.
    + intros x _. exists used. split; [reflexivity|].
      split; [reflexivity|].
      intros ->. subst details. cbn [andb io_ret printed outcome fst snd].
      split; reflexivity.
    + intros e He. apply format_size_without_float in He.
      rewrite E in He. discriminate.
Qed.

Lemma unlimited_quota_rendering_witness :
  let p2 := {| project_key := lit "p2"; display_name := lit "p2";
               storage_quota_bytes := 0 |} in
  let run := print_project_usage p2 {| repositoriesSummaryList := Some [] |}
               false in
  storage_quota_bytes p2 <= 0
  /\ outcome run <> inl ZeroDivisionError
  /\ (forall l, In l (printed run) -> ~ bar_line l /\ ~ warning_line l)
  /\ nth 5 (printed run) [] = lit "使用比例: 无限制"
  /\ List.length (printed run) = 6%nat
  /\ outcome run = inr tt.
Proof.
  intros p2 run.
  assert (Hq : storage_quota_bytes p2 <= 0) by (vm_compute; discriminate).
  split; [exact Hq|].
  pose proof (unlimited_quota_rendering p2
                {| repositoriesSummaryList := Some [] |} false Hq) as H.
  cbv zeta in H. fold run in H.
  destruct H as (_ & _ & Ho & Hp & _ & H6 & _ & _).
  destruct (H6 (S754_zero false) eq_refl) as (used & _ & _ & Hl).
  destruct (Hl eq_refl) as [Hlen Hout].
  split; [exact Ho|]. split; [exact Hp|].
  split; [vm_compute; reflexivity|]. split; assumption.
Defined.

(** A project without a quota whose records add up to 2^1024 bytes: the
    used-space line cannot be formatted, the block stops after three
    lines, and the usage line with the unlimited literal is not
    printed. *)
Lemma unlimited_quota_overflow :
  let p2 := {| project_key := lit "p2"; display_name := lit "p2";
               storage_quota_bytes := 0 |} in
  let info :=
    {| repositoriesSummaryList :=
         Some [ {| projectKey := Some (lit "p2");
                   repoKey := Some (lit "r1"); repoType := None;
                   usedSpaceInBytes := Some (2 ^ 1024) |} ] |} in
  let run := print_project_usage p2 info false in
  storage_quota_bytes p2 <= 0
  /\ outcome run = inl OverflowError
  /\ List.length (printed run) = 3%nat
  /\ ~ In (lit "使用比例: 无限制") (printed run).
Proof.
  intros p2 info run.
  split; [vm_compute; discriminate|].
  split; [vm_compute; reflexivity|].
  split; [vm_compute; reflexivity|].
  intros Hin. vm_compute in Hin.
  destruct Hin as [Hin|[Hin|[Hin|[]]]]; discriminate Hin.
Qed.

(** ** The usage bar *)

Section BarFacts.

Lemma percent_limited (storage_quota total_used : Z) (p : pynum) (qd : str) :
  0 < storage_quota ->
  percent_and_quota_display storage_quota total_used = inr (p, qd) ->
  exists q,
    int_truediv total_used storage_quota = inr q
    /\ p = PyFloat (SFmul prec emax q f100)
    /\ format_size storage_quota = inr qd.
Proof.
  intros Hq. unfold percent_and_quota_display.
  replace (storage_quota >? 0) with true
    by (symmetry; rewrite Z.gtb_ltb; apply Z.ltb_lt; exact Hq).
  unfold truediv.
  destruct (int_truediv total_used storage_quota) as [e|q];
    cbn [bind ret]; [discriminate|].
  unfold mul. cbn [to_float bind ret].
  change (int_to_float 100) with (@inr exn float f100).
  cbn [bind ret].
  destruct (format_size storage_quota) as [e|qd']; cbn [bind ret];
    [discriminate|].
  intros E; injection E as <- <-. exists q. auto.
Qed.

(** The bar is built as long as both counts are indices. *)
Lemma bar_of_cells (n : Z) :
  bar_length - maxsize <= n <= maxsize -> bar_of n = inr (bar_cells n).
Proof.
  unfold bar_of, bar_cells, bar_length. rewrite maxsize_eq. intros Hn.
  change (lit "█") with [9608]. change (lit "░") with [9617].
  rewrite !times_one_char by (rewrite maxsize_eq; lia).
  reflexivity.
Qed.

Lemma bar_cells_length (n : Z) :
  0 <= n <= bar_length -> List.length (bar_cells n) = 30%nat.
Proof.
  unfold bar_cells, bar_length. intros Hn.
  rewrite length_app, !repeat_length. lia.
Qed.

(** The run of [print_project_usage] on a project with a positive quota,
    up to the bar line. *)
Lemma print_limited
    (project : Project) (storage_info : StorageInfo) (show_details : bool)
    (p : pynum) (qd used : str) (n : Z) (bar : str) :
  let usage := calculate_project_usage (Data.project_key project) storage_info in
  0 < storage_quota_bytes project ->
  percent_and_quota_display (storage_quota_bytes project)
    (total_used_bytes usage) = inr (p, qd) ->
  format_size (total_used_bytes usage) = inr used ->
  filled_length_of p = inr n ->
  bar_of n = inr bar ->
  exists t2 t1 rest r,
    format_f 2 p = inr t2 /\ format_f 1 p = inr t1
    /\ print_project_usage project storage_info show_details
       = ([nl :: separator_line;
           lit "项目名称: " ++ get_project_name_color p
             ++ display_name project ++ reset_code
             ++ lit " (" ++ Data.project_key project ++ lit ")";
           lit "存储限制: " ++ qd;
           lit "已用空间: " ++ used;
           lit "仓库数量: " ++ int_str (repo_count usage);
           lit "使用比例: " ++ t2 ++ lit "%";
           lit "使用情况: [" ++ bar ++ lit "] " ++ t1 ++ lit "%"]
          ++ rest, r).
Proof.
  intros usage Hq Hp Hu Hn Hb.
  destruct (percent_limited _ _ _ _ Hq Hp) as (q & _ & Ep & _).
  unfold print_project_usage. fold usage. rewrite Hp.
  replace (storage_quota_bytes project >? 0) with true
    by (symmetry; rewrite Z.gtb_ltb; apply Z.ltb_lt; exact Hq).
  cbn [lift io_bind print fst snd app]. rewrite Hu.
  cbn [lift io_bind print fst snd app]. rewrite Hn.
  subst p. unfold format_f. cbn [to_float bind ret].
  cbn [lift io_bind print fst snd app]. rewrite Hb.
  cbn [lift io_bind print fst snd app].
  set (p := PyFloat (SFmul prec emax q f100)).
  destruct (print_warning p) as [wout [we|[]]].
  - do 4 eexists. split; [reflexivity|]. split; [reflexivity|].
    cbn [app]. reflexivity.
  - match goal with
    | |- context [if ?c then ?a else ?b] =>
        destruct (if c then a else b) as [out r]
    end.
    do 4 eexists. split; [reflexivity|]. split; [reflexivity|].
    cbn [app]. reflexivity.
Qed.

(** The percentage of a project within its means is a non-negative
    float that [int] can truncate. *)
Lemma percent_defined (storage_quota total_used : Z) :
  0 < storage_quota < 2 ^ 1023 -> 0 <= total_used < 2 ^ 1000 ->
  exists (x : float) (qd : str),
    percent_and_quota_display storage_quota total_used
    = inr (PyFloat x, qd)
    /\ below 1010 x.
Proof.
  intros Hq Ht. unfold percent_and_quota_display.
  replace (storage_quota >? 0) with true
    by (symmetry; rewrite Z.gtb_ltb; apply Z.ltb_lt; lia).
  unfold truediv.
  destruct (int_truediv_below total_used storage_quota 1000 Ht
              ltac:(lia) ltac:(lia)) as (q & Eq & Bq).
  rewrite Eq. cbn [bind ret]. unfold mul. cbn [to_float bind ret].
  change (int_to_float 100) with (@inr exn float f100).
  cbn [bind ret].
  destruct (format_size_defined storage_quota ltac:(lia)) as [qd Eqd].
  rewrite Eqd. cbn [bind ret].
  exists (SFmul prec emax q f100), qd.
  split; [reflexivity|].
  change 1010 with (1002 + 7 + 1).
  apply SFmul_below; [exact Bq| |lia|].
  - vm_compute. intuition discriminate.
  - destruct q as [s|s| |s m e]; try exact I.
    change f100
      with (S754_finite false 7036874417766400 (-46)).
    cbn [below] in Bq. destruct Bq as (_ & _ & He & _).
    cbv beta iota. lia.
Qed.

Lemma filled_length_defined (x : float) :
  below 1010 x ->
  exists n, filled_length_of (PyFloat x) = inr n /\ 0 <= n.
Proof.
  intros Bx. unfold filled_length_of, bar_length, mul.
  cbn [to_float].
  change (int_to_float 30) with (@inr exn float f30).
  cbn [bind ret]. unfold truediv. cbn [to_float].
  change (int_to_float 100) with (@inr exn float f100).
  cbn [bind ret].
  change (is_zero f100) with false. cbv iota.
  assert (B30 : below (5 + 1010 + 1) (SFmul prec emax f30 x)).
  { apply SFmul_below; [|exact Bx|lia|].
    - vm_compute. intuition discriminate.
    - change f30
        with (S754_finite false 8444249301319680 (-48)).
      destruct x as [s|s| |s m e]; try exact I.
      cbn [below] in Bx. destruct Bx as (_ & _ & He & _).
      cbv beta iota. lia. }
  change f100
    with (S754_finite false 7036874417766400 (-46)).
  pose proof (SFdiv_below _ _ 7036874417766400 (-46) B30) as B.
  cbv zeta in B.
  change (Zpos (digits2_pos 7036874417766400)) with 53 in B.
  specialize (B ltac:(lia)).
  destruct (SFdiv prec emax _ _) as [s|s| |s m e]; cbn [below] in B;
    try tauto; cbn [to_int ret].
  - eexists. split; [reflexivity|lia].
  - destruct B as (-> & _). eexists. split; [reflexivity|].
    destruct (0 <=? e) eqn:He.
    + apply Z.leb_le in He. pose proof (Z.pow_nonneg 2 e ltac:(lia)). nia.
    + apply Z.div_pos; [lia|]. apply Z.leb_gt in He.
      apply Z.pow_pos_nonneg; lia.
Qed.

End BarFacts.

(** C5.  The bar is not held to its 30 cells.  A project over its quota
    (2000 bytes used of 1000) has the percentage 200.0 and the filled
    count [int(30 * 200.0 / 100) = 60]; the count of the remaining cells,
    [30 - 60], is negative and gives none, so the bar printed has 60
    cells, all filled, not 30. *)
Lemma over_quota_bar_has_60_cells :
  let proj1000 := {| project_key := lit "proj1"; display_name := lit "proj1";
                     storage_quota_bytes := 1000 |} in
  let info :=
    {| repositoriesSummaryList :=
         Some [ {| projectKey := Some (lit "proj1");
                   repoKey := Some (lit "r1"); repoType := None;
                   usedSpaceInBytes := Some 2000 |} ] |} in
  (exists p qd,
      percent_and_quota_display 1000 2000 = inr (p, qd)
      /\ filled_length_of p = inr 60)
  /\ bar_of 60 = inr (repeat 9608 60%nat)
  /\ nth 6 (printed (print_project_usage proj1000 info false)) []
     = lit "使用情况: [" ++ repeat 9608 60%nat ++ lit "] 200.0%"
  /\ List.length (repeat 9608 60%nat) <> 30%nat.
Proof.
  split; [|split; [|split]].
  - eexists. eexists. split; [vm_compute; reflexivity|].
    vm_compute. reflexivity.
  - vm_compute. reflexivity.
  - vm_compute. reflexivity.
  - vm_compute. discriminate.
Qed.

(** The filled count is that of the float computation, not the floor of
    the exact ratio: with 1 byte used of a quota of 3 the percentage is
    33.33333333333333 and 9 cells are filled, where 30 * 1 / 3 is 10. *)
Example filled_count_of_a_third :
  exists p qd,
    percent_and_quota_display 3 1 = inr (p, qd)
    /\ filled_length_of p = inr 9
    /\ 30 * 1 / 3 = 10.
Proof.
  eexists. eexists. split; [vm_compute; reflexivity|].
  split; [vm_compute; reflexivity|reflexivity].
Qed.

(** * Further properties *)

(** ** Floats: values that are floats already *)

Section ExactFacts.

Lemma pos_iter_xO_value (m d : positive) :
  Zpos (Pos.iter xO m d) = Zpos m * 2 ^ Zpos d.
Proof.
  induction d as [|d IH] using Pos.peano_ind.
  - simpl. lia.
  - rewrite Pos.iter_succ, Pos2Z.inj_succ, Z.pow_succ_r by lia.
    rewrite Pos2Z.inj_xO, IH. ring.
Qed.

Lemma Zdigits2_log2_pos (m : Z) : 0 < m -> Zdigits2 m = Z.log2 m + 1.
Proof. destruct m as [|p|p]; try lia. intros _. apply Zdigits2_log2. Qed.

Lemma Zdigits2_shift (m n : Z) :
  0 < m -> 0 <= n -> Zdigits2 (m * 2 ^ n) = Zdigits2 m + n.
Proof.
  intros Hm Hn.
  pose proof (Z.pow_pos_nonneg 2 n ltac:(lia) Hn) as Hp.
  rewrite !Zdigits2_log2_pos by nia.
  rewrite <- Z.shiftl_mul_pow2 by lia.
  rewrite Z.log2_shiftl by lia. lia.
Qed.

(** Rounding a value that is a float returns that float. *)
Lemma binary_round_aux_exact (s : bool) (m0 : positive) (e0 n : Z) :
  canon m0 e0 -> e0 <= 971 -> 0 <= n ->
  binary_round_aux prec emax s (Zpos m0 * 2 ^ n) (e0 - n) loc_Exact
  = S754_finite s m0 e0.
Proof.
  intros Hc He Hn. unfold canon in Hc.
  pose proof (Z.pow_pos_nonneg 2 n ltac:(lia) Hn) as Hp.
  unfold binary_round_aux.
  pose proof (shr_fexp_value (Zpos m0 * 2 ^ n) (e0 - n) loc_Exact
                ltac:(nia)) as H1.
  cbv zeta in H1. rewrite Zdigits2_shift in H1 by lia.
  cbn [Zdigits2] in H1.
  specialize (H1 ltac:(lia)).
  destruct (shr_fexp prec emax (Zpos m0 * 2 ^ n) (e0 - n) loc_Exact)
    as [mrs1 e1].
  destruct H1 as (E1 & H1 & D1 & rho & V1 & R1 & X1).
  replace (Z.max (Zpos (digits2_pos m0) + n + (e0 - n) - 53) (-1074)
           - (e0 - n)) with n in * by lia.
  assert (Hm1 : shr_m mrs1 = Zpos m0) by nia.
  assert (Hr : rho = 0) by nia.
  assert (L1 : loc_of_shr_record mrs1 = loc_Exact) by (apply X1; auto).
  rewrite Hm1, L1. cbn [round_nearest_even].
  pose proof (shr_fexp_value (Zpos m0) e1 loc_Exact ltac:(lia)) as H3.
  cbv zeta in H3. cbn [Zdigits2] in H3. specialize (H3 ltac:(lia)).
  destruct (shr_fexp prec emax (Zpos m0) e1 loc_Exact) as [mrs3 e3].
  destruct H3 as (E3 & H3 & D3 & rho3 & V3 & R3 & X3).
  replace (Z.max (Zpos (digits2_pos m0) + e1 - 53) (-1074) - e1) with 0
    in * by lia.
  change (2 ^ 0) with 1 in *.
  assert (Hm3 : shr_m mrs3 = Zpos m0) by lia.
  rewrite Hm3. change (emax - prec) with 971.
  replace (e3 <=? 971) with true by (symmetry; apply Z.leb_le; lia).
  f_equal. lia.
Qed.

(** An int of at most 53 digits converts to a float exactly. *)
Lemma binary_round_small (s : bool) (p : positive) :
  Zpos (digits2_pos p) <= 53 ->
  exists M,
    binary_round prec emax s p 0
    = S754_finite s M (Zpos (digits2_pos p) - 53)
    /\ Zpos M = Zpos p * 2 ^ (53 - Zpos (digits2_pos p)).
Proof.
  intros Hd. unfold binary_round, shl_align. rewrite fexp_eq.
  set (D := Zpos (digits2_pos p)) in *.
  replace (Z.max (D + 0 - 53) (-1074) - 0) with (D - 53) by lia.
  destruct (D - 53) as [|d|d] eqn:Ed; [|lia|].
  - exists p. split.
    + rewrite <- (binary_round_aux_exact s p 0 0); try lia.
      * f_equal. simpl. lia.
      * unfold canon. fold D. lia.
    + replace (53 - D) with 0 by lia. simpl. lia.
  - exists (Pos.iter xO p d).
    assert (HD : Zpos (digits2_pos (Pos.iter xO p d)) = 53).
    { rewrite digits2_iter_xO. fold D. lia. }
    split.
    + replace (Z.max (D + 0 - 53) (-1074)) with (Zneg d) by lia.
      rewrite <- (binary_round_aux_exact s (Pos.iter xO p d) (Zneg d) 0);
        try lia.
      * f_equal. simpl. lia.
      * unfold canon. rewrite HD. lia.
    + rewrite pos_iter_xO_value. f_equal. f_equal. lia.
Qed.

Lemma int_to_float_pos (p : positive) :
  Zpos (digits2_pos p) <= 53 ->
  exists M,
    int_to_float (Zpos p)
    = inr (S754_finite false M (Zpos (digits2_pos p) - 53))
    /\ Zpos M = Zpos p * 2 ^ (53 - Zpos (digits2_pos p)).
Proof.
  intros Hd. destruct (binary_round_small false p Hd) as (M & E & HM).
  exists M. split; [|exact HM].
  unfold int_to_float. cbn [binary_normalize]. rewrite E. reflexivity.
Qed.

Lemma int_to_float_neg (p : positive) :
  Zpos (digits2_pos p) <= 53 ->
  exists M,
    int_to_float (Zneg p)
    = inr (S754_finite true M (Zpos (digits2_pos p) - 53))
    /\ Zpos M = Zpos p * 2 ^ (53 - Zpos (digits2_pos p)).
Proof.
  intros Hd. destruct (binary_round_small true p Hd) as (M & E & HM).
  exists M. split; [|exact HM].
  unfold int_to_float. cbn [binary_normalize]. rewrite E. reflexivity.
Qed.

Lemma digits_of_mantissa (p M : positive) :
  Zpos (digits2_pos p) <= 53 ->
  Zpos M = Zpos p * 2 ^ (53 - Zpos (digits2_pos p)) ->
  Zpos (digits2_pos M) = 53.
Proof.
  intros Hd HM.
  change (Zpos (digits2_pos M)) with (Zdigits2 (Zpos M)).
  rewrite HM. rewrite Zdigits2_shift; [|lia|lia]. cbn [Zdigits2]. lia.
Qed.

(** Dividing a normal float by 1024.0 lowers its exponent by 10. *)
Lemma SFdiv_f1024_exact (s : bool) (M : positive) (e : Z) :
  Zpos (digits2_pos M) = 53 -> -1064 <= e <= 981 ->
  SFdiv prec emax (S754_finite s M e) f1024 = S754_finite s M (e - 10).
Proof.
  intros HD He. unfold f1024. cbn [SFdiv].
  unfold SFdiv_core_binary. rewrite fexp_eq. cbn [Zdigits2].
  change (Zpos (digits2_pos 4503599627370496)) with 53. rewrite HD.
  set (e' := Z.min (Z.max (53 + e - (53 + -42) - 53) (-1074)) (e - -42)).
  set (m' := match e - -42 - e' with
             | 0 => Zpos M
             | Zpos _ => Z.shiftl (Zpos M) (e - -42 - e')
             | Zneg _ => 0
             end).
  assert (Hs : 52 <= e - -42 - e') by lia.
  assert (Hm' : m' = Zpos M * 2 ^ (e - -42 - e' - 52) * 2 ^ 52).
  { subst m'. destruct (e - -42 - e') as [|k|k] eqn:Ek; try lia.
    rewrite Z.shiftl_mul_pow2 by lia. rewrite <- Z.mul_assoc.
    rewrite <- Z.pow_add_r by lia. f_equal. f_equal. lia. }
  assert (Ediv : Z.div_eucl m' 4503599627370496
                 = (Zpos M * 2 ^ (e - -42 - e' - 52), 0)).
  { pose proof (Z_div_mod m' 4503599627370496 eq_refl) as H.
    destruct (Z.div_eucl m' 4503599627370496) as [q r].
    destruct H as [Hq Hr]. rewrite Hm' in Hq.
    change (2 ^ 52) with 4503599627370496 in Hq.
    assert (r = 0) by nia. subst r. f_equal. nia. }
  rewrite Ediv. change (new_location 4503599627370496 0) with loc_Exact.
  rewrite xorb_false_r.
  replace e' with ((e - 10) - (e - -42 - e' - 52)) at 2 by lia.
  apply binary_round_aux_exact; try lia.
  unfold canon. rewrite HD. lia.
Qed.

(** A normal float is below 1024.0 exactly when its exponent is below
    that of 1024.0. *)

Lemma lt_f1024_normal (M : positive) (e : Z) :
  Zpos (digits2_pos M) = 53 ->
  PyNum.lt (PyFloat (S754_finite false M e)) (PyFloat f1024) = (e <? -42).
Proof.
  intros HD. unfold PyNum.lt. cbn [PyNum.compare]. unfold f1024.
  cbn [SFcompare].
  destruct (Z.compare_spec e (-42)) as [->|H|H].
  - change (-42 <? -42) with false.
    pose proof (Zdigits2_53 (Zpos M) ltac:(lia) HD) as Hm.
    change (2 ^ 52) with 4503599627370496 in Hm.
    destruct (Pos.compare_cont Eq M 4503599627370496) eqn:E; try reflexivity.
    exfalso. apply (proj1 (Pos.compare_lt_iff M 4503599627370496)) in E.
    apply Pos2Z.pos_lt_pos in E. clear HD. lia.
  - symmetry. apply Z.ltb_lt. exact H.
  - symmetry. apply Z.ltb_ge. lia.
Qed.

End ExactFacts.

(** ** Floats: rounding does not step below a float *)

Section LowerBoundFacts.

Lemma shiftl_mono (a b n : Z) : 0 <= a <= b -> Z.shiftl a n <= Z.shiftl b n.
Proof.
  intros H. destruct (Z_le_gt_dec 0 n) as [Hn|Hn].
  - rewrite !Z.shiftl_mul_pow2 by lia.
    pose proof (Z.pow_pos_nonneg 2 n ltac:(lia) Hn). nia.
  - rewrite !Z.shiftl_div_pow2 by lia.
    apply Z.div_le_mono; [apply Z.pow_pos_nonneg|]; lia.
Qed.

(** Dropping low digits keeps a mantissa above a float it was above. *)
Lemma shift_keeps_lower (m e f m1 rho t k : Z) :
  0 <= m1 -> e <= f ->
  m = m1 * 2 ^ (f - e) + rho -> 0 <= rho < 2 ^ (f - e) ->
  (k < f -> 2 ^ 52 <= m1) ->
  0 <= t < 2 ^ 53 ->
  t <= Z.shiftl m (e - k) -> t <= Z.shiftl m1 (f - k).
Proof.
  intros H1 Hf V R N Ht H.
  assert (Hp : 0 < 2 ^ (f - e)) by (apply Z.pow_pos_nonneg; lia).
  destruct (Z_le_gt_dec f k) as [Hfk|Hfk].
  - rewrite Z.shiftl_div_pow2 in * by lia.
    assert (E : m1 = m / 2 ^ (f - e)).
    { apply Z.div_unique with rho; [lia|]. lia. }
    rewrite E, Z.div_div by (try apply Z.pow_pos_nonneg; lia).
    rewrite <- Z.pow_add_r by lia.
    replace (f - e + - (f - k)) with (- (e - k)) by lia. exact H.
  - specialize (N ltac:(lia)).
    rewrite Z.shiftl_mul_pow2 by lia.
    assert (2 ^ 1 <= 2 ^ (f - k)) by (apply Z.pow_le_mono_r; lia).
    change (2 ^ 1) with 2 in *. change (2 ^ 53) with (2 * 2 ^ 52) in Ht.
    nia.
Qed.

(** Rounding to nearest does not step below a float: a value that is at
    least [t * 2 ^ k], a float, is rounded to a canonical float that is
    at least [t * 2 ^ k], or overflows. *)
Lemma binary_round_aux_ge (m e : Z) (l : location) (t k : Z) :
  0 <= m ->
  e <= Z.max (Zdigits2 m + e - 53) (-1074) ->
  0 < t < 2 ^ 53 -> -1074 <= k ->
  t <= Z.shiftl m (e - k) ->
  at_least t k (binary_round_aux prec emax false m e l).
Proof.
  intros Hm Hpre Ht Hk Hle. unfold binary_round_aux.
  pose proof (shr_fexp_value m e l Hm Hpre) as H1.
  destruct (shr_fexp prec emax m e l) as [mrs1 e1].
  destruct H1 as (E1 & H1 & D1 & rho & V1 & R1 & X1).
  set (f := Z.max (Zdigits2 m + e - 53) (-1074)) in *.
  set (m1 := shr_m mrs1) in *.
  assert (C1 : t <= Z.shiftl m1 (e1 - k)).
  { rewrite E1.
    apply (shift_keeps_lower m e f m1 rho t k); try assumption; try lia.
    intros Hkf. apply Zdigits2_53; [exact H1|]. lia. }
  set (m2 := round_nearest_even m1 (loc_of_shr_record mrs1)).
  assert (H2 : 0 <= m1 <= m2).
  { subst m2.
    destruct (round_nearest_even_cases m1 (loc_of_shr_record mrs1))
      as [->|[-> _]]; lia. }
  assert (C2 : t <= Z.shiftl m2 (e1 - k)).
  { pose proof (shiftl_mono m1 m2 (e1 - k) H2). lia. }
  pose proof (Zdigits2_mono m1 m2 H2) as D12.
  pose proof (shr_fexp_value m2 e1 loc_Exact ltac:(lia)) as H3.
  cbv zeta in H3.
  assert (Hpre3 : e1 <= Z.max (Zdigits2 m2 + e1 - 53) (-1074)) by lia.
  specialize (H3 Hpre3).
  destruct (shr_fexp prec emax m2 e1 loc_Exact) as [mrs3 e3].
  destruct H3 as (E3 & H3 & D3 & rho3 & V3 & R3 & _).
  set (f3 := Z.max (Zdigits2 m2 + e1 - 53) (-1074)) in *.
  assert (C3 : t <= Z.shiftl (shr_m mrs3) (e3 - k)).
  { rewrite E3.
    apply (shift_keeps_lower m2 e1 f3 (shr_m mrs3) rho3 t k);
      try assumption; try lia.
    intros Hkf. apply Zdigits2_53; [exact H3|]. lia. }
  destruct (shr_m mrs3) as [|m3|m3] eqn:Em3; [|  |lia].
  - rewrite Z.shiftl_0_l in C3. lia.
  - cbn [Zdigits2] in D3.
    assert (Hcanon : canon m3 e3) by (unfold canon; lia).
    change (emax - prec) with 971.
    destruct (e3 <=? 971) eqn:He3; cbn [at_least]; [|reflexivity].
    apply Z.leb_le in He3. auto.
Qed.

(** A canonical float that is at least [2 ^ 52 * 2 ^ k] is normal, with
    an exponent of at least [k]. *)
Lemma at_least_normal (k : Z) (m : positive) (e : Z) :
  -1074 <= k ->
  at_least (2 ^ 52) k (S754_finite false m e) ->
  Zpos (digits2_pos m) = 53 /\ k <= e <= 971.
Proof.
  intros Hk (_ & Hc & He & Hm). unfold canon in Hc.
  pose proof (Zdigits2_gt (Zpos m) ltac:(lia)) as Hlt. cbn [Zdigits2] in Hlt.
  assert (Hd : Zpos (digits2_pos m) <= 53) by lia.
  assert (Hlt53 : Zpos m < 2 ^ 53).
  { apply Z.lt_le_trans with (2 ^ Zpos (digits2_pos m)); [exact Hlt|].
    apply Z.pow_le_mono_r; lia. }
  assert (Hek : k <= e).
  { destruct (Z_le_gt_dec k e) as [|Hgt]; [assumption|exfalso].
    rewrite Z.shiftl_div_pow2 in Hm by lia.
    assert (Zpos m / 2 ^ (- (e - k)) < 2 ^ 52); [|lia].
    apply Z.div_lt_upper_bound; [apply Z.pow_pos_nonneg; lia|].
    assert (2 ^ 1 <= 2 ^ (- (e - k))) by (apply Z.pow_le_mono_r; lia).
    change (2 ^ 1) with 2 in *. change (2 ^ 53) with (2 * 2 ^ 52) in Hlt53.
    nia. }
  split; [|lia].
  destruct (Z.eq_dec e (-1074)) as [->|Hne]; [|lia].
  assert (k = -1074) by lia. subst k.
  replace (-1074 - -1074) with 0 in Hm by lia.
  rewrite Z.shiftl_0_r in Hm.
  pose proof (Zdigits2_ge (Zpos m) 52 ltac:(lia) Hm) as H. cbn [Zdigits2] in H.
  lia.
Qed.

(** An int of at least 54 digits that converts converts to a normal
    float with a positive exponent. *)
Lemma int_to_float_large (b : Z) :
  2 ^ 53 <= b < 2 ^ 1023 ->
  exists M e,
    int_to_float b = inr (S754_finite false M e)
    /\ Zpos (digits2_pos M) = 53 /\ 1 <= e <= 971.
Proof.
  intros Hb.
  destruct (int_to_float_defined b) as [x Ex].
  { pose proof (Z.pow_pos_nonneg 2 1023 ltac:(lia) ltac:(lia)). lia. }
  assert (A : at_least (2 ^ 52) 1 x).
  { revert Ex. unfold int_to_float.
    destruct b as [|p|p]; try (simpl in Hb; lia).
    cbn [binary_normalize]. unfold binary_round, shl_align.
    rewrite fexp_eq.
    pose proof (Zdigits2_ge (Zpos p) 53 ltac:(lia) (proj1 Hb)) as HD.
    cbn [Zdigits2] in HD.
    destruct (Z.max (Zpos (digits2_pos p) + 0 - 53) (-1074) - 0)
      as [|d|d] eqn:Ed; try lia.
    pose proof (binary_round_aux_ge (Zpos p) 0 loc_Exact (2 ^ 52) 1
                  ltac:(lia)) as G.
    cbn [Zdigits2] in G.
    specialize (G ltac:(lia) ltac:(split; [reflexivity|reflexivity])
                  ltac:(lia)).
    assert (Hh : 2 ^ 52 <= Z.shiftl (Zpos p) (0 - 1)).
    { rewrite Z.shiftl_div_pow2 by lia. change (2 ^ (- (0 - 1))) with 2.
      apply Z.div_le_lower_bound; [lia|].
      change (2 ^ 53) with (2 * 2 ^ 52) in Hb. lia. }
    specialize (G Hh).
    destruct (binary_round_aux prec emax false (Zpos p) 0 loc_Exact);
      unfold ret, raise; intros E; inversion E; subst; exact G. }
  destruct x as [s|s| |s M e]; cbn [at_least] in A; try tauto.
  - exfalso. revert Ex. unfold int_to_float.
    destruct (binary_normalize prec emax b 0 false); unfold ret, raise;
      intros E; inversion E.
  - pose proof A as (-> & _).
    destruct (at_least_normal 1 M e ltac:(lia) A) as [HD He].
    exists M, e. auto.
Qed.

End LowerBoundFacts.

(** ** The size text in integer arithmetic *)

Section SizeTextFacts.

Lemma round_half_even_scale (c n d : Z) :
  0 < c -> 0 < d ->
  round_half_even (c * n) (c * d) = round_half_even n d.
Proof.
  intros Hc Hd. unfold round_half_even.
  rewrite Z.div_mul_cancel_l by lia.
  rewrite Zmult_mod_distr_l.
  replace (2 * (c * (n mod d))) with (c * (2 * (n mod d))) by ring.
  rewrite <- (Zmult_compare_compat_l (2 * (n mod d)) d c) by lia.
  reflexivity.
Qed.

Lemma round_half_even_exact (n d : Z) :
  0 < d -> round_half_even (n * d) d = n.
Proof.
  intros Hd. unfold round_half_even.
  rewrite Z.div_mul, Z.mod_mul by lia.
  destruct (Z.compare_spec (2 * 0) d); try lia; reflexivity.
Qed.

(** The two-decimal text of the float [b * 2 ^ (53 - D) * 2 ^ (D - 53 - a)],
    that is of [b / 2 ^ a]. *)
Lemma format_scaled (b : Z) (D a : Z) (M : positive) :
  0 < b -> D <= 53 -> 0 <= a ->
  Zpos M = b * 2 ^ (53 - D) ->
  float_format_f 2 (S754_finite false M (D - 53 - a))
  = fixed_digits 2 (round_half_even (100 * b) (2 ^ a)).
Proof.
  intros Hb HD Ha HM. cbn [float_format_f sign_str app].
  change (10 ^ Z.of_nat 2) with 100. f_equal.
  pose proof (Z.pow_pos_nonneg 2 (53 - D) ltac:(lia) ltac:(lia)) as Hp.
  pose proof (Z.pow_pos_nonneg 2 a ltac:(lia) ltac:(lia)) as Hpa.
  destruct (0 <=? D - 53 - a) eqn:He.
  - apply Z.leb_le in He.
    assert (D = 53) by lia. assert (a = 0) by lia. subst D a.
    change (2 ^ (53 - 53 - 0)) with 1. change (2 ^ 0) with 1.
    change (2 ^ (53 - 53)) with 1 in HM.
    rewrite <- (Z.mul_1_r (100 * b)) at 1.
    rewrite round_half_even_exact by lia. lia.
  - replace (- (D - 53 - a)) with ((53 - D) + a) by lia.
    rewrite Z.pow_add_r by lia.
    rewrite HM.
    replace (b * 2 ^ (53 - D) * 100) with (2 ^ (53 - D) * (100 * b)) by ring.
    apply round_half_even_scale; lia.
Qed.

Lemma fixed_digits_hundreds (n : Z) :
  0 <= n -> fixed_digits 2 (100 * n) = int_str n ++ lit ".00".
Proof.
  intros Hn. unfold fixed_digits. change (10 ^ Z.of_nat 2) with 100.
  cbv zeta.
  rewrite (Z.mul_comm 100 n), Z.div_mul, Z.mod_mul by lia.
  reflexivity.
Qed.

(** The loop of [format_size] on a float with a full mantissa: each
    division by 1024.0 is exact and lowers the exponent by 10. *)
Lemma format_size_loop_normal (us : list str) (M : positive) :
  Zpos (digits2_pos M) = 53 ->
  forall e, e <= 971 ->
    format_size_loop us (PyFloat (S754_finite false M e))
    = inr (normal_size_text us M e).
Proof.
  intros HD. induction us as [|u us IH]; intros e He.
  - reflexivity.
  - cbn [format_size_loop normal_size_text].
    rewrite (lt_f1024_normal M e HD).
    destruct (Z.ltb_spec e (-42)) as [Hlt|Hge].
    + reflexivity.
    + rewrite truediv_f1024. cbn [to_float bind ret].
      rewrite SFdiv_f1024_exact by (try assumption; lia).
      apply IH. lia.
Qed.

Lemma format_size_loop_cons (unit : str) (rest : list str) (v : pynum) :
  format_size_loop (unit :: rest) v
  = if PyNum.lt v (PyFloat f1024)
    then (t <- format_f 2 v ;; ret (t ++ lit " " ++ unit))%res
    else (b <- truediv v (PyFloat f1024) ;; format_size_loop rest b)%res.
Proof. reflexivity. Qed.

Lemma lt_int_f1024 (b : Z) :
  PyNum.lt (PyInt b) (PyFloat f1024) = (b <? 1024).
Proof.
  unfold PyNum.lt. cbn [PyNum.compare]. unfold f1024.
  cbn [Z_float_compare]. change (0 <=? -42) with false. cbv iota.
  change (2 ^ (- (-42))) with 4398046511104.
  destruct (Z.compare_spec (b * 4398046511104) 4503599627370496);
    destruct (Z.ltb_spec b 1024); try reflexivity; lia.
Qed.

Lemma div10 (L j : Z) : 10 * j <= L < 10 * j + 10 -> L / 10 = j.
Proof. intros H. symmetry. apply Z.div_unique with (L - 10 * j); lia. Qed.

Lemma log2_digits (p : positive) :
  Zpos (digits2_pos p) = Z.log2 (Zpos p) + 1.
Proof. exact (Zdigits2_log2 p). Qed.

(** [format_size] on an int that a float holds exactly. *)
Lemma format_size_small (b : Z) :
  0 < b < 2 ^ 53 -> format_size b = inr (size_text b).
Proof.
  intros Hb. destruct b as [|p|p]; try lia.
  assert (HL : 0 <= Z.log2 (Zpos p) < 53).
  { split; [apply Z.log2_nonneg|]. apply Z.log2_lt_pow2; lia. }
  pose proof (log2_digits p) as ED.
  destruct (int_to_float_pos p ltac:(lia)) as (M & EM & HM).
  pose proof (digits_of_mantissa p M ltac:(lia) HM) as HDM.
  unfold format_size. change (Zpos p =? 0) with false. cbv iota.
  unfold size_text, unit_index.
  set (L := Z.log2 (Zpos p)) in *.
  set (D := Zpos (digits2_pos p)) in *.
  pose proof (Z.log2_lt_pow2 (Zpos p) 10 ltac:(lia)) as T10.
  fold L in T10. change (2 ^ 10) with 1024 in T10.
  clearbody L D.
  assert (F : forall a, 0 <= a ->
                float_format_f 2 (S754_finite false M (D - 53 - a))
                = fixed_digits 2 (round_half_even (100 * Zpos p) (2 ^ a))).
  { intros a Ha. apply format_scaled; lia. }
  unfold units.
  rewrite format_size_loop_cons, lt_int_f1024.
  destruct (Z.ltb_spec (Zpos p) 1024) as [H0|H0].
  - assert (L < 10) by (apply T10; lia).
    rewrite (div10 L 0) by lia. change (Z.min 5 0) with 0.
    unfold format_f. cbn [to_float]. rewrite EM. cbn [bind ret].
    replace (D - 53) with (D - 53 - 0) by lia. rewrite F by lia.
    reflexivity.
  - assert (10 <= L) by lia.
    rewrite truediv_f1024. cbn [to_float]. rewrite EM. cbn [bind ret].
    rewrite SFdiv_f1024_exact by (try assumption; lia).
    rewrite format_size_loop_normal by (try assumption; lia).
    cbn [normal_size_text].
    repeat match goal with
           | |- context [?x <? -42] => destruct (Z.ltb_spec x (-42))
           end;
      match goal with
      | |- inr (float_format_f 2 (S754_finite false M ?e) ++ _) = _ =>
          replace e with (D - 53 - (D - 53 - e)) by lia;
          rewrite F by lia
      end.
    + rewrite (div10 L 1) by lia. change (Z.min 5 1) with 1.
      replace (D - 53 - (D - 53 - 10)) with (10 * 1) by lia. reflexivity.
    + rewrite (div10 L 2) by lia. change (Z.min 5 2) with 2.
      replace (D - 53 - (D - 53 - 10 - 10)) with (10 * 2) by lia.
      reflexivity.
    + rewrite (div10 L 3) by lia. change (Z.min 5 3) with 3.
      replace (D - 53 - (D - 53 - 10 - 10 - 10)) with (10 * 3) by lia.
      reflexivity.
    + rewrite (div10 L 4) by lia. change (Z.min 5 4) with 4.
      replace (D - 53 - (D - 53 - 10 - 10 - 10 - 10)) with (10 * 4) by lia.
      reflexivity.
    + rewrite (div10 L 5) by lia. change (Z.min 5 5) with 5.
      replace (D - 53 - (D - 53 - 10 - 10 - 10 - 10 - 10)) with (10 * 5)
        by lia.
      reflexivity.
Qed.

(** [format_size] on an int beyond the exact range: the float it
    converts to, divided five times. *)
Lemma format_size_large (b : Z) :
  2 ^ 53 <= b < 2 ^ 1023 ->
  exists M e,
    int_to_float b = inr (S754_finite false M e)
    /\ Zpos (digits2_pos M) = 53 /\ 1 <= e <= 971
    /\ format_size b
       = inr (float_format_f 2 (S754_finite false M (e - 50)) ++ lit " PB").
Proof.
  intros Hb. destruct (int_to_float_large b Hb) as (M & e & EM & HD & He).
  exists M, e. split; [exact EM|]. split; [exact HD|]. split; [exact He|].
  unfold format_size.
  replace (b =? 0) with false by (symmetry; apply Z.eqb_neq; lia).
  unfold units. rewrite format_size_loop_cons, lt_int_f1024.
  replace (b <? 1024) with false by (symmetry; apply Z.ltb_ge; lia).
  rewrite truediv_f1024. cbn [to_float]. rewrite EM. cbn [bind ret].
  rewrite SFdiv_f1024_exact by (try assumption; lia).
  rewrite format_size_loop_normal by (try assumption; lia).
  cbn [normal_size_text].
  repeat match goal with
         | |- context [?x <? -42] =>
             replace (x <? -42) with false by (symmetry; apply Z.ltb_ge; lia)
         end.
  replace (e - 10 - 10 - 10 - 10 - 10) with (e - 50) by lia. reflexivity.
Qed.

Lemma fixed_digits_two_decimals (n : Z) :
  0 <= n -> two_decimals (fixed_digits 2 n).
Proof.
  intros Hn. unfold fixed_digits. change (10 ^ Z.of_nat 2) with 100.
  destruct (two_digit_fraction (n mod 100)) as (d1 & d2 & E & H1 & H2).
  { apply Z.mod_pos_bound. lia. }
  cbv zeta. rewrite E.
  destruct (int_str_digits (n / 100)) as [Hne Hd].
  { apply Z.div_pos; lia. }
  exists [], (int_str (n / 100)), d1, d2.
  repeat split; auto.
Qed.

Lemma unit_index_large (b : Z) : 2 ^ 53 <= b -> unit_index b = 5.
Proof.
  intros Hb. unfold unit_index.
  assert (53 <= Z.log2 b) by (apply Z.log2_le_pow2; lia).
  assert (5 <= Z.log2 b / 10) by (apply Z.div_le_lower_bound; lia).
  lia.
Qed.

(** Rounding keeps integer bounds. *)
Lemma round_half_even_between (n d lo hi : Z) :
  0 < d -> lo * d <= n <= hi * d -> lo <= round_half_even n d <= hi.
Proof.
  intros Hd Hn. unfold round_half_even.
  pose proof (Z.div_mod n d ltac:(lia)) as E.
  pose proof (Z.mod_pos_bound n d Hd) as R.
  assert (Hq : lo <= n / d) by (apply Z.div_le_lower_bound; lia).
  assert (Hq' : n / d <= hi) by (apply Z.div_le_upper_bound; lia).
  destruct (Z.eq_dec (n / d) hi) as [Eq|Ne].
  - assert (n mod d = 0) by nia.
    replace (n mod d) with 0 by lia.
    destruct (Z.compare_spec (2 * 0) d); try lia.
  - destruct (2 * (n mod d) ?= d); try lia.
    destruct (Z.even (n / d)); lia.
Qed.

(** The size lies between one and 1024 of its unit. *)
Lemma size_in_unit (b : Z) :
  0 < b < 2 ^ 53 ->
  2 ^ (10 * unit_index b) <= b <= 1024 * 2 ^ (10 * unit_index b).
Proof.
  intros Hb. unfold unit_index.
  pose proof (Z.log2_spec b ltac:(lia)) as [L1 L2].
  assert (HL : 0 <= Z.log2 b < 53).
  { split; [apply Z.log2_nonneg|apply Z.log2_lt_pow2; lia]. }
  set (L := Z.log2 b) in *. clearbody L.
  assert (Hk : 0 <= Z.min 5 (L / 10) /\ 10 * Z.min 5 (L / 10) <= L
               /\ L < 10 * Z.min 5 (L / 10) + 10).
  { pose proof (Z.div_mod L 10 ltac:(lia)).
    pose proof (Z.mod_pos_bound L 10 ltac:(lia)). lia. }
  set (k := Z.min 5 (L / 10)) in *. clearbody k.
  split.
  - apply Z.le_trans with (2 ^ L); [|exact L1].
    apply Z.pow_le_mono_r; lia.
  - change 1024 with (2 ^ 10). rewrite <- Z.pow_add_r by lia.
    apply Z.le_trans with (2 ^ Z.succ L); [lia|].
    apply Z.pow_le_mono_r; lia.
Qed.

End SizeTextFacts.

(** X1. For a size [0 < b < 2 ^ 53], which a float holds exactly,
    [format_size] is integer arithmetic: the unit is the one of index
    [min 5 (log2 b / 10)] in B, KB, MB, GB, TB, PB, and the number is
    [b / 1024 ^ index] rounded to two decimals, ties to even.  The
    number shown lies between 1.00 and 1024.00. *)
Theorem format_size_closed_form (b : Z) :
  0 < b < 2 ^ 53 ->
  let k := Z.min 5 (Z.log2 b / 10) in
  let hundredths := round_half_even (100 * b) (2 ^ (10 * k)) in
  format_size b
  = inr (fixed_digits 2 hundredths ++ lit " "
           ++ nth (Z.to_nat k) unit_names [])
  /\ 100 <= hundredths <= 102400.
Proof.
  intros Hb k hundredths. split.
  - rewrite (format_size_small b Hb). reflexivity.
  - pose proof (size_in_unit b Hb) as Hu. fold k in Hu.
    change k with (unit_index b) in *.
    apply round_half_even_between; [|lia].
    apply Z.pow_pos_nonneg; [lia|].
    unfold unit_index. pose proof (Z.log2_nonneg b).
    pose proof (Z.div_pos (Z.log2 b) 10 ltac:(lia) ltac:(lia)). lia.
Qed.

Lemma format_size_closed_form_witness :
  format_size 1536 = inr (lit "1.50 KB")
  /\ format_size (2 ^ 20 - 1) = inr (lit "1024.00 KB").
Proof.
  split.
  - destruct (format_size_closed_form 1536 ltac:(lia)) as [E _].
    rewrite E. vm_compute. reflexivity.
  - destruct (format_size_closed_form (2 ^ 20 - 1) ltac:(lia)) as [E _].
    rewrite E. vm_compute. reflexivity.
Defined.

(** X2. A byte count below 1024 is shown as it is, with [.00 B]; this
    includes every negative count (above [- 2 ^ 53]), which is never
    scaled to a larger unit. *)
Theorem format_size_bytes (b : Z) :
  - 2 ^ 53 < b < 1024 -> b <> 0 ->
  format_size b = inr (int_str b ++ lit ".00 B").
Proof.
  intros Hb H0. unfold format_size.
  replace (b =? 0) with false by (symmetry; apply Z.eqb_neq; lia).
  unfold units. rewrite format_size_loop_cons, lt_int_f1024.
  replace (b <? 1024) with true by (symmetry; apply Z.ltb_lt; lia).
  unfold format_f. cbn [to_float].
  destruct b as [|p|p]; try lia.
  - assert (HL : Z.log2 (Zpos p) < 53) by (apply Z.log2_lt_pow2; lia).
    pose proof (log2_digits p) as ED.
    destruct (int_to_float_pos p ltac:(lia)) as (M & EM & HM).
    rewrite EM. cbn [bind ret].
    replace (Zpos (digits2_pos p) - 53)
      with (Zpos (digits2_pos p) - 53 - 0) by lia.
    rewrite (format_scaled (Zpos p)) by (try exact HM; lia).
    change (2 ^ 0) with 1.
    rewrite <- (Z.mul_1_r (100 * Zpos p)).
    rewrite round_half_even_exact by lia.
    rewrite fixed_digits_hundreds by lia.
    rewrite <- app_assoc. reflexivity.
  - assert (HL : Z.log2 (Zpos p) < 53) by (apply Z.log2_lt_pow2; lia).
    pose proof (log2_digits p) as ED.
    destruct (int_to_float_neg p ltac:(lia)) as (M & EM & HM).
    rewrite EM. cbn [bind ret].
    pose proof (format_scaled (Zpos p) (Zpos (digits2_pos p)) 0 M
                  ltac:(lia) ltac:(lia) ltac:(lia) HM) as F.
    replace (Zpos (digits2_pos p) - 53 - 0)
      with (Zpos (digits2_pos p) - 53) in F by lia.
    cbn [float_format_f sign_str] in F |- *.
    cbn [app] in F. rewrite F.
    change (2 ^ 0) with 1.
    rewrite <- (Z.mul_1_r (100 * Zpos p)).
    rewrite round_half_even_exact by lia.
    rewrite fixed_digits_hundreds by lia.
    unfold ret. f_equal. cbn [int_str app]. rewrite <- app_assoc.
    reflexivity.
Qed.


Lemma format_size_bytes_witness :
  format_size (-5000) = inr (int_str (-5000) ++ lit ".00 B").
Proof. apply (format_size_bytes (-5000)); lia. Defined.

(** X3. For every size [0 < b < 2 ^ 1023], [format_size] returns a
    number with two decimals, a space and the unit of index
    [min 5 (log2 b / 10)]: each unit spans a factor of 1024, and from
    [2 ^ 50] bytes on the unit is PB. *)
Theorem format_size_unit (b : Z) :
  0 < b < 2 ^ 1023 ->
  exists t,
    two_decimals t
    /\ format_size b
       = inr (t ++ lit " " ++ nth (Z.to_nat (unit_index b)) unit_names []).
Proof.
  intros Hb. destruct (Z_lt_le_dec b (2 ^ 53)) as [Hs|Hl].
  - rewrite (format_size_small b (conj (proj1 Hb) Hs)). unfold size_text.
    eexists. split; [|reflexivity].
    apply fixed_digits_two_decimals. apply round_half_even_nonneg; [lia|].
    apply Z.pow_pos_nonneg; [lia|]. unfold unit_index.
    assert (0 <= Z.log2 b / 10)
      by (apply Z.div_pos; [apply Z.log2_nonneg|lia]).
    lia.
  - destruct (format_size_large b (conj Hl (proj2 Hb)))
      as (M & e & _ & HD & He & E).
    rewrite E, (unit_index_large b Hl).
    eexists. split; [|reflexivity].
    apply format_in_range_two_decimals. cbn [in_range]. lia.
Qed.

Lemma format_size_unit_witness :
  exists t,
    two_decimals t
    /\ format_size (2 ^ 60)
       = inr (t ++ lit " " ++ nth (Z.to_nat (unit_index (2 ^ 60))) unit_names []).
Proof.
  apply (format_size_unit (2 ^ 60)). vm_compute. split; reflexivity.
Defined.


(** ** The top tier *)

Section TierFacts.

(** [a / b] for [0 < b <= a] is at least 1. *)
Lemma int_truediv_at_least_1 (a b : Z) (q : float) :
  0 < b <= a -> int_truediv a b = inr q -> at_least 1 0 q.
Proof.
  intros [Hb Hab]. unfold int_truediv.
  replace (b =? 0) with false by (symmetry; apply Z.eqb_neq; lia).
  replace (a =? 0) with false by (symmetry; apply Z.eqb_neq; lia).
  replace (a <? 0) with false by (symmetry; apply Z.ltb_ge; lia).
  replace (b <? 0) with false by (symmetry; apply Z.ltb_ge; lia).
  rewrite !Z.abs_eq by lia. cbn [xorb].
  pose proof (div_core_value a 0 b 0 ltac:(lia) Hb) as H.
  destruct (SFdiv_core_binary prec emax a 0 b 0) as [[m e'] l].
  destruct H as (r & Hs & Hv & Hr & Hl & Hm & Hpre).
  assert (Hp : 0 < 2 ^ (0 - 0 - e')) by (apply Z.pow_pos_nonneg; lia).
  assert (A : at_least 1 0 (binary_round_aux prec emax false m e' l)).
  { apply binary_round_aux_ge; try assumption; try lia.
    rewrite Z.shiftl_div_pow2 by lia.
    replace (- (e' - 0)) with (0 - 0 - e') by lia.
    apply Z.div_le_lower_bound; [exact Hp|]. nia. }
  destruct (binary_round_aux prec emax false m e' l);
    unfold ret, raise; intros E; inversion E; subst; exact A.
Qed.

(** Times 100.0: from at least 1 to at least 100. *)
Lemma mul_100_at_least (q : float) :
  at_least 1 0 q -> at_least 7036874417766400 (-46) (SFmul prec emax q f100).
Proof.
  destruct q as [s|s| |s m e]; cbn [at_least]; try tauto.
  - intros ->. reflexivity.
  - intros (-> & Hc & He & Hm). unfold f100. cbn [SFmul xorb].
    pose proof (Zdigits2_mul_ge (Zpos m) 7036874417766400 ltac:(lia)
                  ltac:(lia)) as Hd.
    change (Zdigits2 7036874417766400) with 53 in Hd.
    rewrite <- Pos2Z.inj_mul in Hd.
    assert (0 < Zdigits2 (Zpos m)) by (simpl; lia).
    apply binary_round_aux_ge; try lia.
    replace (e + -46 - -46) with (e - 0) by lia.
    rewrite Pos2Z.inj_mul.
    destruct (Z_le_gt_dec 0 (e - 0)) as [H0|H0].
    + rewrite Z.shiftl_mul_pow2 in * by lia.
      pose proof (Z.pow_pos_nonneg 2 (e - 0) ltac:(lia) H0). nia.
    + rewrite Z.shiftl_div_pow2 in * by lia.
      pose proof (Z.pow_pos_nonneg 2 (- (e - 0)) ltac:(lia) ltac:(lia)) as Hp.
      pose proof (Z.mul_div_le (Zpos m) (2 ^ (- (e - 0))) Hp).
      apply Z.div_le_lower_bound; [exact Hp|]. nia.
Qed.

(** A float that is at least 100 is greater than 90. *)
Lemma gt_90_at_least (x : float) :
  at_least 7036874417766400 (-46) x ->
  PyNum.gt (PyFloat x) (PyInt 90) = true.
Proof.
  destruct x as [s|s| |s m e]; cbn [at_least]; try tauto.
  - intros ->. reflexivity.
  - intros (-> & Hc & He & Hm).
    unfold PyNum.gt. cbn [PyNum.compare Z_float_compare option_map].
    assert (L : (if 0 <=? e then 90 ?= Zpos m * 2 ^ e
                 else 90 * 2 ^ (- e) ?= Zpos m) = Lt).
    { destruct (Z.leb_spec 0 e) as [H0|H0]; apply Z.compare_lt_iff.
      - rewrite Z.shiftl_mul_pow2 in Hm by lia.
        replace (e - -46) with (e + 46) in Hm by lia.
        rewrite Z.pow_add_r in Hm by lia.
        change (2 ^ 46) with 70368744177664 in Hm.
        pose proof (Z.pow_pos_nonneg 2 e ltac:(lia) H0). nia.
      - destruct (Z_le_gt_dec 0 (e - -46)) as [H1|H1].
        + rewrite Z.shiftl_mul_pow2 in Hm by lia.
          assert (E : 2 ^ (e - -46) * 2 ^ (- e) = 70368744177664).
          { rewrite <- Z.pow_add_r by lia.
            replace (e - -46 + - e) with 46 by lia. reflexivity. }
          pose proof (Z.pow_pos_nonneg 2 (e - -46) ltac:(lia) H1).
          pose proof (Z.pow_pos_nonneg 2 (- e) ltac:(lia) ltac:(lia)).
          nia.
        + rewrite Z.shiftl_div_pow2 in Hm by lia.
          pose proof (Z.pow_pos_nonneg 2 (- (e - -46)) ltac:(lia) ltac:(lia))
            as Hp.
          pose proof (Z.mul_div_le (Zpos m) (2 ^ (- (e - -46))) Hp).
          assert (E : 2 ^ (- e) = 70368744177664 * 2 ^ (- (e - -46))).
          { change 70368744177664 with (2 ^ 46).
            rewrite <- Z.pow_add_r by lia. f_equal. lia. }
          rewrite E. nia. }
    rewrite L. reflexivity.
Qed.

Lemma print_warning_outcome (p : pynum) : outcome (print_warning p) = inr tt.
Proof.
  unfold print_warning.
  destruct (PyNum.gt p (PyInt 90)); [reflexivity|].
  destruct (PyNum.gt p (PyInt 80)); reflexivity.
Qed.

(** The quotient of two ints whose ratio is at most [2 ^ j]. *)
Lemma int_truediv_ratio (a b j : Z) :
  0 <= a <= 2 ^ j * b -> 0 < b -> 0 <= j <= 1000 ->
  exists q, int_truediv a b = inr q /\ below (j + 2) q.
Proof.
  intros [Ha Hab] Hb Hj. unfold int_truediv.
  replace (b =? 0) with false by (symmetry; apply Z.eqb_neq; lia).
  destruct (a =? 0) eqn:Ea.
  - eexists. split; [reflexivity|]. cbn [below].
    apply Z.ltb_ge. lia.
  - apply Z.eqb_neq in Ea.
    replace (a <? 0) with false by (symmetry; apply Z.ltb_ge; lia).
    replace (b <? 0) with false by (symmetry; apply Z.ltb_ge; lia).
    rewrite !Z.abs_eq by lia. cbn [xorb].
    pose proof (div_core_digits a 0 b 0 ltac:(lia) Hb) as H.
    destruct (SFdiv_core_binary prec emax a 0 b 0) as [[q e'] l].
    destruct H as (Hq & He & Hd).
    assert (Db : 0 < Zdigits2 b) by (destruct b; simpl; lia).
    assert (Da : Zdigits2 a <= j + Zdigits2 b).
    { apply Zdigits2_le; [lia|]. split; [exact Ha|].
      rewrite Z.pow_add_r by lia.
      pose proof (Zdigits2_gt b ltac:(lia)).
      pose proof (Z.pow_pos_nonneg 2 j ltac:(lia) ltac:(lia)). nia. }
    pose proof (binary_round_aux_below q e' l (j + 1) Hq ltac:(lia)
                  ltac:(lia) ltac:(lia)) as B.
    replace (j + 1 + 1) with (j + 2) in B by lia.
    destruct (binary_round_aux prec emax false q e' l);
      cbn [below] in B; try tauto; eexists; (split; [reflexivity|exact B]).
Qed.

(** The filled count of a percentage below [2 ^ k]. *)
Lemma filled_length_below (x : float) (k : Z) :
  below k x -> 0 <= k <= 1010 ->
  exists n, filled_length_of (PyFloat x) = inr n /\ 0 <= n < 2 ^ (k + 1).
Proof.
  intros Bx Hk. unfold filled_length_of, bar_length, mul.
  cbn [to_float].
  change (int_to_float 30) with (@inr exn float f30).
  cbn [bind ret]. unfold truediv. cbn [to_float].
  change (int_to_float 100) with (@inr exn float f100).
  cbn [bind ret].
  change (is_zero f100) with false. cbv iota.
  assert (B30 : below (5 + k + 1) (SFmul prec emax f30 x)).
  { apply SFmul_below; [|exact Bx|lia|].
    - vm_compute. intuition discriminate.
    - change f30
        with (S754_finite false 8444249301319680 (-48)).
      destruct x as [s|s| |s m e]; try exact I.
      cbn [below] in Bx. destruct Bx as (_ & _ & He & _).
      cbv beta iota. lia. }
  change f100
    with (S754_finite false 7036874417766400 (-46)).
  pose proof (SFdiv_below _ _ 7036874417766400 (-46) B30) as B.
  cbv zeta in B.
  change (Zpos (digits2_pos 7036874417766400)) with 53 in B.
  specialize (B ltac:(lia)).
  replace (5 + k + 1 - (53 + -46) + 2) with (k + 1) in B by lia.
  pose proof (Z.pow_pos_nonneg 2 (k + 1) ltac:(lia) ltac:(lia)) as Hp.
  destruct (SFdiv prec emax _ _) as [s|s| |s m e]; cbn [below] in B;
    try tauto; cbn [to_int ret].
  - eexists. split; [reflexivity|lia].
  - destruct B as (-> & Dm & He & Hke). eexists. split; [reflexivity|].
    pose proof (Zdigits2_gt (Zpos m) ltac:(lia)) as Hm.
    cbn [Zdigits2] in Hm.
    set (d := Zpos (digits2_pos m)) in *.
    assert (Hd : 0 < d) by (subst d; lia).
    destruct (0 <=? e) eqn:E0.
    + apply Z.leb_le in E0.
      pose proof (Z.pow_pos_nonneg 2 e ltac:(lia) E0) as He2.
      split; [nia|].
      apply Z.lt_le_trans with (2 ^ d * 2 ^ e); [nia|].
      rewrite <- Z.pow_add_r by lia. apply Z.pow_le_mono_r; lia.
    + apply Z.leb_gt in E0.
      pose proof (Z.pow_pos_nonneg 2 (- e) ltac:(lia) ltac:(lia)) as He2.
      split; [apply Z.div_pos; lia|].
      apply Z.div_lt_upper_bound; [exact He2|].
      apply Z.lt_le_trans with (2 ^ d); [exact Hm|].
      rewrite <- Z.pow_add_r by lia. apply Z.pow_le_mono_r; lia.
Qed.

(** A project that uses at most 1024 times its quota: the number of
    filled cells is far within the index range, and the bar is built. *)
Lemma bar_built (storage_quota total_used : Z) (x : float) (qd : str) :
  0 < storage_quota -> 0 <= total_used <= 1024 * storage_quota ->
  percent_and_quota_display storage_quota total_used = inr (PyFloat x, qd) ->
  exists n,
    filled_length_of (PyFloat x) = inr n
    /\ 0 <= n < 2 ^ 21
    /\ bar_of n = inr (bar_cells n).
Proof.
  intros Hq Hu Hp.
  destruct (percent_limited _ _ _ _ Hq Hp) as (q & Eq & Ex & _).
  destruct (int_truediv_ratio total_used storage_quota 10 Hu Hq ltac:(lia))
    as (q' & Eq' & Bq).
  rewrite Eq in Eq'. injection Eq' as <-. injection Ex as ->.
  assert (Bx : below 20 (SFmul prec emax q f100)).
  { change 20 with (10 + 2 + 7 + 1).
    apply SFmul_below; [exact Bq| |lia|].
    - vm_compute. intuition discriminate.
    - destruct q as [s|s| |s m e]; try exact I.
      change f100 with (S754_finite false 7036874417766400 (-46)).
      cbn [below] in Bq. destruct Bq as (_ & _ & He & _).
      cbv beta iota. lia. }
  destruct (filled_length_below _ 20 Bx ltac:(lia)) as (n & En & Hn).
  change (2 ^ (20 + 1)) with (2 ^ 21) in Hn.
  exists n. split; [exact En|]. split; [exact Hn|].
  apply bar_of_cells. unfold bar_length. rewrite maxsize_eq.
  change (2 ^ 21) with 2097152 in Hn. lia.
Qed.

(** The whole run of [print_project_usage] on a project with a positive
    quota, once the bar is built. *)
Lemma print_limited_full
    (project : Project) (storage_info : StorageInfo) (show_details : bool)
    (x : float) (qd used : str) (n : Z) (bar : str) :
  let usage := calculate_project_usage (Data.project_key project) storage_info in
  let details :=
    if show_details && is_nonempty (repositories usage)
    then print_repo_details (storage_quota_bytes project) (repositories usage)
    else io_ret tt in
  0 < storage_quota_bytes project ->
  percent_and_quota_display (storage_quota_bytes project)
    (total_used_bytes usage) = inr (PyFloat x, qd) ->
  format_size (total_used_bytes usage) = inr used ->
  filled_length_of (PyFloat x) = inr n ->
  bar_of n = inr bar ->
  print_project_usage project storage_info show_details
  = ([nl :: separator_line;
      lit "项目名称: " ++ get_project_name_color (PyFloat x)
        ++ display_name project ++ reset_code
        ++ lit " (" ++ Data.project_key project ++ lit ")";
      lit "存储限制: " ++ qd;
      lit "已用空间: " ++ used;
      lit "仓库数量: " ++ int_str (repo_count usage);
      lit "使用比例: " ++ float_format_f 2 x ++ lit "%";
      lit "使用情况: [" ++ bar ++ lit "] " ++ float_format_f 1 x
        ++ lit "%"]
     ++ printed (print_warning (PyFloat x)) ++ printed details,
     outcome details).
Proof.
  intros usage details Hq Hp Hu Hn Hb.
  unfold print_project_usage. fold usage. rewrite Hp.
  replace (storage_quota_bytes project >? 0) with true
    by (symmetry; rewrite Z.gtb_ltb; apply Z.ltb_lt; exact Hq).
  cbn [lift io_bind print fst snd app]. rewrite Hu.
  cbn [lift io_bind print fst snd app]. rewrite Hn.
  unfold format_f. cbn [to_float bind ret].
  cbn [lift io_bind print fst snd app]. rewrite Hb.
  cbn [lift io_bind print fst snd app].
  pose proof (print_warning_outcome (PyFloat x)) as Hw.
  destruct (print_warning (PyFloat x)) as [wout [we|[]]];
    cbn [outcome snd] in Hw; [discriminate|].
  fold details. destruct details as [out r].
  cbn [printed outcome fst snd app]. reflexivity.
Qed.

End TierFacts.

(** ** The repository table *)

Section TableFacts.

Lemma pow2_1000_1023 : 2 ^ 1000 < 2 ^ 1023.
Proof. apply Z.pow_lt_mono_r; lia. Qed.

(** One row of the table, once the percentage is computed. *)
Lemma print_repo_row_defined (storage_quota : Z) (repo : Repo) :
  0 <= get (usedSpaceInBytes repo) 0 < 2 ^ 1000 ->
  exists size pct,
    format_size (get (usedSpaceInBytes repo) 0) = inr size
    /\ (storage_quota <= 0 -> pct = lit "N/A")
    /\ print_repo_row storage_quota repo
       = match repoKey repo with
         | None => ([], inl KeyError)
         | Some key =>
             ([padded key 25 ++ lit " "
               ++ padded (get (repoType repo) (lit "N/A")) 12
               ++ lit " " ++ padded size 18 ++ lit " " ++ padded pct 12],
              inr tt)
         end.
Proof.
  intros Hu.
  pose proof pow2_1000_1023 as P.
  destruct (format_size_defined (get (usedSpaceInBytes repo) 0)) as [size Es].
  { pose proof (Z.pow_pos_nonneg 2 1023 ltac:(lia) ltac:(lia)). lia. }
  exists size.
  destruct (Z_lt_le_dec 0 storage_quota) as [Hq|Hq].
  - destruct (int_truediv_below (get (usedSpaceInBytes repo) 0) storage_quota
                1000 Hu Hq ltac:(lia)) as (q & Eq & _).
    exists (float_format_f 2 (SFmul prec emax q f100) ++ lit "%").
    split; [exact Es|]. split; [lia|].
    rewrite print_repo_row_run. cbv zeta. unfold row_percent_display.
    replace (storage_quota >? 0) with true
      by (symmetry; rewrite Z.gtb_ltb; apply Z.ltb_lt; exact Hq).
    unfold truediv. rewrite Eq. cbn [bind ret]. unfold mul.
    cbn [to_float bind ret].
    change (int_to_float 100) with (@inr exn float f100).
    cbn [bind ret]. unfold format_f. cbn [to_float bind ret].
    cbn [lift io_bind].
    destruct (repoKey repo) as [key|]; cbn [lift io_bind ret raise];
      [|reflexivity].
    rewrite Es. reflexivity.
  - exists (lit "N/A"). split; [exact Es|]. split; [reflexivity|].
    rewrite (print_repo_row_unlimited _ _ Hq).
    destruct (repoKey repo); [|reflexivity]. rewrite Es. reflexivity.
Qed.

Lemma for_each_app {A} (a b : list A) (body : A -> IO unit) :
  for_each (a ++ b) body
  = io_bind (for_each a body) (fun _ => for_each b body).
Proof.
  induction a as [|x a IH]; cbn [app for_each].
  - unfold io_ret, io_bind. destruct (for_each b body). reflexivity.
  - rewrite IH. destruct (body x) as [out [e|[]]]; cbn [io_bind];
      [reflexivity|].
    destruct (for_each a body) as [out1 [e1|[]]]; cbn [io_bind].
    + reflexivity.
    + destruct (for_each b body) as [out2 r2]. now rewrite app_assoc.
Qed.

(** The rows of showable records: one line each, all printed. *)
Lemma rows_of_showable (storage_quota : Z) (repos : list Repo) :
  Forall showable repos ->
  exists lines,
    for_each repos (print_repo_row storage_quota) = (lines, inr tt)
    /\ List.length lines = List.length repos
    /\ Forall (fun l => 70 <= get_display_width l) lines.
Proof.
  induction 1 as [|r repos [Hk Hu] _ (lines & E & L & W)].
  - exists []. repeat split; constructor.
  - destruct (print_repo_row_defined storage_quota r Hu)
      as (size & pct & _ & _ & Er).
    destruct (repoKey r) as [key|]; [|congruence].
    eexists (_ :: lines). cbn [for_each]. rewrite Er, E. cbn [io_bind app].
    split; [reflexivity|]. split; [cbn [List.length]; lia|].
    constructor; [|exact W].
    rewrite !width_app, !width_padded.
    change (get_display_width (lit " ")) with 1. lia.
Qed.

(** The table stops at the first record without a [repoKey]. *)
Lemma rows_until_keyless (storage_quota : Z) (pre post : list Repo) (r : Repo) :
  Forall showable pre -> repoKey r = None ->
  0 <= get (usedSpaceInBytes r) 0 < 2 ^ 1000 ->
  exists lines,
    for_each (pre ++ r :: post) (print_repo_row storage_quota)
    = (lines, inl KeyError)
    /\ List.length lines = List.length pre.
Proof.
  intros Hpre Hk Hu.
  destruct (rows_of_showable storage_quota pre Hpre) as (lines & E & L & _).
  destruct (print_repo_row_defined storage_quota r Hu)
    as (size & pct & _ & _ & Er).
  rewrite Hk in Er.
  exists lines. split; [|exact L].
  rewrite for_each_app, E. cbn [io_bind for_each]. rewrite Er.
  cbn [io_bind]. now rewrite app_nil_r.
Qed.

Lemma table_of_showable (storage_quota : Z) (repos : list Repo) :
  Forall showable repos ->
  exists header lines,
    print_repo_details storage_quota repos
    = (table_title :: header :: dash_line :: lines, inr tt)
    /\ get_display_width header = 70
    /\ List.length lines = List.length repos
    /\ Forall (fun l => 70 <= get_display_width l) lines.
Proof.
  intros H. destruct (rows_of_showable storage_quota repos H)
    as (lines & E & L & W).
  eexists. exists lines. rewrite print_repo_details_run, E.
  cbn [print io_bind app]. split; [reflexivity|].
  split; [vm_compute; reflexivity|]. auto.
Qed.

Lemma table_until_keyless (storage_quota : Z) (pre post : list Repo) (r : Repo) :
  Forall showable pre -> repoKey r = None ->
  0 <= get (usedSpaceInBytes r) 0 < 2 ^ 1000 ->
  exists header lines,
    print_repo_details storage_quota (pre ++ r :: post)
    = (table_title :: header :: dash_line :: lines, inl KeyError)
    /\ List.length lines = List.length pre.
Proof.
  intros Hpre Hk Hu.
  destruct (rows_until_keyless storage_quota pre post r Hpre Hk Hu)
    as (lines & E & L).
  eexists. exists lines. rewrite print_repo_details_run, E.
  cbn [print io_bind app]. split; [reflexivity|exact L].
Qed.

(** The run up to the table, for sizes within range and a bar that is
    built: six lines without a positive quota; seven and at most one
    warning with one. *)
Lemma print_summary_defined
    (project : Project) (storage_info : StorageInfo) (show_details : bool) :
  let usage := calculate_project_usage (Data.project_key project) storage_info in
  let details :=
    if show_details && is_nonempty (repositories usage)
    then print_repo_details (storage_quota_bytes project) (repositories usage)
    else io_ret tt in
  storage_quota_bytes project < 2 ^ 1023 ->
  0 <= total_used_bytes usage < 2 ^ 1000 ->
  (0 < storage_quota_bytes project ->
   total_used_bytes usage <= 1024 * storage_quota_bytes project) ->
  exists summary,
    print_project_usage project storage_info show_details
    = (summary ++ printed details, outcome details)
    /\ (storage_quota_bytes project <= 0 -> List.length summary = 6%nat)
    /\ (0 < storage_quota_bytes project ->
        List.length summary = 7%nat \/ List.length summary = 8%nat)
    /\ ~ In table_title summary.
Proof.
  intros usage details Hq Ht Hr.
  pose proof pow2_1000_1023 as P.
  destruct (format_size_defined (total_used_bytes usage)) as [used Eu].
  { pose proof (Z.pow_pos_nonneg 2 1023 ltac:(lia) ltac:(lia)). lia. }
  assert (T : forall l : str, hd 0 l <> 10 -> l <> table_title).
  { intros l H ->. apply H. reflexivity. }
  destruct (Z_lt_le_dec 0 (storage_quota_bytes project)) as [Hpos|Hneg].
  - destruct (percent_defined _ _ (conj Hpos Hq) Ht) as (x & qd & Ep & Bx).
    destruct (bar_built (storage_quota_bytes project) (total_used_bytes usage)
                x qd Hpos (conj (proj1 Ht) (Hr Hpos)) Ep)
      as (n & En & Hn & Eb).
    rewrite (print_limited_full project storage_info show_details x qd used n
               (bar_cells n) Hpos Ep Eu En Eb).
    fold usage. fold details.
    match goal with
    | |- context [(?a ++ ?b ++ printed details, _)] => exists (a ++ b)
    end.
    split; [apply (f_equal (fun l => (l, outcome details))), app_assoc|].
    assert (W : printed (print_warning (PyFloat x)) = [critical_warning]
                \/ printed (print_warning (PyFloat x)) = [attention_warning]
                \/ printed (print_warning (PyFloat x)) = []).
    { unfold print_warning.
      destruct (PyNum.gt (PyFloat x) (PyInt 90)); [left; reflexivity|].
      destruct (PyNum.gt (PyFloat x) (PyInt 80)); auto. }
    split; [lia|split].
    + intros _. rewrite length_app. cbn [List.length].
      destruct W as [-> |[-> | ->]]; cbn [List.length]; lia.
    + intros Hin. apply in_app_or in Hin. destruct Hin as [Hin|Hin].
      * cbn [In] in Hin.
        destruct Hin as [H|[H|[H|[H|[H|[H|[H|[]]]]]]]];
          try (revert H; apply T; vm_compute; discriminate).
        apply (f_equal (fun l => nth 1 l 0)) in H.
        vm_compute in H. discriminate.
      * destruct W as [W|[W|W]]; rewrite W in Hin; cbn [In] in Hin;
          [| |exact Hin];
          destruct Hin as [H|[]];
          revert H; apply T; vm_compute; discriminate.
  - rewrite (print_unlimited project storage_info show_details Hneg).
    fold usage. rewrite Eu. cbv zeta. fold usage. fold details.
    match goal with
    | |- context [(?a ++ ?b ++ printed details, _)] => exists (a ++ b)
    end.
    split; [apply (f_equal (fun l => (l, outcome details))), app_assoc|].
    split; [reflexivity|].
    split; [lia|].
    cbn [app In].
    intros [H|[H|[H|[H|[H|[H|[]]]]]]];
      try (revert H; apply T; vm_compute; discriminate).
    apply (f_equal (fun l => nth 1 l 0)) in H.
    vm_compute in H. discriminate.
Qed.

End TableFacts.

(** ** The parts of a report *)

Section ReportFacts.

(** The table comes last: a run with the table is the run without it,
    followed by the table. *)
Lemma print_details_split
    (project : Project) (storage_info : StorageInfo) (show_details : bool) :
  let usage := calculate_project_usage (Data.project_key project) storage_info in
  print_project_usage project storage_info show_details
  = io_bind (print_project_usage project storage_info false)
      (fun _ =>
         if show_details && is_nonempty (repositories usage)
         then print_repo_details (storage_quota_bytes project)
                (repositories usage)
         else io_ret tt).
Proof.
  intros usage. unfold print_project_usage. fold usage.
  cbn [andb].
  set (details := if show_details && is_nonempty (repositories usage)
                  then print_repo_details (storage_quota_bytes project)
                         (repositories usage)
                  else io_ret tt).
  destruct (percent_and_quota_display _ _) as [e|[p qd]];
    cbn [lift io_bind print fst snd app]; [reflexivity|].
  destruct (format_size _) as [e|used];
    cbn [lift io_bind print fst snd app]; [reflexivity|].
  destruct (storage_quota_bytes project >? 0).
  - destruct (format_f 2 p) as [e|t2];
      cbn [lift io_bind print fst snd app]; [reflexivity|].
    destruct (filled_length_of p) as [e|n];
      cbn [lift io_bind print fst snd app]; [reflexivity|].
    destruct (bar_of n) as [e|bar];
      cbn [lift io_bind print fst snd app]; [reflexivity|].
    destruct (format_f 1 p) as [e|t1];
      cbn [lift io_bind print fst snd app]; [reflexivity|].
    destruct (print_warning p) as [wout [we|[]]];
      cbn [lift io_bind io_ret print fst snd app]; [reflexivity|].
    destruct details as [out r]. rewrite app_nil_r. reflexivity.
  - cbn [lift io_bind io_ret print fst snd app].
    destruct details as [out r]. reflexivity.
Qed.

(** Without the table no line of a project block is the title of the
    table. *)
Lemma no_table_without_details
    (project : Project) (storage_info : StorageInfo) :
  ~ In table_title
       (printed (print_project_usage project storage_info false)).
Proof.
  unfold print_project_usage. cbn [andb].
  destruct (percent_and_quota_display _ _) as [e|[p qd]];
    cbn [lift io_bind print fst snd app printed]; [intros []|].
  destruct (format_size _) as [e|used];
    cbn [lift io_bind print fst snd app printed];
    [intros H; no_title_in H|].
  destruct (storage_quota_bytes project >? 0).
  - destruct (format_f 2 p) as [e|t2];
      cbn [lift io_bind print fst snd app printed];
      [intros H; no_title_in H|].
    destruct (filled_length_of p) as [e|n];
      cbn [lift io_bind print fst snd app printed];
      [intros H; no_title_in H|].
    destruct (bar_of n) as [e|bar];
      cbn [lift io_bind print fst snd app printed];
      [intros H; no_title_in H|].
    destruct (format_f 1 p) as [e|t1];
      cbn [lift io_bind print fst snd app printed];
      [intros H; no_title_in H|].
    unfold print_warning.
    destruct (PyNum.gt p (PyInt 90));
      [|destruct (PyNum.gt p (PyInt 80))];
      cbn [lift io_bind io_ret print fst snd app printed];
      intros H; no_title_in H.
  - cbn [lift io_bind io_ret print fst snd app printed].
    intros H; no_title_in H.
Qed.

Lemma printed_bind {A B} (c : IO A) (k : A -> IO B) (l : str) :
  In l (printed (io_bind c k)) ->
  In l (printed c) \/ exists a, outcome c = inr a /\ In l (printed (k a)).
Proof.
  destruct c as [out [e|a]]; cbn [io_bind printed outcome fst snd].
  - auto.
  - destruct (k a) as [out' r] eqn:E. cbn [fst]. intros H.
    apply in_app_or in H. destruct H; [auto|].
    right. exists a. rewrite E. auto.
Qed.

Lemma for_each_printed {A} (xs : list A) (body : A -> IO unit) (l : str) :
  In l (printed (for_each xs body)) ->
  exists x, In x xs /\ In l (printed (body x)).
Proof.
  induction xs as [|x xs IH]; cbn [for_each].
  - intros [].
  - intros H. apply printed_bind in H. destruct H as [H|(_ & _ & H)].
    + exists x. split; [left; reflexivity|exact H].
    + destruct (IH H) as (y & Hy & Hl). exists y. split; [right|]; auto.
Qed.

(** The run of the all-projects branch, in terms of the runs of the
    project blocks. *)
Lemma report_all_run (details : bool) (projects : list Project)
    (storage_info : StorageInfo) :
  let blocks :=
    for_each projects
      (fun project => print_project_usage project storage_info details) in
  report_all details projects storage_info
  = match outcome blocks with
    | inl e => ((lit "项目列表:" ++ [nl]) :: printed blocks, inl e)
    | inr _ =>
        if total_quota projects >? 0 then
          match format_size (total_quota projects) with
          | inl e =>
              ((lit "项目列表:" ++ [nl]) :: printed blocks
               ++ summary_lines projects, inl e)
          | inr t =>
              ((lit "项目列表:" ++ [nl]) :: printed blocks
               ++ summary_lines projects ++ [lit "总存储限制: " ++ t],
               inr tt)
          end
        else
          ((lit "项目列表:" ++ [nl]) :: printed blocks
           ++ summary_lines projects, inr tt)
    end.
Proof.
  intros blocks. unfold report_all. fold blocks. fold (total_quota projects).
  destruct blocks as [out [e|[]]];
    cbn [outcome printed fst snd io_bind print app]; [reflexivity|].
  destruct (total_quota projects >? 0).
  - destruct (format_size (total_quota projects)) as [e|t];
      cbn [lift io_bind print io_ret app].
    + reflexivity.
    + unfold summary_lines. rewrite <- ?app_assoc. reflexivity.
  - cbn [io_bind io_ret app]. unfold summary_lines.
    rewrite ?app_nil_r. reflexivity.
Qed.

End ReportFacts.

Lemma table_starts_with_title (storage_quota : Z) (repos : list Repo) :
  exists rest,
    printed (print_repo_details storage_quota repos) = table_title :: rest.
Proof.
  rewrite print_repo_details_run.
  destruct (for_each repos (print_repo_row storage_quota)) as [out r].
  cbn [print io_bind printed fst app]. eexists. reflexivity.
Qed.

(** X4. [print_project_usage] returns normally whenever the quota is
    below [2 ^ 1023], the bytes used lie in [0, 2 ^ 1000) and, for a
    positive quota, are at most 1024 times the quota (the bar is then
    built), and, when the table is asked for, every kept record has a
    [repoKey] and a size in that range.  It prints the summary, 6 lines
    without a positive quota and 7 or 8 with one, and then the table:
    nothing, or 3 lines and one row per kept record. *)
Theorem print_project_usage_completes
    (project : Project) (storage_info : StorageInfo) (show_details : bool) :
  let usage := calculate_project_usage (Data.project_key project) storage_info in
  storage_quota_bytes project < 2 ^ 1023 ->
  0 <= total_used_bytes usage < 2 ^ 1000 ->
  (0 < storage_quota_bytes project ->
   total_used_bytes usage <= 1024 * storage_quota_bytes project) ->
  (show_details = true ->
   Forall (fun repo => repoKey repo <> None
                       /\ 0 <= get (usedSpaceInBytes repo) 0 < 2 ^ 1000)
          (repositories usage)) ->
  exists summary table,
    print_project_usage project storage_info show_details
    = (summary ++ table, inr tt)
    /\ (storage_quota_bytes project <= 0 -> List.length summary = 6%nat)
    /\ (0 < storage_quota_bytes project ->
        List.length summary = 7%nat \/ List.length summary = 8%nat)
    /\ List.length table
       = (if show_details && is_nonempty (repositories usage)
          then 3 + List.length (repositories usage) else 0)%nat.
Proof.
  intros usage Hq Ht Hr Hs.
  destruct (print_summary_defined project storage_info show_details Hq Ht Hr)
    as (summary & E & L0 & L & _).
  fold usage in E. exists summary.
  destruct (show_details && is_nonempty (repositories usage)) eqn:Ed.
  - apply andb_true_iff in Ed. destruct Ed as [-> _].
    destruct (table_of_showable (storage_quota_bytes project)
                (repositories usage) (Hs eq_refl))
      as (header & lines & Et & _ & Ll & _).
    rewrite Et in E. cbn [printed outcome fst snd] in E.
    eexists. split; [exact E|]. split; [exact L0|]. split; [exact L|].
    cbn [List.length]. lia.
  - exists []. cbn [printed outcome io_ret fst snd] in E.
    split; [exact E|]. auto.
Qed.

Lemma print_project_usage_completes_witness :
  let project :=
    {| project_key := lit "proj1"; display_name := lit "Project One";
       storage_quota_bytes := 1000 |} in
  let storage_info :=
    {| repositoriesSummaryList :=
         Some [ {| projectKey := Some (lit "proj1");
                   repoKey := Some (lit "r1");
                   repoType := Some (lit "maven");
                   usedSpaceInBytes := Some 900 |} ] |} in
  let usage := calculate_project_usage (Data.project_key project) storage_info in
  exists summary table,
    print_project_usage project storage_info true
    = (summary ++ table, inr tt)
    /\ (storage_quota_bytes project <= 0 -> List.length summary = 6%nat)
    /\ (0 < storage_quota_bytes project ->
        List.length summary = 7%nat \/ List.length summary = 8%nat)
    /\ List.length table
       = (if true && is_nonempty (repositories usage)
          then 3 + List.length (repositories usage) else 0)%nat.
Proof.
  intros project storage_info usage.
  apply (print_project_usage_completes project storage_info true).
  - vm_compute. reflexivity.
  - vm_compute. split; [discriminate|reflexivity].
  - intros _. vm_compute. discriminate.
  - intros _. repeat constructor; vm_compute; (discriminate || reflexivity).
Defined.

(** X5. A record without a [repoKey] passes the filter of
    [calculate_project_usage] ([None != 'TOTAL']) and is counted in the
    summary.  For sizes within range (the quota below [2 ^ 1023], the
    bytes used in [0, 2 ^ 1000) and at most 1024 times a positive quota,
    the records before the keyless one with a [repoKey] and a size in
    [0, 2 ^ 1000), as that of the keyless one) the run without the table
    returns normally, while the run with the table raises [KeyError] at
    the row of that record, after the three header lines and the rows
    before it. *)
Theorem keyless_record_breaks_table
    (project : Project) (storage_info : StorageInfo)
    (pre post : list Repo) (r : Repo) :
  let usage := calculate_project_usage (Data.project_key project) storage_info in
  storage_quota_bytes project < 2 ^ 1023 ->
  0 <= total_used_bytes usage < 2 ^ 1000 ->
  (0 < storage_quota_bytes project ->
   total_used_bytes usage <= 1024 * storage_quota_bytes project) ->
  repositories usage = pre ++ r :: post ->
  Forall (fun repo => repoKey repo <> None
                      /\ 0 <= get (usedSpaceInBytes repo) 0 < 2 ^ 1000) pre ->
  repoKey r = None -> 0 <= get (usedSpaceInBytes r) 0 < 2 ^ 1000 ->
  in_project (Data.project_key project) r = true
  /\ outcome (print_project_usage project storage_info false) = inr tt
  /\ outcome (print_project_usage project storage_info true) = inl KeyError
  /\ List.length (printed (print_project_usage project storage_info true))
     = (List.length
          (printed (print_project_usage project storage_info false))
        + 3 + List.length pre)%nat.
Proof.
  intros usage Hq Ht Hr Er Hpre Hk Hu.
  split.
  { assert (Hin : In r (repositories usage))
      by (rewrite Er; apply in_or_app; right; left; reflexivity).
    unfold usage, calculate_project_usage in Hin. cbn [repositories] in Hin.
    apply filter_In in Hin. tauto. }
  destruct (print_summary_defined project storage_info false Hq Ht Hr)
    as (s0 & E0 & _).
  destruct (print_summary_defined project storage_info true Hq Ht Hr)
    as (s1 & E1 & _).
  cbn [andb] in E0. cbn [printed outcome io_ret fst snd] in E0.
  fold usage in E1. rewrite Er in E1.
  replace (true && is_nonempty (pre ++ r :: post)) with true in E1
    by (destruct pre; reflexivity).
  destruct (table_until_keyless (storage_quota_bytes project) pre post r
              Hpre Hk Hu) as (header & lines & Et & Ll).
  rewrite Et in E1. cbn [printed outcome fst snd] in E1.
  pose proof (print_details_split project storage_info true) as S.
  cbv zeta in S. rewrite E0 in S. cbn [io_bind] in S.
  fold usage in S. rewrite Er in S.
  replace (true && is_nonempty (pre ++ r :: post)) with true in S
    by (destruct pre; reflexivity).
  rewrite Et in S.
  rewrite E0, S. cbn [outcome printed fst snd].
  split; [reflexivity|]. split; [reflexivity|].
  rewrite !length_app. cbn [List.length]. lia.
Qed.

Lemma keyless_record_breaks_table_witness :
  let project :=
    {| project_key := lit "proj1"; display_name := lit "Project One";
       storage_quota_bytes := 0 |} in
  let keyless :=
    {| projectKey := Some (lit "proj1"); repoKey := None;
       repoType := None; usedSpaceInBytes := Some 5 |} in
  let storage_info := {| repositoriesSummaryList := Some [keyless] |} in
  in_project (Data.project_key project) keyless = true
  /\ outcome (print_project_usage project storage_info false) = inr tt
  /\ outcome (print_project_usage project storage_info true) = inl KeyError
  /\ List.length (printed (print_project_usage project storage_info true))
     = (List.length
          (printed (print_project_usage project storage_info false))
        + 3 + List.length (@nil Repo))%nat.
Proof.
  intros project keyless storage_info.
  apply (keyless_record_breaks_table project storage_info [] [] keyless).
  - vm_compute. reflexivity.
  - vm_compute. split; [discriminate|reflexivity].
  - intros H. vm_compute in H. discriminate H.
  - reflexivity.
  - constructor.
  - reflexivity.
  - vm_compute. split; [discriminate|reflexivity].
Defined.

(** X6. The repository table is the last thing a project block prints:
    the run with the table equals the run without it when no record is
    kept or when that run raises; otherwise its output is the output
    without the table followed by the table, which starts with its
    title, and its outcome is the outcome of the table. *)
Theorem details_come_last
    (project : Project) (storage_info : StorageInfo) :
  let usage := calculate_project_usage (Data.project_key project) storage_info in
  let plain := print_project_usage project storage_info false in
  let full := print_project_usage project storage_info true in
  (repositories usage = [] -> full = plain)
  /\ (outcome plain <> inr tt -> full = plain)
  /\ (outcome plain = inr tt -> repositories usage <> [] ->
      exists rows,
        printed full = printed plain ++ table_title :: rows
        /\ outcome full
           = outcome (print_repo_details (storage_quota_bytes project)
                        (repositories usage))).
Proof.
  intros usage plain full.
  pose proof (print_details_split project storage_info true) as S.
  cbv zeta in S. fold usage in S. fold plain in S. fold full in S.
  cbn [andb] in S.
  split; [|split].
  - intros E. rewrite E in S. cbn [is_nonempty] in S. rewrite S.
    destruct plain as [out [e|[]]]; cbn [io_bind io_ret]; [reflexivity|].
    now rewrite app_nil_r.
  - intros H. rewrite S. destruct plain as [out [e|[]]]; cbn [io_bind].
    + reflexivity.
    + exfalso. apply H. reflexivity.
  - intros Ho Hne. rewrite S.
    destruct (repositories usage) as [|r0 rest]; [congruence|].
    cbn [is_nonempty].
    destruct (table_starts_with_title (storage_quota_bytes project)
                (r0 :: rest)) as [rows Et].
    destruct plain as [out [e|[]]]; cbn [outcome snd] in Ho; [discriminate|].
    cbn [io_bind].
    destruct (print_repo_details (storage_quota_bytes project) (r0 :: rest))
      as [tout tr].
    cbn [printed outcome fst snd] in *. subst tout.
    exists rows. auto.
Qed.

(** X7. A project with a positive quota and nothing stored: the
    percentage is 0.0, so the block is the green name line, the quota,
    [0 B], the count, [0.00%], a bar of 30 empty cells with [0.0%], and
    no warning. *)
Theorem empty_project_rendering
    (project : Project) (storage_info : StorageInfo) :
  let usage := calculate_project_usage (Data.project_key project) storage_info in
  0 < storage_quota_bytes project < 2 ^ 1023 ->
  total_used_bytes usage = 0 ->
  exists quota_display,
    format_size (storage_quota_bytes project) = inr quota_display
    /\ print_project_usage project storage_info false
       = ([nl :: separator_line;
           lit "项目名称: " ++ green ++ display_name project ++ reset_code
             ++ lit " (" ++ Data.project_key project ++ lit ")";
           lit "存储限制: " ++ quota_display;
           lit "已用空间: 0 B";
           lit "仓库数量: " ++ int_str (repo_count usage);
           lit "使用比例: 0.00%";
           lit "使用情况: [" ++ repeat 9617 30 ++ lit "] 0.0%"],
          inr tt).
Proof.
  intros usage Hq H0.
  destruct (format_size_defined (storage_quota_bytes project)) as [qd Eq].
  { lia. }
  exists qd. split; [exact Eq|].
  assert (Ep : percent_and_quota_display (storage_quota_bytes project)
                 (total_used_bytes usage)
               = inr (PyFloat (S754_zero false), qd)).
  { rewrite H0. unfold percent_and_quota_display.
    replace (storage_quota_bytes project >? 0) with true
      by (symmetry; rewrite Z.gtb_ltb; apply Z.ltb_lt; lia).
    unfold truediv, int_truediv.
    replace (storage_quota_bytes project =? 0) with false
      by (symmetry; apply Z.eqb_neq; lia).
    change (0 =? 0) with true. cbv iota.
    replace (storage_quota_bytes project <? 0) with false
      by (symmetry; apply Z.ltb_ge; lia).
    cbn [bind ret]. unfold mul. cbn [to_float bind ret].
    change (int_to_float 100) with (@inr exn float f100).
    cbn [bind ret]. rewrite Eq. reflexivity. }
  rewrite (print_limited_full project storage_info false
             (S754_zero false) qd (lit "0 B") 0 (repeat 9617 30)
             (proj1 Hq) Ep).
  - reflexivity.
  - fold usage. rewrite H0. reflexivity.
  - reflexivity.
  - reflexivity.
Qed.

Lemma empty_project_rendering_witness :
  let project :=
    {| project_key := lit "proj1"; display_name := lit "Project One";
       storage_quota_bytes := 1000 |} in
  let storage_info := {| repositoriesSummaryList := None |} in
  let usage := calculate_project_usage (Data.project_key project) storage_info in
  exists quota_display,
    format_size (storage_quota_bytes project) = inr quota_display
    /\ print_project_usage project storage_info false
       = ([nl :: separator_line;
           lit "项目名称: " ++ green ++ display_name project ++ reset_code
             ++ lit " (" ++ Data.project_key project ++ lit ")";
           lit "存储限制: " ++ quota_display;
           lit "已用空间: 0 B";
           lit "仓库数量: " ++ int_str (repo_count usage);
           lit "使用比例: 0.00%";
           lit "使用情况: [" ++ repeat 9617 30 ++ lit "] 0.0%"],
          inr tt).
Proof.
  intros project storage_info usage.
  apply (empty_project_rendering project storage_info).
  - vm_compute. split; reflexivity.
  - reflexivity.
Defined.

(** The first three lines of a block are printed as soon as the
    percentage is computed. *)
Lemma print_project_usage_head
    (project : Project) (storage_info : StorageInfo) (show_details : bool)
    (p : pynum) (qd : str) :
  let usage := calculate_project_usage (Data.project_key project) storage_info in
  percent_and_quota_display (storage_quota_bytes project)
    (total_used_bytes usage) = inr (p, qd) ->
  exists rest r,
    print_project_usage project storage_info show_details
    = ((nl :: separator_line)
       :: (lit "项目名称: " ++ get_project_name_color p
           ++ display_name project ++ reset_code
           ++ lit " (" ++ Data.project_key project ++ lit ")")
       :: (lit "存储限制: " ++ qd) :: rest, r).
Proof.
  intros usage Hp. unfold print_project_usage. fold usage. rewrite Hp.
  cbn [lift io_bind print fst snd app].
  destruct (format_size (total_used_bytes usage)) as [e|used];
    cbn [lift io_bind print fst snd app].
  - eexists. eexists. reflexivity.
  - match goal with
    | |- context [io_bind (if ?c then ?a else ?b) ?k] =>
        destruct (io_bind (if c then a else b) k) as [out r]
    end.
    eexists. eexists. reflexivity.
Qed.

(** X8. A project whose bytes used have reached its quota is in the
    top tier: the percentage computed in float arithmetic is greater
    than 90, so the name is printed in red; and when the bytes used are
    at most 1024 times the quota, so that the bar is built, the eighth
    line is the critical warning. *)
Theorem over_quota_is_critical
    (project : Project) (storage_info : StorageInfo) (show_details : bool) :
  let usage := calculate_project_usage (Data.project_key project) storage_info in
  let out := printed (print_project_usage project storage_info show_details) in
  0 < storage_quota_bytes project <= total_used_bytes usage ->
  total_used_bytes usage < 2 ^ 1000 ->
  exists (x : float) (quota_display : str),
    percent_and_quota_display (storage_quota_bytes project)
      (total_used_bytes usage) = inr (PyFloat x, quota_display)
    /\ PyNum.gt (PyFloat x) (PyInt 90) = true
    /\ nth 1 out []
       = lit "项目名称: " ++ red ++ display_name project ++ reset_code
           ++ lit " (" ++ Data.project_key project ++ lit ")"
    /\ (total_used_bytes usage <= 1024 * storage_quota_bytes project ->
        nth 7 out [] = critical_warning).
Proof.
  intros usage out Hq Ht. subst out.
  pose proof pow2_1000_1023 as P.
  destruct (percent_defined (storage_quota_bytes project)
              (total_used_bytes usage) ltac:(lia) ltac:(lia))
    as (x & qd & Ep & Bx).
  destruct (format_size_defined (total_used_bytes usage)) as [used Eu].
  { pose proof (Z.pow_pos_nonneg 2 1023 ltac:(lia) ltac:(lia)). lia. }
  destruct (percent_limited _ _ _ _ (proj1 Hq) Ep) as (q & Eq & Ex & _).
  injection Ex as Ex.
  pose proof (int_truediv_at_least_1 _ _ q Hq Eq) as A1.
  pose proof (mul_100_at_least q A1) as A100. rewrite <- Ex in A100.
  pose proof (gt_90_at_least x A100) as G.
  exists x, qd. split; [exact Ep|]. split; [exact G|]. split.
  - destruct (print_project_usage_head project storage_info show_details
                (PyFloat x) qd Ep) as (rest & r & E).
    rewrite E. unfold get_project_name_color. rewrite G. reflexivity.
  - intros Hr.
    destruct (bar_built (storage_quota_bytes project) (total_used_bytes usage)
                x qd (proj1 Hq) ltac:(lia) Ep) as (n & En & Hn & Eb).
    rewrite (print_limited_full project storage_info show_details x qd used n
               (bar_cells n) (proj1 Hq) Ep Eu En Eb).
    unfold print_warning. rewrite G. reflexivity.
Qed.

Lemma over_quota_is_critical_witness :
  let project :=
    {| project_key := lit "proj1"; display_name := lit "Project One";
       storage_quota_bytes := 1000 |} in
  let storage_info :=
    {| repositoriesSummaryList :=
         Some [ {| projectKey := Some (lit "proj1");
                   repoKey := Some (lit "r1");
                   repoType := Some (lit "maven");
                   usedSpaceInBytes := Some 1000 |} ] |} in
  let usage := calculate_project_usage (Data.project_key project) storage_info in
  let out := printed (print_project_usage project storage_info false) in
  exists (x : float) (quota_display : str),
    percent_and_quota_display (storage_quota_bytes project)
      (total_used_bytes usage) = inr (PyFloat x, quota_display)
    /\ PyNum.gt (PyFloat x) (PyInt 90) = true
    /\ nth 1 out []
       = lit "项目名称: " ++ red ++ display_name project ++ reset_code
           ++ lit " (" ++ Data.project_key project ++ lit ")"
    /\ nth 7 out [] = critical_warning.
Proof.
  intros project storage_info usage out.
  destruct (over_quota_is_critical project storage_info false)
    as (x & qd & Ep & G & E1 & E7).
  - vm_compute. split; [reflexivity|discriminate].
  - vm_compute. reflexivity.
  - exists x, qd. split; [exact Ep|]. split; [exact G|].
    split; [exact E1|]. apply E7. vm_compute. discriminate.
Defined.

(** X25. A project within its quota has a bar of exactly 30 cells: the
    filled count [int(30 * usage_percent / 100)], computed in float
    arithmetic, lies between 0 and 30, the bar is that many filled cells
    followed by the empty cells left of the 30, and it is what the
    seventh line of the block shows. *)
Theorem usage_bar_within_quota
    (project : Project) (storage_info : StorageInfo) (show_details : bool) :
  let usage := calculate_project_usage (Data.project_key project) storage_info in
  0 < storage_quota_bytes project < 2 ^ 1023 ->
  0 <= total_used_bytes usage <= storage_quota_bytes project ->
  exists (x : float) (qd : str) (n : Z) (t1 : str),
    let bar := repeat 9608 (Z.to_nat n) ++ repeat 9617 (Z.to_nat (30 - n)) in
    percent_and_quota_display (storage_quota_bytes project)
      (total_used_bytes usage) = inr (PyFloat x, qd)
    /\ filled_length_of (PyFloat x) = inr n
    /\ 0 <= n <= 30
    /\ bar_of n = inr bar
    /\ List.length bar = 30%nat
    /\ format_f 1 (PyFloat x) = inr t1
    /\ nth 6 (printed (print_project_usage project storage_info show_details))
           []
       = lit "使用情况: [" ++ bar ++ lit "] " ++ t1 ++ lit "%".
Proof.
  intros usage Hq Hu.
  destruct (filled_length_within_quota (storage_quota_bytes project)
              (total_used_bytes usage) (proj1 Hq) Hu)
    as (q & Eq & n & En & Hn).
  destruct (format_size_defined (storage_quota_bytes project)) as [qd Eqd].
  { lia. }
  destruct (format_size_defined (total_used_bytes usage)) as [used Eu].
  { lia. }
  set (x := SFmul prec emax q f100) in *.
  assert (Ep : percent_and_quota_display (storage_quota_bytes project)
                 (total_used_bytes usage) = inr (PyFloat x, qd)).
  { unfold percent_and_quota_display.
    replace (storage_quota_bytes project >? 0) with true
      by (symmetry; rewrite Z.gtb_ltb; apply Z.ltb_lt; lia).
    unfold truediv. rewrite Eq. cbn [bind ret]. unfold mul.
    cbn [to_float bind ret].
    change (int_to_float 100) with (@inr exn float f100).
    cbn [bind ret]. rewrite Eqd. reflexivity. }
  assert (Eb : bar_of n = inr (bar_cells n)).
  { apply bar_of_cells. unfold bar_length. rewrite maxsize_eq. lia. }
  exists x, qd, n, (float_format_f 1 x). cbv zeta.
  split; [exact Ep|]. split; [exact En|]. split; [exact Hn|].
  split; [exact Eb|]. split; [apply (bar_cells_length n Hn)|].
  split; [reflexivity|].
  rewrite (print_limited_full project storage_info show_details x qd used n
             (bar_cells n) (proj1 Hq) Ep Eu En Eb).
  reflexivity.
Qed.

Lemma usage_bar_within_quota_witness :
  let proj1000 := {| project_key := lit "proj1"; display_name := lit "proj1";
                     storage_quota_bytes := 1000 |} in
  let info :=
    {| repositoriesSummaryList :=
         Some [ {| projectKey := Some (lit "proj1");
                   repoKey := Some (lit "r1"); repoType := None;
                   usedSpaceInBytes := Some 900 |};
                {| projectKey := Some (lit "proj1");
                   repoKey := Some (lit "TOTAL"); repoType := None;
                   usedSpaceInBytes := Some 900 |} ] |} in
  let usage := calculate_project_usage (Data.project_key proj1000) info in
  (exists (x : float) (qd : str) (n : Z) (t1 : str),
     let bar := repeat 9608 (Z.to_nat n) ++ repeat 9617 (Z.to_nat (30 - n)) in
     percent_and_quota_display (storage_quota_bytes proj1000)
       (total_used_bytes usage) = inr (PyFloat x, qd)
     /\ filled_length_of (PyFloat x) = inr n
     /\ 0 <= n <= 30
     /\ bar_of n = inr bar
     /\ List.length bar = 30%nat
     /\ format_f 1 (PyFloat x) = inr t1
     /\ nth 6 (printed (print_project_usage proj1000 info false)) []
        = lit "使用情况: [" ++ bar ++ lit "] " ++ t1 ++ lit "%")
  /\ nth 6 (printed (print_project_usage proj1000 info false)) []
     = lit "使用情况: [" ++ repeat 9608 27 ++ repeat 9617 3 ++ lit "] 90.0%".
Proof.
  intros proj1000 info usage. split.
  - apply (usage_bar_within_quota proj1000 info false).
    + vm_compute. split; reflexivity.
    + vm_compute. split; discriminate.
  - vm_compute. reflexivity.
Defined.

(** X9. A row of the table that is printed has a [repoKey]; it is made
    of the key, the type (["N/A"] when absent), the size text and the
    percentage text, each padded on its right to 25, 12, 18 and 12
    columns and separated by one space.  Its display width is the sum of
    the four column widths, each the larger of the column's target and
    the width of its text, plus the three spaces: at least 70, the width
    of the header and of the rule. *)
Theorem table_row_width (storage_quota : Z) (repo : Repo) (line : str) :
  print_repo_row storage_quota repo = ([line], inr tt) ->
  exists key size percent_display,
    repoKey repo = Some key
    /\ format_size (get (usedSpaceInBytes repo) 0) = inr size
    /\ row_percent_display storage_quota (get (usedSpaceInBytes repo) 0)
       = inr percent_display
    /\ line
       = padded key 25 ++ lit " "
         ++ padded (get (repoType repo) (lit "N/A")) 12 ++ lit " "
         ++ padded size 18 ++ lit " " ++ padded percent_display 12
    /\ get_display_width line
       = Z.max 25 (get_display_width key)
         + Z.max 12 (get_display_width (get (repoType repo) (lit "N/A")))
         + Z.max 18 (get_display_width size)
         + Z.max 12 (get_display_width percent_display) + 3
    /\ 70 <= get_display_width line.
Proof.
  rewrite print_repo_row_run. cbv zeta.
  destruct (row_percent_display _ _) as [e|pct]; cbn [lift io_bind];
    [discriminate|].
  destruct (repoKey repo) as [key|]; cbn [lift io_bind ret raise];
    [|discriminate].
  destruct (format_size _) as [e|size]; cbn [lift io_bind print app];
    [discriminate|].
  intros E. injection E as <-.
  exists key, size, pct. split; [reflexivity|]. split; [reflexivity|].
  split; [reflexivity|]. split; [reflexivity|].
  change (lit " ") with [32]. cbn [app].
  repeat (rewrite width_app || rewrite width_cons).
  rewrite !width_padded. change (char_width 32) with 1. split; lia.
Qed.

Lemma table_row_width_witness :
  let repo :=
    {| projectKey := Some (lit "proj1"); repoKey := Some (lit "仓库-r1");
       repoType := Some (lit "maven"); usedSpaceInBytes := Some 900 |} in
  let line := nth 0 (printed (print_repo_row 1000 repo)) [] in
  exists key size percent_display,
    repoKey repo = Some key
    /\ format_size (get (usedSpaceInBytes repo) 0) = inr size
    /\ row_percent_display 1000 (get (usedSpaceInBytes repo) 0)
       = inr percent_display
    /\ line
       = padded key 25 ++ lit " "
         ++ padded (get (repoType repo) (lit "N/A")) 12 ++ lit " "
         ++ padded size 18 ++ lit " " ++ padded percent_display 12
    /\ get_display_width line
       = Z.max 25 (get_display_width key)
         + Z.max 12 (get_display_width (get (repoType repo) (lit "N/A")))
         + Z.max 18 (get_display_width size)
         + Z.max 12 (get_display_width percent_display) + 3
    /\ 70 <= get_display_width line.
Proof.
  intros repo line.
  apply (table_row_width 1000 repo line).
  vm_compute. reflexivity.
Defined.

Lemma for_each_all {A} (xs : list A) (body : A -> IO unit) :
  (forall x, In x xs -> outcome (body x) = inr tt) ->
  for_each xs body
  = (List.concat (map (fun x => printed (body x)) xs), inr tt).
Proof.
  induction xs as [|x xs IH]; intros H; cbn [for_each map List.concat].
  - reflexivity.
  - rewrite IH by (intros y Hy; apply H; right; exact Hy).
    pose proof (H x (or_introl eq_refl)) as Hx.
    destruct (body x) as [out [e|[]]]; cbn [outcome snd] in Hx;
      [discriminate|].
    reflexivity.
Qed.

Lemma for_each_fails {A} (pre post : list A) (x : A) (body : A -> IO unit)
    (e : exn) :
  (forall y, In y pre -> outcome (body y) = inr tt) ->
  outcome (body x) = inl e ->
  for_each (pre ++ x :: post) body
  = (List.concat (map (fun y => printed (body y)) pre) ++ printed (body x),
     inl e).
Proof.
  intros Hpre Hx. rewrite for_each_app, (for_each_all pre body Hpre).
  cbn [io_bind for_each].
  destruct (body x) as [out [e'|[]]]; cbn [outcome snd] in Hx;
    [|discriminate].
  injection Hx as ->. reflexivity.
Qed.

Lemma limited_unlimited_count (projects : list Project) :
  Nat.add
    (List.length (filter (fun p => storage_quota_bytes p >? 0) projects))
    (List.length (filter (fun p => storage_quota_bytes p <=? 0) projects))
  = List.length projects.
Proof.
  induction projects as [|p ps IH]; cbn [filter List.length].
  - reflexivity.
  - rewrite Z.gtb_ltb.
    destruct (Z.ltb_spec 0 (storage_quota_bytes p));
      destruct (Z.leb_spec (storage_quota_bytes p) 0);
      cbn [List.length]; lia.
Qed.

Lemma total_quota_positive (projects : list Project) :
  (0 <= total_quota projects)
  /\ (0 < total_quota projects
      <-> filter (fun p => storage_quota_bytes p >? 0) projects <> [])
  /\ (forall p, In p projects -> storage_quota_bytes p <= total_quota projects).
Proof.
  unfold total_quota.
  induction projects as [|p ps (IH0 & IH1 & IH2)]; cbn [filter map].
  - split; [reflexivity|]. split; [|intros p []].
    split; [intros H; discriminate H|congruence].
  - rewrite Z.gtb_ltb.
    destruct (Z.ltb_spec 0 (storage_quota_bytes p)) as [Hp|Hp].
    + cbn [map]. rewrite py_sum_cons. split; [lia|]. split.
      * split; [discriminate|lia].
      * intros q [<-|Hq]; [lia|]. specialize (IH2 q Hq). lia.
    + split; [exact IH0|]. split; [exact IH1|].
      intros q [<-|Hq]; [lia|]. apply IH2, Hq.
Qed.

(** X10. The all-projects report, when every project block returns
    normally: the title, the blocks in list order, the five summary
    lines, and the total-quota line exactly when some project has a
    positive quota.  The numbers of limited and unlimited projects add up
    to the number of projects, and the total is at least every quota. *)
Theorem all_projects_summary (details : bool) (projects : list Project)
    (storage_info : StorageInfo) :
  let limited := filter (fun p => storage_quota_bytes p >? 0) projects in
  let unlimited := filter (fun p => storage_quota_bytes p <=? 0) projects in
  let total := py_sum (map storage_quota_bytes limited) in
  (forall p, In p projects ->
     outcome (print_project_usage p storage_info details) = inr tt) ->
  total < 2 ^ 1023 ->
  exists last_lines,
    report_all details projects storage_info
    = ((lit "项目列表:" ++ [nl])
       :: List.concat
            (map (fun p => printed (print_project_usage p storage_info details))
                 projects)
       ++ [nl :: separator_line;
           lit "汇总信息:";
           lit "总项目数: " ++ int_str (Z.of_nat (List.length projects));
           lit "有限制项目: " ++ int_str (Z.of_nat (List.length limited))
             ++ lit "个";
           lit "无限制项目: " ++ int_str (Z.of_nat (List.length unlimited))
             ++ lit "个"]
       ++ last_lines,
       inr tt)
    /\ (List.length limited + List.length unlimited
        = List.length projects)%nat
    /\ (limited = [] -> last_lines = [])
    /\ (limited <> [] ->
        exists t, format_size total = inr t
                  /\ last_lines = [lit "总存储限制: " ++ t])
    /\ (forall p, In p projects -> storage_quota_bytes p <= total).
Proof.
  intros limited unlimited total Hok Ht.
  rewrite report_all_run. cbv zeta.
  rewrite (for_each_all projects _ Hok). cbn [outcome printed fst snd].
  destruct (total_quota_positive projects) as (T0 & T1 & T2).
  unfold summary_lines. fold limited. fold unlimited. fold limited in T1.
  change (total_quota projects) with total in *.
  destruct (Z_lt_le_dec 0 total) as [Hpos|Hzero].
  - replace (total >? 0) with true
      by (symmetry; rewrite Z.gtb_ltb; apply Z.ltb_lt; exact Hpos).
    destruct (format_size_defined total) as [t Et].
    { pose proof (Z.pow_pos_nonneg 2 1023 ltac:(lia) ltac:(lia)). lia. }
    rewrite Et. exists [lit "总存储限制: " ++ t].
    split; [reflexivity|].
    split; [apply limited_unlimited_count|].
    split; [intros E; exfalso; apply T1; assumption|].
    split; [|exact T2]. intros _. exists t. auto.
  - replace (total >? 0) with false
      by (symmetry; rewrite Z.gtb_ltb; apply Z.ltb_ge; exact Hzero).
    exists []. split; [now rewrite app_nil_r|].
    split; [apply limited_unlimited_count|].
    split; [reflexivity|]. split; [|exact T2].
    intros Hne. apply T1 in Hne. lia.
Qed.

Lemma all_projects_summary_witness :
  let projects :=
    [ {| project_key := lit "a"; display_name := lit "A";
         storage_quota_bytes := 1000 |};
      {| project_key := lit "b"; display_name := lit "B";
         storage_quota_bytes := 0 |};
      {| project_key := lit "c"; display_name := lit "C";
         storage_quota_bytes := 2000 |} ] in
  let storage_info := {| repositoriesSummaryList := None |} in
  let limited := filter (fun p => storage_quota_bytes p >? 0) projects in
  let unlimited := filter (fun p => storage_quota_bytes p <=? 0) projects in
  let total := py_sum (map storage_quota_bytes limited) in
  exists last_lines,
    report_all false projects storage_info
    = ((lit "项目列表:" ++ [nl])
       :: List.concat
            (map (fun p => printed (print_project_usage p storage_info false))
                 projects)
       ++ [nl :: separator_line;
           lit "汇总信息:";
           lit "总项目数: " ++ int_str (Z.of_nat (List.length projects));
           lit "有限制项目: " ++ int_str (Z.of_nat (List.length limited))
             ++ lit "个";
           lit "无限制项目: " ++ int_str (Z.of_nat (List.length unlimited))
             ++ lit "个"]
       ++ last_lines,
       inr tt)
    /\ (List.length limited + List.length unlimited
        = List.length projects)%nat
    /\ (limited = [] -> last_lines = [])
    /\ (limited <> [] ->
        exists t, format_size total = inr t
                  /\ last_lines = [lit "总存储限制: " ++ t])
    /\ (forall p, In p projects -> storage_quota_bytes p <= total).
Proof.
  intros projects storage_info limited unlimited total.
  apply (all_projects_summary false projects storage_info).
  - intros p [<-|[<-|[<-|[]]]]; vm_compute; reflexivity.
  - vm_compute. reflexivity.
Defined.

(** X11. The all-projects report stops at the first project block that
    raises: it has printed the title, the blocks before and what that
    block printed; no later block and no summary follow, and the
    exception is the outcome. *)
Theorem report_stops_at_failure (details : bool)
    (pre post : list Project) (p : Project) (storage_info : StorageInfo)
    (e : exn) :
  (forall q, In q pre ->
     outcome (print_project_usage q storage_info details) = inr tt) ->
  outcome (print_project_usage p storage_info details) = inl e ->
  report_all details (pre ++ p :: post) storage_info
  = ((lit "项目列表:" ++ [nl])
     :: List.concat
          (map (fun q => printed (print_project_usage q storage_info details))
               pre)
     ++ printed (print_project_usage p storage_info details),
     inl e).
Proof.
  intros Hpre Hp. rewrite report_all_run. cbv zeta.
  rewrite (for_each_fails pre post p _ e Hpre Hp). reflexivity.
Qed.

Lemma report_stops_at_failure_witness :
  let first :=
    {| project_key := lit "a"; display_name := lit "A";
       storage_quota_bytes := 1000 |} in
  let huge :=
    {| project_key := lit "b"; display_name := lit "B";
       storage_quota_bytes := 2 ^ 1024 |} in
  let later :=
    {| project_key := lit "c"; display_name := lit "C";
       storage_quota_bytes := 0 |} in
  let storage_info := {| repositoriesSummaryList := None |} in
  report_all false ([first] ++ huge :: [later]) storage_info
  = ((lit "项目列表:" ++ [nl])
     :: List.concat
          (map (fun q => printed (print_project_usage q storage_info false))
               [first])
     ++ printed (print_project_usage huge storage_info false),
     inl OverflowError).
Proof.
  intros first huge later storage_info.
  apply (report_stops_at_failure false [first] [later] huge storage_info
           OverflowError).
  - intros q [<-|[]]. vm_compute. reflexivity.
  - vm_compute. reflexivity.
Defined.

(** X12. Without a selector (none, or the empty string) and without
    the details flag no line of the report is the title of a repository
    table.  With a selector that finds a project with at least one kept
    record the title is printed whatever the flag, for sizes within
    range: the quota below [2 ^ 1023], the bytes used in [0, 2 ^ 1000)
    and at most 1024 times a positive quota. *)
Theorem table_only_when_asked (repr_list : list str -> str)
    (projects : list Project) (storage_info : StorageInfo) :
  (forall selector : option str,
      truthy selector = false ->
      ~ In table_title
           (printed (main_report repr_list selector false projects
                       storage_info)))
  /\ (forall (name : str) (target : Project) (details : bool),
         name <> [] ->
         find_target name projects = Some target ->
         let usage :=
           calculate_project_usage (Data.project_key target) storage_info in
         storage_quota_bytes target < 2 ^ 1023 ->
         0 <= total_used_bytes usage < 2 ^ 1000 ->
         (0 < storage_quota_bytes target ->
          total_used_bytes usage <= 1024 * storage_quota_bytes target) ->
         repositories usage <> [] ->
         In table_title
            (printed (main_report repr_list (Some name) details projects
                        storage_info))).
Proof.
  split.
  - intros selector Hs. unfold main_report. rewrite Hs.
    rewrite report_all_run. cbv zeta.
    set (blocks := for_each projects _).
    assert (Hb : ~ In table_title (printed blocks)).
    { intros H. apply for_each_printed in H. destruct H as (p & _ & H).
      now apply no_table_without_details in H. }
    assert (Hsum : ~ In table_title (summary_lines projects)).
    { unfold summary_lines. intros H. no_title_in H. }
    destruct (outcome blocks) as [e|u].
    + cbn [printed fst In]. intros [H|H]; [not_title H|auto].
    + destruct (total_quota projects >? 0);
        [destruct (format_size (total_quota projects)) as [e|t]|];
        cbn [printed fst In]; intros [H|H]; try (not_title H);
        apply in_app_or in H; destruct H as [H|H]; auto.
      apply in_app_or in H. destruct H as [H|H]; auto.
      no_title_in H.
  - intros name target details Hn Hf usage Hq Ht Hb Hr.
    unfold main_report.
    replace (truthy (Some name)) with true
      by (destruct name; [exfalso; apply Hn|]; reflexivity).
    cbn [get]. unfold report_selected. rewrite Hf.
    destruct (print_summary_defined target storage_info true Hq Ht Hb)
      as (summary & E & _).
    fold usage in E. rewrite E. cbn [printed fst andb].
    destruct (repositories usage) as [|r0 rest]; [congruence|].
    cbn [is_nonempty].
    destruct (table_starts_with_title (storage_quota_bytes target)
                (r0 :: rest)) as [rows Et].
    rewrite Et. apply in_or_app. right. left. reflexivity.
Qed.


Lemma py_sum_app (a b : list Z) : py_sum (a ++ b) = py_sum a + py_sum b.
Proof.
  induction a as [|x a IH]; cbn [app].
  - reflexivity.
  - rewrite !py_sum_cons, IH. lia.
Qed.

(** X13. [calculate_project_usage] is additive over the record list:
    for a list made of two parts the kept records are those of the first
    part followed by those of the second, and the used bytes and the
    counts add up. *)
Theorem usage_of_concatenation (project_key : str) (l1 l2 : list Repo) :
  let usage l :=
    calculate_project_usage project_key
      {| repositoriesSummaryList := Some l |} in
  repositories (usage (l1 ++ l2))
  = repositories (usage l1) ++ repositories (usage l2)
  /\ total_used_bytes (usage (l1 ++ l2))
     = total_used_bytes (usage l1) + total_used_bytes (usage l2)
  /\ repo_count (usage (l1 ++ l2))
     = repo_count (usage l1) + repo_count (usage l2).
Proof.
  cbv zeta. unfold calculate_project_usage.
  cbn [repositories total_used_bytes repo_count repositoriesSummaryList get].
  rewrite filter_app, map_app, py_sum_app, length_app.
  split; [reflexivity|]. split; [reflexivity|lia].
Qed.

(** X14. No record is counted for two projects: the records kept for
    two different keys are disjoint, and the two counts together do not
    exceed the number of records. *)
Theorem usage_of_distinct_projects
    (key1 key2 : str) (storage_info : StorageInfo) :
  let records := get (repositoriesSummaryList storage_info) [] in
  let usage1 := calculate_project_usage key1 storage_info in
  let usage2 := calculate_project_usage key2 storage_info in
  key1 <> key2 ->
  (forall repo, In repo (repositories usage1) ->
                ~ In repo (repositories usage2))
  /\ repo_count usage1 + repo_count usage2 <= Z.of_nat (List.length records).
Proof.
  intros records usage1 usage2 Hne.
  assert (D : forall repo, in_project key1 repo = true ->
                           in_project key2 repo = false).
  { intros repo H. apply in_project_spec in H. destruct H as [H _].
    destruct (in_project key2 repo) eqn:E; [|reflexivity].
    apply in_project_spec in E. destruct E as [E _]. congruence. }
  split.
  - intros repo H1 H2.
    unfold usage1, usage2, calculate_project_usage in H1, H2.
    cbn [repositories] in H1, H2.
    apply filter_In in H1, H2. destruct H1 as [_ H1], H2 as [_ H2].
    rewrite (D repo H1) in H2. discriminate.
  - unfold usage1, usage2, calculate_project_usage. cbn [repo_count].
    fold records. induction records as [|r l IH]; cbn [filter List.length].
    + lia.
    + destruct (in_project key1 r) eqn:E1.
      * rewrite (D r E1). cbn [List.length]. lia.
      * destruct (in_project key2 r); cbn [List.length]; lia.
Qed.

Lemma usage_of_distinct_projects_witness :
  let storage_info :=
    {| repositoriesSummaryList :=
         Some [ {| projectKey := Some (lit "p1"); repoKey := Some (lit "r1");
                   repoType := None; usedSpaceInBytes := Some 900 |};
                {| projectKey := Some (lit "p2"); repoKey := Some (lit "r2");
                   repoType := None; usedSpaceInBytes := Some 100 |} ] |} in
  let records := get (repositoriesSummaryList storage_info) [] in
  let usage1 := calculate_project_usage (lit "p1") storage_info in
  let usage2 := calculate_project_usage (lit "p2") storage_info in
  (forall repo, In repo (repositories usage1) ->
                ~ In repo (repositories usage2))
  /\ repo_count usage1 + repo_count usage2 <= Z.of_nat (List.length records).
Proof.
  intros storage_info records usage1 usage2.
  apply (usage_of_distinct_projects (lit "p1") (lit "p2") storage_info).
  vm_compute. discriminate.
Defined.

(** X15. When no record has a negative size, the total of a project is
    not negative, no kept record is larger than the total, and the total
    is at most the sum over all records. *)
Theorem usage_bounds (project_key : str) (storage_info : StorageInfo) :
  let records := get (repositoriesSummaryList storage_info) [] in
  let usage := calculate_project_usage project_key storage_info in
  (forall repo, In repo records -> 0 <= get (usedSpaceInBytes repo) 0) ->
  0 <= total_used_bytes usage
  /\ (forall repo, In repo (repositories usage) ->
                   get (usedSpaceInBytes repo) 0 <= total_used_bytes usage)
  /\ total_used_bytes usage
     <= py_sum (map (fun repo => get (usedSpaceInBytes repo) 0) records).
Proof.
  intros records usage. unfold usage, calculate_project_usage.
  cbn [total_used_bytes repositories]. fold records.
  induction records as [|r l IH]; intros H; cbn [filter map].
  - split; [reflexivity|]. split; [intros repo []|reflexivity].
  - destruct IH as (I0 & I1 & I2).
    { intros repo Hr. apply H. right. exact Hr. }
    pose proof (H r (or_introl eq_refl)) as Hr.
    rewrite py_sum_cons.
    destruct (in_project project_key r); cbn [map].
    + rewrite py_sum_cons. split; [lia|]. split; [|lia].
      intros repo [<-|Hin]; [lia|]. specialize (I1 repo Hin). lia.
    + split; [exact I0|]. split; [exact I1|lia].
Qed.

Lemma usage_bounds_witness :
  let storage_info :=
    {| repositoriesSummaryList :=
         Some [ {| projectKey := Some (lit "p1"); repoKey := Some (lit "r1");
                   repoType := None; usedSpaceInBytes := Some 900 |};
                {| projectKey := Some (lit "p2"); repoKey := Some (lit "r2");
                   repoType := None; usedSpaceInBytes := None |} ] |} in
  let records := get (repositoriesSummaryList storage_info) [] in
  let usage := calculate_project_usage (lit "p1") storage_info in
  0 <= total_used_bytes usage
  /\ (forall repo, In repo (repositories usage) ->
                   get (usedSpaceInBytes repo) 0 <= total_used_bytes usage)
  /\ total_used_bytes usage
     <= py_sum (map (fun repo => get (usedSpaceInBytes repo) 0) records).
Proof.
  intros storage_info records usage.
  apply (usage_bounds (lit "p1") storage_info).
  intros repo [<-|[<-|[]]]; vm_compute; discriminate.
Defined.

Lemma char_width_bounds (c : Z) : 1 <= char_width c <= 2.
Proof. unfold char_width. destruct (_ && _); lia. Qed.

(** X16. The display width of a text lies between its length and twice
    its length, it adds up over concatenation, and it equals the length
    exactly when no character is in the CJK range. *)
Theorem display_width_bounds (a b : str) :
  Z.of_nat (List.length a) <= get_display_width a
                           <= 2 * Z.of_nat (List.length a)
  /\ get_display_width (a ++ b) = get_display_width a + get_display_width b
  /\ (get_display_width a = Z.of_nat (List.length a)
      <-> Forall (fun c => is_cjk c = false) a).
Proof.
  split; [|split; [apply width_app|]].
  - induction a as [|c a IH]; [cbn; lia|].
    rewrite width_cons. pose proof (char_width_bounds c).
    cbn [List.length]. lia.
  - assert (L : forall t, Z.of_nat (List.length t) <= get_display_width t).
    { induction t as [|c t IH]; [cbn; lia|].
      rewrite width_cons. pose proof (char_width_bounds c).
      cbn [List.length]. lia. }
    induction a as [|c a IH].
    + split; [constructor|reflexivity].
    + rewrite width_cons. cbn [List.length]. specialize (L a).
      unfold char_width. fold (is_cjk c). split.
      * intros H. destruct (is_cjk c) eqn:E; [lia|].
        constructor; [exact E|]. apply IH. lia.
      * intros H. inversion H as [|? ? Hc Ha]; subst. rewrite Hc.
        apply IH in Ha. lia.
Qed.

(** What [times] and [pad_string] return, when they return. *)
Lemma times_returned (c : Z) (n : Z) (r : str) :
  times [c] n = inr r -> r = repeat c (Z.to_nat n).
Proof.
  unfold times, raise, ret.
  destruct ((n <? - maxsize - 1) || (maxsize <? n)); [discriminate|].
  destruct (Z.ltb_spec n 1) as [H1|H1].
  - intros E. injection E as <-.
    now replace (Z.to_nat n) with 0%nat by lia.
  - destruct (maxsize / n <? _); [discriminate|].
    intros E. injection E as <-. apply repeated_one_char.
Qed.

Lemma pad_string_returned (text : str) (width : Z) (align : str) (r : str) :
  let w := get_display_width text in
  let padding := width - w in
  pad_string text width align = inr r ->
  r = (if w >=? width then text
       else if PyStr.eqb align (lit "<")
            then text ++ repeat 32 (Z.to_nat padding)
       else if PyStr.eqb align (lit ">")
            then repeat 32 (Z.to_nat padding) ++ text
       else repeat 32 (Z.to_nat (padding / 2)) ++ text
            ++ repeat 32 (Z.to_nat (padding - padding / 2))).
Proof.
  intros w padding. unfold pad_string. fold w. fold padding.
  change (lit " ") with [32].
  destruct (w >=? width); [intros E; now injection E|].
  destruct (PyStr.eqb align (lit "<")); [|destruct (PyStr.eqb align (lit ">"))].
  - destruct (times [32] padding) as [e|spaces] eqn:E1; cbn [bind ret];
      [discriminate|].
    intros E. injection E as <-. now rewrite (times_returned _ _ _ E1).
  - destruct (times [32] padding) as [e|spaces] eqn:E1; cbn [bind ret];
      [discriminate|].
    intros E. injection E as <-. now rewrite (times_returned _ _ _ E1).
  - destruct (times [32] (padding / 2)) as [e|left] eqn:E1; cbn [bind ret];
      [discriminate|].
    destruct (times [32] (padding - padding / 2)) as [e|right] eqn:E2;
      cbn [bind ret]; [discriminate|].
    intros E. injection E as <-.
    now rewrite (times_returned _ _ _ E1), (times_returned _ _ _ E2).
Qed.

(** X17. Whenever [pad_string] returns, the result has the larger of the
    target and the text's display width, and exactly
    [max 0 (width - display width)] characters more than the text; it is
    the text itself exactly when the display width of the text reaches
    the target; and padding it again to that width or to a smaller one,
    with any alignment, returns it unchanged. *)
Theorem pad_string_twice
    (text padded1 : str) (width1 width2 : Z) (align1 align2 : str) :
  pad_string text width1 align1 = inr padded1 ->
  get_display_width padded1 = Z.max width1 (get_display_width text)
  /\ (width2 <= Z.max width1 (get_display_width text) ->
      pad_string padded1 width2 align2 = inr padded1)
  /\ List.length padded1
     = (List.length text
        + Z.to_nat (width1 - get_display_width text))%nat
  /\ (padded1 = text <-> width1 <= get_display_width text).
Proof.
  intros E. apply pad_string_returned in E. cbv zeta in E.
  assert (H2 : get_display_width text < width1 ->
               0 <= (width1 - get_display_width text) / 2
               <= width1 - get_display_width text).
  { intros H. split; [apply Z.div_pos; lia|].
    apply Z.div_le_upper_bound; lia. }
  assert (W : get_display_width padded1
              = Z.max width1 (get_display_width text)).
  { subst padded1.
    destruct (get_display_width text >=? width1) eqn:C.
    - rewrite Z.geb_leb in C. apply Z.leb_le in C. lia.
    - rewrite Z.geb_leb in C. apply Z.leb_gt in C. specialize (H2 C).
      destruct (PyStr.eqb align1 (lit "<"));
        [|destruct (PyStr.eqb align1 (lit ">"))];
        rewrite ?width_app, ?width_spaces; lia. }
  assert (L : List.length padded1
              = (List.length text
                 + Z.to_nat (width1 - get_display_width text))%nat).
  { subst padded1.
    destruct (get_display_width text >=? width1) eqn:C.
    - rewrite Z.geb_leb in C. apply Z.leb_le in C. lia.
    - rewrite Z.geb_leb in C. apply Z.leb_gt in C. specialize (H2 C).
      destruct (PyStr.eqb align1 (lit "<"));
        [|destruct (PyStr.eqb align1 (lit ">"))];
        rewrite ?length_app, ?repeat_length; lia. }
  split; [exact W|]. split; [|split; [exact L|]].
  - intros H. unfold pad_string. rewrite W.
    replace (Z.max width1 (get_display_width text) >=? width2) with true;
      [reflexivity|].
    symmetry. rewrite Z.geb_leb. apply Z.leb_le. exact H.
  - split.
    + intros Et. rewrite Et in L.
      destruct (Z_le_gt_dec width1 (get_display_width text)); [assumption|].
      lia.
    + intros H. subst padded1.
      replace (get_display_width text >=? width1) with true; [reflexivity|].
      symmetry. rewrite Z.geb_leb. apply Z.leb_le. exact H.
Qed.

Lemma pad_string_twice_witness :
  get_display_width (lit "类型" ++ repeat 32 8%nat)
  = Z.max 12 (get_display_width (lit "类型"))
  /\ (10 <= Z.max 12 (get_display_width (lit "类型")) ->
      pad_string (lit "类型" ++ repeat 32 8%nat) 10 (lit "^")
      = inr (lit "类型" ++ repeat 32 8%nat))
  /\ List.length (lit "类型" ++ repeat 32 8%nat)
     = (List.length (lit "类型")
        + Z.to_nat (12 - get_display_width (lit "类型")))%nat
  /\ (lit "类型" ++ repeat 32 8%nat = lit "类型"
      <-> 12 <= get_display_width (lit "类型")).
Proof.
  apply (pad_string_twice (lit "类型") (lit "类型" ++ repeat 32 8%nat)
           12 10 (lit "<") (lit "^")).
  vm_compute. reflexivity.
Defined.

Import Client.

Section RstripFacts.

Lemma rstrip_repeat (c : Z) (n : nat) : rstrip c (repeat c n) = [].
Proof.
  induction n as [|n IH]; cbn [repeat rstrip].
  - reflexivity.
  - rewrite IH, Z.eqb_refl. reflexivity.
Qed.

Lemma rstrip_app_repeat (c : Z) (s : str) (n : nat) :
  rstrip c (s ++ repeat c n) = rstrip c s.
Proof.
  induction s as [|x s IH]; cbn [app rstrip].
  - apply rstrip_repeat.
  - rewrite IH. reflexivity.
Qed.

Lemma rstrip_split (c : Z) (s : str) :
  exists n, s = rstrip c s ++ repeat c n.
Proof.
  induction s as [|x s [n IH]]; cbn [rstrip].
  - exists 0%nat. reflexivity.
  - destruct (rstrip c s) as [|y kept] eqn:E.
    + destruct (Z.eqb_spec x c) as [->|Hx].
      * exists (S n). cbn [app repeat]. f_equal. exact IH.
      * exists n. cbn [app]. f_equal. exact IH.
    + exists n. cbn [app]. f_equal. exact IH.
Qed.

Lemma rstrip_last (c : Z) (s : str) (d : Z) :
  d <> c -> last (rstrip c s) d <> c.
Proof.
  intros Hd. induction s as [|x s IH]; cbn [rstrip].
  - exact Hd.
  - destruct (rstrip c s) as [|y kept] eqn:E.
    + destruct (Z.eqb_spec x c) as [->|Hx]; cbn [last]; assumption.
    + exact IH.
Qed.

End RstripFacts.

(** X18. The base address the client keeps is the address given without
    its trailing slashes: it does not end with a slash, the address given
    is the base followed by slashes only, adding slashes to the address
    changes nothing of the client, and normalising twice is normalising
    once. *)
Theorem base_url_is_normalised (url token : str) :
  let self := init url token in
  (exists n, url = base_url self ++ repeat slash n)
  /\ last (base_url self) 0 <> slash
  /\ (forall n, init (url ++ repeated (lit "/") n) token = self)
  /\ init (base_url self) token = self.
Proof.
  cbv zeta. unfold init. cbn [base_url].
  split; [apply rstrip_split|]. split; [apply rstrip_last; discriminate|].
  split.
  - intros n. change (lit "/") with [slash]. rewrite repeated_one_char.
    now rewrite rstrip_app_repeat.
  - destruct (rstrip_split slash url) as [n E].
    rewrite E at 2. now rewrite rstrip_app_repeat.
Qed.

Section RequestFacts.

Variable J : Type.
Variable requests_get : str -> list (str * str) -> Z -> raised + Response.
Variable raise_for_status : Response -> option raised.
Variable json : Response -> raised + J.
Variable empty_list : J.

Lemma checked_json_cases (r : Response) (handler : RequestException -> IO J) :
  (exists j, raise_for_status r = None /\ json r = inr j
             /\ checked_json J raise_for_status json r handler = io_ret j)
  \/ (exists e, (raise_for_status r = Some (Request e)
                 \/ (raise_for_status r = None /\ json r = inl (Request e)))
                /\ checked_json J raise_for_status json r handler = handler e)
  \/ (exists e, (raise_for_status r = Some (Foreign e)
                 \/ (raise_for_status r = None /\ json r = inl (Foreign e)))
                /\ checked_json J raise_for_status json r handler
                   = lift (raise e)).
Proof.
  unfold checked_json.
  destruct (raise_for_status r) as [[e|e]|].
  - right; left. exists e. auto.
  - right; right. exists e. auto.
  - destruct (json r) as [[e|e]|j].
    + right; left. exists e. auto.
    + right; right. exists e. auto.
    + left. exists j. auto.
Qed.

Local Abbreviation get_projects :=
  (Client.get_projects J requests_get raise_for_status json).
Local Abbreviation get_repositories :=
  (Client.get_repositories J requests_get raise_for_status json empty_list).
Local Abbreviation get_storage_info :=
  (Client.get_storage_info J requests_get raise_for_status json).
Local Abbreviation test_authentication :=
  (Client.test_authentication requests_get).
Local Abbreviation library_raised :=
  (Client.library_raised J requests_get raise_for_status json).
Local Abbreviation library_returned :=
  (Client.library_returned J requests_get raise_for_status json).

(** X19. [get_projects] returns, printing nothing, exactly when the
    request answers with a status other than 401, 403 and 404,
    [raise_for_status] passes and the body parses.  Otherwise it ends the
    program with status 1 after at least one line, unless an exception
    that is not the library's own escapes; on 401, 403 and 404 the lines
    are fixed texts, whatever [raise_for_status] and the body say. *)
Theorem get_projects_outcome (self : ArtifactoryStorageMonitor) :
  let url := projects_url self in
  let run := get_projects self in
  (forall j,
      outcome run = inr j
      <-> exists r,
            requests_get url (headers self) 30 = inr r
            /\ status_code r <> 401 /\ status_code r <> 403
            /\ status_code r <> 404
            /\ raise_for_status r = None /\ json r = inr j)
  /\ (forall j, outcome run = inr j -> printed run = [])
  /\ (forall e,
         outcome run = inl e ->
         (e = SystemExit 1 /\ printed run <> [])
         \/ (printed run = [] /\ library_raised url self (Foreign e)))
  /\ (forall r,
         requests_get url (headers self) 30 = inr r ->
         (status_code r = 401 ->
          run = ([lit "认证失败: 令牌无效或已过期";
                  lit "请检查您的认证信息并重新运行脚本"],
                 inl (SystemExit 1)))
         /\ (status_code r = 403 ->
             run = ([lit "权限不足: 当前用户没有访问项目的权限"],
                    inl (SystemExit 1)))
         /\ (status_code r = 404 ->
             run = ([lit "API端点不存在: 请检查Artifactory版本是否支持项目功能"],
                    inl (SystemExit 1)))).
Proof.
  intros url run. subst run. unfold Client.get_projects.
  fold url.
  assert (Hh : forall e,
             outcome (projects_handler J e) = inl (SystemExit 1)
             /\ printed (projects_handler J e) <> []).
  { intros e. unfold projects_handler.
    destruct (response e); cbn; split; (reflexivity || discriminate). }
  destruct (requests_get url (headers self) 30) as [[e|e]|r] eqn:Eg.
  - destruct (Hh e) as [Ho Hp].
    split; [|split; [|split]].
    + intros j. rewrite Ho. split; [discriminate|].
      intros (r & Hr & _). discriminate.
    + intros j. rewrite Ho. discriminate.
    + intros e'. rewrite Ho. intros E. injection E as <-. left. auto.
    + intros r Hr. discriminate.
  - split; [|split; [|split]].
    + intros j. split; [discriminate|]. intros (r & Hr & _). discriminate.
    + discriminate.
    + intros e'. cbn [lift raise outcome snd]. intros E. injection E as <-.
      right. split; [reflexivity|]. left. exact Eg.
    + intros r Hr. discriminate.
  - destruct (Z.eqb_spec (status_code r) 401) as [H1|H1];
      [|destruct (Z.eqb_spec (status_code r) 403) as [H3|H3];
        [|destruct (Z.eqb_spec (status_code r) 404) as [H4|H4]]].
    + split; [|split; [|split]].
      * intros j. split; [discriminate|].
        intros (r' & Hr & N1 & _). injection Hr as <-. contradiction.
      * discriminate.
      * intros e E. injection E as <-. left. split; [reflexivity|discriminate].
      * intros r' Hr. injection Hr as <-.
        split; [reflexivity|]. split; intros; lia.
    + split; [|split; [|split]].
      * intros j. split; [discriminate|].
        intros (r' & Hr & _ & N3 & _). injection Hr as <-. contradiction.
      * discriminate.
      * intros e E. injection E as <-. left. split; [reflexivity|discriminate].
      * intros r' Hr. injection Hr as <-.
        split; [intros; lia|]. split; [reflexivity|intros; lia].
    + split; [|split; [|split]].
      * intros j. split; [discriminate|].
        intros (r' & Hr & _ & _ & N4 & _). injection Hr as <-. contradiction.
      * discriminate.
      * intros e E. injection E as <-. left. split; [reflexivity|discriminate].
      * intros r' Hr. injection Hr as <-.
        split; [intros; lia|]. split; [intros; lia|reflexivity].
    + destruct (checked_json_cases r (projects_handler J))
        as [(j & Hs & Hj & ->)|[(e & He & ->)|(e & He & ->)]].
      * split; [|split; [|split]].
        -- intros j'. cbn [io_ret outcome snd]. split.
           ++ intros E. injection E as <-. exists r. auto 10.
           ++ intros (r' & Hr & _ & _ & _ & _ & Hj').
              injection Hr as <-. congruence.
        -- reflexivity.
        -- discriminate.
        -- intros r' Hr. injection Hr as <-. repeat split; intros; lia.
      * destruct (Hh e) as [Ho Hp].
        split; [|split; [|split]].
        -- intros j. rewrite Ho. split; [discriminate|].
           intros (r' & Hr & _ & _ & _ & Hs & Hj). injection Hr as <-.
           destruct He as [He|[_ He]]; congruence.
        -- intros j. rewrite Ho. discriminate.
        -- intros e'. rewrite Ho. intros E. injection E as <-. left. auto.
        -- intros r' Hr. injection Hr as <-. repeat split; intros; lia.
      * split; [|split; [|split]].
        -- intros j. split; [discriminate|].
           intros (r' & Hr & _ & _ & _ & Hs & Hj). injection Hr as <-.
           destruct He as [He|[_ He]]; congruence.
        -- discriminate.
        -- intros e'. cbn [lift raise outcome snd]. intros E.
           injection E as <-. right. split; [reflexivity|].
           right. exists r. auto.
        -- intros r' Hr. injection Hr as <-. repeat split; intros; lia.
Qed.

(** X20. On a failure of the library [get_repositories] prints one
    line and returns the empty list, where [get_storage_info] prints one
    line and ends the program with status 1; both return the parsed body
    silently on success, and [get_repositories] never ends the program on
    its own. *)
Theorem request_failure_handling (self : ArtifactoryStorageMonitor)
    (project_key : str) :
  (forall e,
      library_raised (repositories_url self project_key) self (Request e) ->
      get_repositories self project_key
      = ([lit "获取项目 " ++ project_key ++ lit " 的仓库列表失败: "
          ++ message e], inr empty_list))
  /\ (forall e,
         library_raised (storage_info_url self) self (Request e) ->
         get_storage_info self
         = ([lit "获取存储信息失败: " ++ message e], inl (SystemExit 1)))
  /\ (forall j,
         library_returned (repositories_url self project_key) self j ->
         get_repositories self project_key = ([], inr j))
  /\ (forall j,
         library_returned (storage_info_url self) self j ->
         get_storage_info self = ([], inr j))
  /\ (forall c,
         outcome (get_repositories self project_key) = inl (SystemExit c) ->
         library_raised (repositories_url self project_key) self
           (Foreign (SystemExit c))).
Proof.
  unfold Client.get_repositories, Client.get_storage_info,
    Client.library_raised, Client.library_returned, checked_json.
  split; [|split; [|split; [|split]]].
  - intros e [H|(r & Hr & [H|[H1 H2]])].
    + rewrite H. reflexivity.
    + rewrite Hr, H. reflexivity.
    + rewrite Hr, H1, H2. reflexivity.
  - intros e [H|(r & Hr & [H|[H1 H2]])].
    + rewrite H. reflexivity.
    + rewrite Hr, H. reflexivity.
    + rewrite Hr, H1, H2. reflexivity.
  - intros j (r & Hr & H1 & H2). rewrite Hr, H1, H2. reflexivity.
  - intros j (r & Hr & H1 & H2). rewrite Hr, H1, H2. reflexivity.
  - intros c.
    destruct (requests_get _ _ _) as [[e|e]|r] eqn:Eg.
    + discriminate.
    + cbn [lift raise outcome snd]. intros E. injection E as ->.
      left. reflexivity.
    + destruct (raise_for_status r) as [[e|e]|] eqn:Es.
      * discriminate.
      * cbn [lift raise outcome snd]. intros E. injection E as ->.
        right. exists r. auto.
      * destruct (json r) as [[e|e]|j] eqn:Ej.
        -- discriminate.
        -- cbn [lift raise outcome snd]. intros E. injection E as ->.
           right. exists r. auto.
        -- discriminate.
Qed.

(** X21. [test_authentication] answers [True] exactly when the request
    returns with status 200; every exception that derives from
    [Exception] becomes [False], so only one that does not can
    escape. *)
Theorem test_authentication_outcome (self : ArtifactoryStorageMonitor) :
  (test_authentication self = inr true
   <-> exists r,
         requests_get (test_url self) (headers self) 10 = inr r
         /\ status_code r = 200)
  /\ (forall e,
         test_authentication self = inl e ->
         is_Exception e = false
         /\ requests_get (test_url self) (headers self) 10
            = inl (Foreign e)).
Proof.
  unfold Client.test_authentication.
  destruct (requests_get _ _ _) as [[e|e]|r].
  - split.
    + split; [discriminate|]. intros (r & Hr & _). discriminate.
    + discriminate.
  - destruct (is_Exception e) eqn:Ee.
    + split.
      * split; [discriminate|]. intros (r & Hr & _). discriminate.
      * discriminate.
    + split.
      * split; [discriminate|]. intros (r & Hr & _). discriminate.
      * intros e' E. injection E as <-. auto.
  - split.
    + unfold ret. split.
      * intros E. injection E as E. apply Z.eqb_eq in E. exists r. auto.
      * intros (r' & Hr & H). injection Hr as <-.
        apply Z.eqb_eq in H. now rewrite H.
    + discriminate.
Qed.

End RequestFacts.

Import Program.
Import Entry.

(** ** The program *)

Section ExitFacts.

(** No computation of the monitor ends the program: what it raises
    derives from [Exception]. *)
Lemma int_truediv_benign (a b : Z) (e : exn) :
  int_truediv a b = inl e -> is_Exception e = true.
Proof.
  unfold int_truediv, raise, ret.
  destruct (b =? 0); [intros E; injection E as <-; reflexivity|].
  destruct (a =? 0); [discriminate|].
  destruct (SFdiv_core_binary _ _ _ _ _ _) as [[m e'] l].
  destruct (binary_round_aux _ _ _ _ _ _); try discriminate.
  intros E; injection E as <-; reflexivity.
Qed.

Lemma truediv_benign (a b : pynum) (v : exn) :
  truediv a b = inl v -> is_Exception v = true.
Proof.
  assert (F : forall x y : float,
             (if is_zero y then raise ZeroDivisionError
              else ret (PyFloat (SFdiv prec emax x y))) = inl v ->
             is_Exception v = true).
  { intros x y. unfold raise, ret. destruct (is_zero y); [|discriminate].
    intros E; injection E as <-; reflexivity. }
  destruct a as [x|x], b as [y|y]; unfold truediv; cbn [to_float bind ret].
  - destruct (int_truediv x y) as [e|q] eqn:E; cbn [bind ret];
      [|discriminate].
    intros H; injection H as <-. now apply (int_truediv_benign x y).
  - destruct (int_to_float x) as [e|fx] eqn:E; cbn [bind].
    + intros H; injection H as <-.
      now rewrite (int_to_float_error _ _ E).
    + apply F.
  - destruct (int_to_float y) as [e|fy] eqn:E; cbn [bind].
    + intros H; injection H as <-.
      now rewrite (int_to_float_error _ _ E).
    + apply F.
  - apply F.
Qed.

Lemma mul_benign (a b : pynum) (v : exn) :
  mul a b = inl v -> is_Exception v = true.
Proof.
  destruct a as [x|x], b as [y|y]; unfold mul; cbn [to_float bind ret];
    try discriminate.
  - destruct (int_to_float x) as [e|fx] eqn:E; cbn [bind]; [|discriminate].
    intros H; injection H as <-. now rewrite (int_to_float_error _ _ E).
  - destruct (int_to_float y) as [e|fy] eqn:E; cbn [bind]; [|discriminate].
    intros H; injection H as <-. now rewrite (int_to_float_error _ _ E).
Qed.

Lemma to_int_benign (a : pynum) (v : exn) :
  to_int a = inl v -> is_Exception v = true.
Proof.
  destruct a as [z|[s|s| |s m e]]; cbn [to_int]; unfold ret, raise;
    try discriminate; intros H; injection H as <-; reflexivity.
Qed.

Lemma format_size_benign (b : Z) (v : exn) :
  format_size b = inl v -> is_Exception v = true.
Proof. intros H. now rewrite (format_size_error b v H). Qed.

Lemma format_f_benign (d : nat) (a : pynum) (v : exn) :
  format_f d a = inl v -> is_Exception v = true.
Proof. intros H. now rewrite (format_f_error d a v H). Qed.

Lemma filled_length_benign (p : pynum) (v : exn) :
  filled_length_of p = inl v -> is_Exception v = true.
Proof.
  unfold filled_length_of.
  destruct (mul (PyInt bar_length) p) as [e|x] eqn:E1; cbn [bind].
  { intros H; injection H as <-. now apply (mul_benign _ _ _ E1). }
  destruct (truediv x (PyInt 100)) as [e|y] eqn:E2; cbn [bind].
  { intros H; injection H as <-. now apply (truediv_benign _ _ _ E2). }
  apply to_int_benign.
Qed.

Lemma percent_benign (q u : Z) (v : exn) :
  percent_and_quota_display q u = inl v -> is_Exception v = true.
Proof.
  unfold percent_and_quota_display. destruct (q >? 0); [|discriminate].
  destruct (truediv (PyInt u) (PyInt q)) as [e|x] eqn:E1; cbn [bind].
  { intros H; injection H as <-. now apply (truediv_benign _ _ _ E1). }
  destruct (mul x (PyInt 100)) as [e|y] eqn:E2; cbn [bind].
  { intros H; injection H as <-. now apply (mul_benign _ _ _ E2). }
  destruct (format_size q) as [e|t] eqn:E3; cbn [bind ret]; [|discriminate].
  intros H; injection H as <-. now apply (format_size_benign _ _ E3).
Qed.

Lemma times_benign (s : str) (n : Z) (v : exn) :
  times s n = inl v -> is_Exception v = true.
Proof.
  unfold times, raise, ret.
  destruct (_ || _); [intros E; injection E as <-; reflexivity|].
  destruct (n <? 1); [discriminate|].
  destruct (_ <? _); [|discriminate].
  intros E; injection E as <-; reflexivity.
Qed.

Lemma bar_of_benign (n : Z) (v : exn) :
  bar_of n = inl v -> is_Exception v = true.
Proof.
  unfold bar_of.
  destruct (times (lit "█") n) as [e|filled] eqn:E1; cbn [bind].
  { intros H; injection H as <-. now apply (times_benign _ _ _ E1). }
  destruct (times (lit "░") _) as [e|rest] eqn:E2; cbn [bind ret];
    [|discriminate].
  intros H; injection H as <-. now apply (times_benign _ _ _ E2).
Qed.

Lemma print_repo_row_benign (q : Z) (repo : Repo) (v : exn) :
  outcome (print_repo_row q repo) = inl v -> is_Exception v = true.
Proof.
  rewrite print_repo_row_run. cbv zeta. unfold row_percent_display.
  set (pd := if q >? 0 then _ else _).
  assert (Hpd : forall e, pd = inl e -> is_Exception e = true).
  { subst pd. destruct (q >? 0); [|discriminate]. intros e.
    destruct (truediv _ _) as [e1|x] eqn:E1; cbn [bind].
    { intros H; injection H as <-. now apply (truediv_benign _ _ _ E1). }
    destruct (mul x (PyInt 100)) as [e2|y] eqn:E2; cbn [bind].
    { intros H; injection H as <-. now apply (mul_benign _ _ _ E2). }
    destruct (format_f 2 y) as [e3|t] eqn:E3; cbn [bind ret];
      [|discriminate].
    intros H; injection H as <-. now apply (format_f_benign _ _ _ E3). }
  destruct pd as [e|pct]; cbn [lift io_bind outcome snd].
  { intros H; injection H as <-. now apply Hpd. }
  destruct (repoKey repo) as [key|]; cbn [lift io_bind ret raise outcome snd].
  - destruct (format_size _) as [e|size] eqn:E;
      cbn [lift io_bind print outcome snd]; [|discriminate].
    intros H; injection H as <-. now apply (format_size_benign _ _ E).
  - intros H; injection H as <-. reflexivity.
Qed.

Lemma for_each_benign {A} (xs : list A) (body : A -> IO unit) (v : exn) :
  (forall x e, outcome (body x) = inl e -> is_Exception e = true) ->
  outcome (for_each xs body) = inl v -> is_Exception v = true.
Proof.
  intros Hb. induction xs as [|x xs IH]; cbn [for_each].
  - discriminate.
  - pose proof (Hb x) as Hx.
    destruct (body x) as [out [e|[]]]; cbn [io_bind outcome snd] in *.
    + intros H; injection H as <-. now apply Hx.
    + destruct (for_each xs body) as [out' r]. exact IH.
Qed.

Lemma print_repo_details_benign (q : Z) (repos : list Repo) (v : exn) :
  outcome (print_repo_details q repos) = inl v -> is_Exception v = true.
Proof.
  rewrite print_repo_details_run.
  pose proof (for_each_benign repos (print_repo_row q) v
                (print_repo_row_benign q)) as H.
  destruct (for_each repos (print_repo_row q)) as [out r].
  cbn [print io_bind outcome snd] in *. exact H.
Qed.

Lemma print_project_usage_benign
    (project : Project) (storage_info : StorageInfo) (show_details : bool)
    (v : exn) :
  outcome (print_project_usage project storage_info show_details) = inl v ->
  is_Exception v = true.
Proof.
  rewrite print_details_split. cbv zeta.
  set (details := if show_details && _ then _ else _).
  assert (Hd : outcome details = inl v -> is_Exception v = true).
  { subst details. destruct (show_details && _).
    - apply print_repo_details_benign.
    - discriminate. }
  unfold print_project_usage. cbn [andb].
  destruct (percent_and_quota_display _ _) as [e|[p qd]] eqn:Ep;
    cbn [lift io_bind print fst snd app outcome].
  { intros H; injection H as <-. now apply (percent_benign _ _ _ Ep). }
  destruct (format_size _) as [e|used] eqn:Eu;
    cbn [lift io_bind print fst snd app outcome].
  { intros H; injection H as <-. now apply (format_size_benign _ _ Eu). }
  destruct (storage_quota_bytes project >? 0).
  - destruct (format_f 2 p) as [e|t2] eqn:E2;
      cbn [lift io_bind print fst snd app outcome].
    { intros H; injection H as <-. now apply (format_f_benign _ _ _ E2). }
    destruct (filled_length_of p) as [e|n] eqn:En;
      cbn [lift io_bind print fst snd app outcome].
    { intros H; injection H as <-. now apply (filled_length_benign _ _ En). }
    destruct (bar_of n) as [e|bar] eqn:Eb;
      cbn [lift io_bind print fst snd app outcome].
    { intros H; injection H as <-. now apply (bar_of_benign _ _ Eb). }
    destruct (format_f 1 p) as [e|t1] eqn:E1;
      cbn [lift io_bind print fst snd app outcome].
    { intros H; injection H as <-. now apply (format_f_benign _ _ _ E1). }
    pose proof (print_warning_outcome p) as Hw.
    destruct (print_warning p) as [wout [we|[]]];
      cbn [outcome snd] in Hw; [discriminate|].
    cbn [lift io_bind io_ret print fst snd app outcome].
    destruct details as [out r]. exact Hd.
  - cbn [lift io_bind io_ret print fst snd app outcome].
    destruct details as [out r]. exact Hd.
Qed.

Lemma report_all_benign (details : bool) (projects : list Project)
    (storage_info : StorageInfo) (v : exn) :
  outcome (report_all details projects storage_info) = inl v ->
  is_Exception v = true.
Proof.
  rewrite report_all_run. cbv zeta.
  set (blocks := for_each projects _).
  assert (Hb : outcome blocks = inl v -> is_Exception v = true).
  { apply for_each_benign. intros p e. apply print_project_usage_benign. }
  destruct (outcome blocks) as [e|u]; cbn [outcome snd].
  - exact Hb.
  - destruct (total_quota projects >? 0); [|discriminate].
    destruct (format_size (total_quota projects)) as [e|t] eqn:E;
      cbn [outcome snd]; [|discriminate].
    intros H; injection H as <-. now apply (format_size_benign _ _ E).
Qed.

Lemma main_report_exit (repr_list : list str -> str)
    (selector : option str) (details : bool) (projects : list Project)
    (storage_info : StorageInfo) (c : Z) :
  outcome (main_report repr_list selector details projects storage_info)
  = inl (SystemExit c) ->
  c = 1.
Proof.
  unfold main_report. destruct (truthy selector).
  - unfold report_selected. destruct (find_target _ _) as [p|].
    + intros H. apply print_project_usage_benign in H. discriminate.
    + cbn. intros H. now injection H as <-.
  - intros H. apply report_all_benign in H. discriminate.
Qed.

End ExitFacts.

Section MainFacts.

Variable requests_get : str -> list (str * str) -> Z -> raised + Response.
Variable raise_for_status : Response -> option raised.
Variable json_projects : Response -> raised + list Project.
Variable json_storage : Response -> raised + StorageInfo.
Variable repr_list : list str -> str.

Local Abbreviation main :=
  (Entry.main requests_get raise_for_status json_projects json_storage
     repr_list).
Local Abbreviation test_authentication :=
  (Client.test_authentication requests_get).
Local Abbreviation get_projects :=
  (Client.get_projects (list Project) requests_get raise_for_status
     json_projects).
Local Abbreviation get_storage_info :=
  (Client.get_storage_info StorageInfo requests_get raise_for_status
     json_storage).

(** A request that returns has printed nothing; one that does not has
    ended the program with status 1, unless the library raised an
    exception of another kind. *)
Lemma checked_json_ends (J : Type) (json : Response -> raised + J)
    (r : Response) (handler : RequestException -> IO J) :
  (forall e, exists out, handler e = (out, inl (SystemExit 1))) ->
  let run := checked_json J raise_for_status json r handler in
  (forall j, outcome run = inr j -> printed run = [])
  /\ (forall e, outcome run = inl e ->
        e = SystemExit 1
        \/ raise_for_status r = Some (Foreign e)
        \/ json r = inl (Foreign e)).
Proof.
  intros Hh run. subst run. unfold checked_json.
  destruct (raise_for_status r) as [[e|e]|].
  - destruct (Hh e) as [out ->]. split; [discriminate|].
    intros e' H. injection H as <-. auto.
  - split; [discriminate|]. intros e' H. injection H as <-. auto.
  - destruct (json r) as [[e|e]|j].
    + destruct (Hh e) as [out ->]. split; [discriminate|].
      intros e' H. injection H as <-. auto.
    + split; [discriminate|]. intros e' H. injection H as <-. auto.
    + split; [reflexivity|discriminate].
Qed.

Lemma projects_handler_exits (J : Type) (e : RequestException) :
  exists out, projects_handler J e = (out, inl (SystemExit 1)).
Proof.
  unfold projects_handler. destruct (response e); eexists; reflexivity.
Qed.

Lemma get_projects_ends (self : ArtifactoryStorageMonitor) :
  (forall j, outcome (get_projects self) = inr j ->
             printed (get_projects self) = [])
  /\ (forall e, outcome (get_projects self) = inl e ->
        e = SystemExit 1
        \/ requests_get (projects_url self) (headers self) 30
           = inl (Foreign e)
        \/ exists r, raise_for_status r = Some (Foreign e)
                     \/ json_projects r = inl (Foreign e)).
Proof.
  unfold Client.get_projects.
  destruct (requests_get _ _ _) as [[e|e]|r].
  - destruct (projects_handler_exits (list Project) e) as [out ->].
    split; [discriminate|]. intros e' H. injection H as <-. auto.
  - split; [discriminate|]. intros e' H. injection H as <-. auto.
  - destruct (status_code r =? 401);
      [|destruct (status_code r =? 403);
        [|destruct (status_code r =? 404)]];
      try (split; [discriminate|]; intros e' H; injection H as <-; auto).
    destruct (checked_json_ends (list Project) json_projects r
                (projects_handler (list Project))
                (projects_handler_exits (list Project))) as [H1 H2].
    split; [exact H1|]. intros e H. destruct (H2 e H) as [|[|]]; eauto.
Qed.

Lemma get_storage_info_ends (self : ArtifactoryStorageMonitor) :
  (forall j, outcome (get_storage_info self) = inr j ->
             printed (get_storage_info self) = [])
  /\ (forall e, outcome (get_storage_info self) = inl e ->
        e = SystemExit 1
        \/ requests_get (storage_info_url self) (headers self) 30
           = inl (Foreign e)
        \/ exists r, raise_for_status r = Some (Foreign e)
                     \/ json_storage r = inl (Foreign e)).
Proof.
  unfold Client.get_storage_info.
  destruct (requests_get _ _ _) as [[e|e]|r].
  - split; [discriminate|]. intros e' H. injection H as <-. auto.
  - split; [discriminate|]. intros e' H. injection H as <-. auto.
  - match goal with
    | |- context [checked_json _ _ _ _ ?h] =>
        destruct (checked_json_ends StorageInfo json_storage r h)
          as [H1 H2]
    end.
    { intros e. eexists. reflexivity. }
    split; [exact H1|]. intros e H. destruct (H2 e H) as [|[|]]; eauto.
Qed.

Lemma ending_bind {A B} (c : Out A) (k : A -> Out B) (e : exn) :
  ending (out_bind c k) = inl e ->
  ending c = inl e \/ exists a, ending c = inr a /\ ending (k a) = inl e.
Proof.
  destruct c as [text [e'|a]]; unfold ending; cbn [out_bind snd].
  - intros H. left. injection H as <-. reflexivity.
  - destruct (k a) as [text' r] eqn:E. cbn [snd]. intros H.
    right. exists a. split; [reflexivity|]. rewrite E. exact H.
Qed.

(** X22. When the authentication test answers [False], [main] writes the
    address, the failure and the four lines of advice, and ends with
    status 1: no project and no storage information is requested. *)
Theorem main_stops_on_failed_authentication (args : Args) :
  test_authentication (init (url args) (token args)) = inr false ->
  main args
  = (lines_text
       [lit "连接至: " ++ url args;
        lit "测试认证连接... 失败!";
        lit "认证失败: 无法连接到Artifactory或认证信息无效";
        lit "请检查:";
        lit "  1. Artifactory地址是否正确";
        lit "  2. Token是否有效";
        lit "  3. 网络连接是否正常"],
     inl (SystemExit 1)).
Proof.
  intros H. unfold Entry.main. cbv zeta. rewrite H.
  cbn [say out_lift out_bind out_ret negb raise].
  apply (f_equal (fun t => (t, @inl exn unit (SystemExit 1)))).
  generalize (url args). intros address.
  unfold lines_text. cbn [map List.concat].
  rewrite ?app_nil_l, ?app_nil_r.
  repeat (rewrite <- app_comm_cons || rewrite <- app_assoc).
  vm_compute. reflexivity.
Qed.

(** The text [main] writes before the report, when the three requests
    succeed; [report] stands for the report that follows. *)
Lemma main_preamble (args : Args) (projects : list Project)
    (storage_info : StorageInfo)
    (report : list Project -> StorageInfo -> Out unit) :
  let monitor := init (url args) (token args) in
  test_authentication monitor = inr true ->
  outcome (get_projects monitor) = inr projects ->
  outcome (get_storage_info monitor) = inr storage_info ->
  (say (lit "连接至: " ++ url args) [nl] ;;
   say (lit "测试认证连接...") (lit " ") ;;
   authenticated <- out_lift (test_authentication monitor) ;;
   (if negb authenticated then
      say (lit "失败!") [nl] ;;
      say (lit "认证失败: 无法连接到Artifactory或认证信息无效") [nl] ;;
      say (lit "请检查:") [nl] ;;
      say (lit "  1. Artifactory地址是否正确") [nl] ;;
      say (lit "  2. Token是否有效") [nl] ;;
      say (lit "  3. 网络连接是否正常") [nl] ;;
      out_lift (raise (SystemExit 1))
    else out_ret tt) ;;
   say (lit "成功!") [nl] ;;
   say (lit "获取项目信息...") (lit " ") ;;
   projects <- of_io (get_projects monitor) ;;
   say (lit "找到 " ++ int_str (Z.of_nat (List.length projects))
        ++ lit " 个项目") [nl] ;;
   say (lit "获取存储信息...") (lit " ") ;;
   storage_info <- of_io (get_storage_info monitor) ;;
   say (lit "完成") [nl] ;;
   say (nl :: lit "Artifactory 项目存储使用率监控 - " ++ url args) [nl] ;;
   say separator_line [nl] ;;
   report projects storage_info)%out
  = (lines_text
       [lit "连接至: " ++ url args;
        lit "测试认证连接... 成功!";
        lit "获取项目信息... 找到 "
          ++ int_str (Z.of_nat (List.length projects)) ++ lit " 个项目";
        lit "获取存储信息... 完成";
        nl :: lit "Artifactory 项目存储使用率监控 - " ++ url args;
        separator_line]
     ++ written (report projects storage_info),
     ending (report projects storage_info)).
Proof.
  intros monitor Ha Hp Hs. rewrite Ha.
  pose proof (proj1 (get_projects_ends monitor) projects Hp) as Pp.
  pose proof (proj1 (get_storage_info_ends monitor) storage_info Hs) as Ps.
  unfold of_io. rewrite Pp, Ps, Hp, Hs.
  cbn [say out_lift out_bind out_ret negb].
  destruct (report projects storage_info) as [rest rres].
  cbn [written ending fst snd].
  apply (f_equal (fun t => (t, rres))).
  generalize (int_str (Z.of_nat (List.length projects))).
  generalize (url args). intros address count.
  unfold lines_text. cbn [map List.concat].
  rewrite ?app_nil_l, ?app_nil_r.
  repeat (rewrite <- app_comm_cons || rewrite <- app_assoc).
  vm_compute. reflexivity.
Qed.

(** X23. When the authentication test answers [True] and the two
    requests return, [main] writes six lines, the count being the
    number of projects and each progress line carrying its result, the
    address as it was given, and then the report; the report's outcome
    is the outcome of [main]. *)
Theorem main_reports_after_fetching (args : Args)
    (projects : list Project) (storage_info : StorageInfo) :
  let monitor := init (url args) (token args) in
  let report :=
    main_report repr_list (project_name args) (details args) projects
      storage_info in
  test_authentication monitor = inr true ->
  outcome (get_projects monitor) = inr projects ->
  outcome (get_storage_info monitor) = inr storage_info ->
  main args
  = (lines_text
       [lit "连接至: " ++ url args;
        lit "测试认证连接... 成功!";
        lit "获取项目信息... 找到 "
          ++ int_str (Z.of_nat (List.length projects)) ++ lit " 个项目";
        lit "获取存储信息... 完成";
        nl :: lit "Artifactory 项目存储使用率监控 - " ++ url args;
        separator_line]
     ++ lines_text (printed report),
     outcome report).
Proof.
  intros monitor report Ha Hp Hs.
  exact (main_preamble args projects storage_info
           (fun projects storage_info =>
              of_io (main_report repr_list (project_name args)
                       (details args) projects storage_info))
           Ha Hp Hs).
Qed.

(** X24. Whenever [main] ends the program, the status is 1, provided
    the library itself does not raise [SystemExit]. *)
Theorem main_exit_status (args : Args) :
  (forall u h t c, requests_get u h t <> inl (Foreign (SystemExit c))) ->
  (forall r c, raise_for_status r <> Some (Foreign (SystemExit c))) ->
  (forall r c, json_projects r <> inl (Foreign (SystemExit c))) ->
  (forall r c, json_storage r <> inl (Foreign (SystemExit c))) ->
  match ending (main args) with
  | inl (SystemExit c) => c = 1
  | _ => True
  end.
Proof.
  intros Hg Hr Hjp Hjs.
  destruct (ending (main args)) as [[| | | |c]|u] eqn:E; try exact I.
  revert E. unfold Entry.main. cbv zeta.
  set (monitor := init (url args) (token args)).
  intros E.
  apply ending_bind in E. destruct E as [E|(_ & _ & E)]; [discriminate|].
  apply ending_bind in E. destruct E as [E|(_ & _ & E)]; [discriminate|].
  apply ending_bind in E. destruct E as [E|(ok & Eok & E)].
  { exfalso. revert E. unfold out_lift, ending, Client.test_authentication.
    cbn [snd].
    destruct (requests_get (test_url monitor) (headers monitor) 10)
      as [[e|e]|r] eqn:Eg; try discriminate.
    destruct e; cbn [is_Exception]; try discriminate.
    intros H. injection H as ->. exact (Hg _ _ _ _ Eg). }
  apply ending_bind in E. destruct E as [E|(_ & _ & E)].
  { destruct ok; cbn [negb] in E; [discriminate|].
    cbn in E. now injection E as <-. }
  apply ending_bind in E. destruct E as [E|(_ & _ & E)]; [discriminate|].
  apply ending_bind in E. destruct E as [E|(_ & _ & E)]; [discriminate|].
  apply ending_bind in E. destruct E as [E|(projects & _ & E)].
  { unfold of_io, ending in E. cbn [snd] in E.
    destruct (proj2 (get_projects_ends monitor) _ E)
      as [H|[H|(r & [H|H])]].
    - now injection H as <-.
    - exfalso. exact (Hg _ _ _ _ H).
    - exfalso. exact (Hr _ _ H).
    - exfalso. exact (Hjp _ _ H). }
  apply ending_bind in E. destruct E as [E|(_ & _ & E)]; [discriminate|].
  apply ending_bind in E. destruct E as [E|(_ & _ & E)]; [discriminate|].
  apply ending_bind in E. destruct E as [E|(storage_info & _ & E)].
  { unfold of_io, ending in E. cbn [snd] in E.
    destruct (proj2 (get_storage_info_ends monitor) _ E)
      as [H|[H|(r & [H|H])]].
    - now injection H as <-.
    - exfalso. exact (Hg _ _ _ _ H).
    - exfalso. exact (Hr _ _ H).
    - exfalso. exact (Hjs _ _ H). }
  apply ending_bind in E. destruct E as [E|(_ & _ & E)]; [discriminate|].
  apply ending_bind in E. destruct E as [E|(_ & _ & E)]; [discriminate|].
  apply ending_bind in E. destruct E as [E|(_ & _ & E)]; [discriminate|].
  unfold of_io, ending in E. cbn [snd] in E.
  now apply main_report_exit in E.
Qed.

End MainFacts.

Lemma main_stops_on_failed_authentication_witness :
  let offline : str -> list (str * str) -> Z -> raised + Response :=
    fun _ _ _ =>
      inl (Request {| message := lit "connection refused";
                      response := None |}) in
  let args :=
    {| url := lit "http://host/"; token := lit "t"; project_name := None;
       details := false |} in
  Entry.main offline (fun _ => None) (fun _ => inr [])
    (fun _ => inr {| repositoriesSummaryList := None |}) (fun _ => []) args
  = (lines_text
       [lit "连接至: " ++ url args;
        lit "测试认证连接... 失败!";
        lit "认证失败: 无法连接到Artifactory或认证信息无效";
        lit "请检查:";
        lit "  1. Artifactory地址是否正确";
        lit "  2. Token是否有效";
        lit "  3. 网络连接是否正常"],
     inl (SystemExit 1)).
Proof.
  intros offline args.
  apply (main_stops_on_failed_authentication offline (fun _ => None)
           (fun _ => inr [])
           (fun _ => inr {| repositoriesSummaryList := None |})
           (fun _ => []) args).
  reflexivity.
Defined.

Lemma main_reports_after_fetching_witness :
  let online : str -> list (str * str) -> Z -> raised + Response :=
    fun _ _ _ => inr {| status_code := 200; text := [] |} in
  let args :=
    {| url := lit "http://host/"; token := lit "t"; project_name := None;
       details := false |} in
  let storage_info := {| repositoriesSummaryList := None |} in
  let monitor := init (url args) (token args) in
  let report :=
    main_report (fun _ => []) (project_name args) (details args) []
      storage_info in
  Entry.main online (fun _ => None) (fun _ => inr [])
    (fun _ => inr storage_info) (fun _ => []) args
  = (lines_text
       [lit "连接至: " ++ url args;
        lit "测试认证连接... 成功!";
        lit "获取项目信息... 找到 "
          ++ int_str (Z.of_nat (List.length (@nil Project))) ++ lit " 个项目";
        lit "获取存储信息... 完成";
        nl :: lit "Artifactory 项目存储使用率监控 - " ++ url args;
        separator_line]
     ++ lines_text (printed report),
     outcome report).
Proof.
  intros online args storage_info monitor report.
  apply (main_reports_after_fetching online (fun _ => None)
           (fun _ => inr []) (fun _ => inr storage_info) (fun _ => [])
           args [] storage_info).
  - reflexivity.
  - reflexivity.
  - reflexivity.
Defined.

Lemma main_exit_status_witness :
  let offline : str -> list (str * str) -> Z -> raised + Response :=
    fun _ _ _ =>
      inl (Request {| message := lit "connection refused";
                      response := None |}) in
  let args :=
    {| url := lit "http://host/"; token := lit "t"; project_name := None;
       details := false |} in
  match ending (Entry.main offline (fun _ => None) (fun _ => inr [])
                  (fun _ => inr {| repositoriesSummaryList := None |})
                  (fun _ => []) args) with
  | inl (SystemExit c) => c = 1
  | _ => True
  end.
Proof.
  intros offline args.
  apply (main_exit_status offline (fun _ => None) (fun _ => inr [])
           (fun _ => inr {| repositoriesSummaryList := None |})
           (fun _ => []) args); intros; discriminate.
Defined.
